(** * QR-code mapping store of the Jalsa Salana manager

    A shallow embedding of the mapping layer of [lib/storage.ts]
    (the part of [src/lib/export.ts] that starts at its
    [import { supabase, isSupabaseConfigured }] line):

    - [getCurrentEventId] / [setCurrentEventId]: the module-level
      current event and its copy in localStorage;
    - [saveQRCodeMapping] and [persistQRMappingToSupabase]: the local write
      followed by the remote upsert with its retry loop;
    - [getMemberIdFromQRCode]: the remote-first lookup with local fallback;
    - [getTajneedMembers] and [findMemberByQRCodeId]: the member lookup;
    - the code run when the module loads, [switchEvent], and the member
      registry: [saveTajneedMember], [saveTajneedMemberWithId],
      [updateTajneedMember], [deleteTajneedMember];
    - the attendance: [getAttendanceRecords], [addAttendanceRecord],
      [removeAttendanceRecord], [findAttendanceRecordByQRCodeId];
    - [deleteEvent].

    The functions are asynchronous in the source and every [await] is
    sequential, so they are embedded in a state-and-exception monad over
    a [World]: the device (module variable, localStorage), the Supabase
    tables, a script of the answers the backend gives to the successive
    requests, and the trace of storage accesses, requests and timers.
    A thrown exception keeps the state reached so far, as in JavaScript.

    The backend is the environment: a request is served on the tables,
    answered with an [error] object, or thrown, as the script says, and an
    answer other than success leaves the tables as they are.

    localStorage is the environment too: it is available, or refuses
    every write ([setItem] throws), or refuses every access, and stays so
    during a run. A stored item that is present parses to a value of its
    type. The mapping object is a plain JavaScript object: the finite map
    of its own entries, over the members it inherits from
    [Object.prototype]. Console output is not modelled. *)

From Stdlib Require Import String ZArith Lia Bool List.
From stdpp Require Import base option list gmap strings.
Import ListNotations.

Local Open Scope string_scope.
Local Open Scope list_scope.

(** * The program *)

(** ** JavaScript values used by the code *)

Module JS.

(** Truthiness of a string: only the empty string is falsy. *)
Definition truthy (s : string) : bool := negb (String.eqb s "").

(** Truthiness of [string | null | undefined]. *)
Definition truthy_opt (o : option string) : bool :=
  match o with
  | Some s => truthy s
  | None => false
  end.

(** [String.prototype.includes]: [sub] occurs somewhere in [s]. *)
Fixpoint includes (s sub : string) : bool :=
  String.prefix sub s
  || match s with
     | EmptyString => false
     | String _ s' => includes s' sub
     end.

(** [msg?.includes(sub)] used as a condition: [undefined] is falsy. *)
Definition opt_includes (msg : option string) (sub : string) : bool :=
  match msg with
  | Some s => includes s sub
  | None => false
  end.

(** [code === lit] for a possibly missing code. *)
Definition opt_is (code : option string) (lit : string) : bool :=
  match code with
  | Some c => String.eqb c lit
  | None => false
  end.

(** What [obj[key]] evaluates to on a plain object whose own entries are
    strings: a string, or a member the object inherits from
    [Object.prototype] (a function, and for [__proto__] the prototype
    itself). *)
Inductive Value :=
| Str (s : string)
| Inherited (name : string).

(** The property names of [Object.prototype]. *)
Definition object_prototype : list string :=
  [ "constructor"; "__defineGetter__"; "__defineSetter__"; "hasOwnProperty";
    "__lookupGetter__"; "__lookupSetter__"; "isPrototypeOf";
    "propertyIsEnumerable"; "toString"; "valueOf"; "__proto__";
    "toLocaleString" ].

Definition inherited (key : string) : bool :=
  existsb (String.eqb key) object_prototype.

(** [obj[key]]: the own entry, else the inherited member, else
    [undefined]. *)
Definition get_prop (obj : gmap string string) (key : string)
    : option Value :=
  match obj !! key with
  | Some s => Some (Str s)
  | None => if inherited key then Some (Inherited key) else None
  end.

(** [obj[key] = value] writes an own entry, unless the key is [__proto__]
    and the object has no own entry of that name: the assignment then goes
    to the setter of [Object.prototype], which ignores a string. *)
Definition assigns (obj : gmap string string) (key : string) : bool :=
  negb (String.eqb key "__proto__") || bool_decide (is_Some (obj !! key)).

(** The object after [obj[key] = value]. *)
Definition set_prop (obj : gmap string string) (key value : string)
    : gmap string string :=
  if assigns obj key then <[key := value]> obj else obj.

(** Functions and objects are truthy. *)
Definition truthy_value (v : Value) : bool :=
  match v with
  | Str s => truthy s
  | Inherited _ => true
  end.

(** [v || null] *)
Definition or_null (v : option Value) : option Value :=
  match v with
  | Some v => if truthy_value v then Some v else None
  | None => None
  end.

(** [s === v] for a string [s]. *)
Definition strict_eq (s : string) (v : Value) : bool :=
  match v with
  | Str s' => String.eqb s s'
  | Inherited _ => false
  end.

End JS.

(** ** Data model ([lib/types.ts], [scripts/create-qr-mappings.sql]) *)

Inductive Tanzeem :=
| Under7 | Atfal | Khuddam | Nasrat | Lajna | Ansar | Guests.

Record TajneedMember := {
  id : string;
  eventId : string;
  fullName : string;
  tanzeem : Tanzeem;
  region : string;
  jamaat : string;
  createdAt : string;
}.

(** A row of the [qr_mappings] table ([created_at] is filled in by the
    database and never read by the code). [event_id] is nullable. *)
Record QrRow := {
  qr_code_id : string;
  member_id : string;
  event_id : option string;
}.

(** The [error] object of a Supabase answer, reduced to the two fields the
    code branches on. *)
Record PostgrestError := {
  err_code : option string;
  err_message : option string;
}.

(** ** The backend and the world *)

(** What the backend does with one request: serve it, answer with an
    [error] object, or make the client call throw. *)
Inductive Response :=
| RespOk
| RespError (e : PostgrestError)
| RespThrow.

(** What localStorage does with an access. *)
Inductive Storage :=
| Available
(** [setItem] throws (the quota is used up, or is zero as in some private
    modes); [getItem] works *)
| QuotaExceeded
(** every access throws (storage is blocked for the page) *)
| AccessDenied.

(** Observable steps, in program order. *)
Inductive Event :=
| EvLocalGet (key : string)
| EvLocalSet (key : string)
| EvUpsert (row : QrRow)
| EvSleep (ms : Z)
| EvSelectQr (token : string) (event_filter : option string)
| EvSelectMembers (event : string).

Record World := {
  (** [typeof window !== "undefined"] *)
  has_window : bool;
  (** [supabase] is a client, not [null]; [isSupabaseConfigured = !!supabase] *)
  supabase : bool;
  (** [let currentEventId: string | null] *)
  currentEventId : option string;
  (** localStorage item ["current_event_id"] *)
  ls_current_event_id : option string;
  (** localStorage item ["qr_code_member_mapping"], parsed *)
  ls_qr_code_member_mapping : option (gmap string string);
  (** localStorage item ["tajneed_members"], parsed *)
  ls_tajneed_members : option (list TajneedMember);
  (** table [qr_mappings] *)
  db_qr_mappings : list QrRow;
  (** table [tajneed_members], newest first *)
  db_tajneed_members : list TajneedMember;
  (** answers of the backend to the next requests; once the script is
      used up every request is served *)
  responses : list Response;
  trace : list Event;
  (** the state of localStorage *)
  storage : Storage;
}.

Definition LOCAL_CURRENT_EVENT_KEY : string := "current_event_id".
Definition LOCAL_TAJNEED_KEY : string := "tajneed_members".
Definition LOCAL_QR_CODE_MAPPING_KEY : string := "qr_code_member_mapping".

Definition set_currentEventId (v : option string) (w : World) : World :=
  {| has_window := has_window w; supabase := supabase w;
     currentEventId := v;
     ls_current_event_id := ls_current_event_id w;
     ls_qr_code_member_mapping := ls_qr_code_member_mapping w;
     ls_tajneed_members := ls_tajneed_members w;
     db_qr_mappings := db_qr_mappings w;
     db_tajneed_members := db_tajneed_members w;
     responses := responses w; trace := trace w;
     storage := storage w |}.

Definition set_ls_current_event_id (v : option string) (w : World) : World :=
  {| has_window := has_window w; supabase := supabase w;
     currentEventId := currentEventId w;
     ls_current_event_id := v;
     ls_qr_code_member_mapping := ls_qr_code_member_mapping w;
     ls_tajneed_members := ls_tajneed_members w;
     db_qr_mappings := db_qr_mappings w;
     db_tajneed_members := db_tajneed_members w;
     responses := responses w; trace := trace w;
     storage := storage w |}.

Definition set_ls_qr_code_member_mapping
    (v : option (gmap string string)) (w : World) : World :=
  {| has_window := has_window w; supabase := supabase w;
     currentEventId := currentEventId w;
     ls_current_event_id := ls_current_event_id w;
     ls_qr_code_member_mapping := v;
     ls_tajneed_members := ls_tajneed_members w;
     db_qr_mappings := db_qr_mappings w;
     db_tajneed_members := db_tajneed_members w;
     responses := responses w; trace := trace w;
     storage := storage w |}.

Definition set_db_qr_mappings (v : list QrRow) (w : World) : World :=
  {| has_window := has_window w; supabase := supabase w;
     currentEventId := currentEventId w;
     ls_current_event_id := ls_current_event_id w;
     ls_qr_code_member_mapping := ls_qr_code_member_mapping w;
     ls_tajneed_members := ls_tajneed_members w;
     db_qr_mappings := v;
     db_tajneed_members := db_tajneed_members w;
     responses := responses w; trace := trace w;
     storage := storage w |}.

Definition set_responses (v : list Response) (w : World) : World :=
  {| has_window := has_window w; supabase := supabase w;
     currentEventId := currentEventId w;
     ls_current_event_id := ls_current_event_id w;
     ls_qr_code_member_mapping := ls_qr_code_member_mapping w;
     ls_tajneed_members := ls_tajneed_members w;
     db_qr_mappings := db_qr_mappings w;
     db_tajneed_members := db_tajneed_members w;
     responses := v; trace := trace w; storage := storage w |}.

Definition set_storage (v : Storage) (w : World) : World :=
  {| has_window := has_window w; supabase := supabase w;
     currentEventId := currentEventId w;
     ls_current_event_id := ls_current_event_id w;
     ls_qr_code_member_mapping := ls_qr_code_member_mapping w;
     ls_tajneed_members := ls_tajneed_members w;
     db_qr_mappings := db_qr_mappings w;
     db_tajneed_members := db_tajneed_members w;
     responses := responses w; trace := trace w; storage := v |}.

Definition set_trace (v : list Event) (w : World) : World :=
  {| has_window := has_window w; supabase := supabase w;
     currentEventId := currentEventId w;
     ls_current_event_id := ls_current_event_id w;
     ls_qr_code_member_mapping := ls_qr_code_member_mapping w;
     ls_tajneed_members := ls_tajneed_members w;
     db_qr_mappings := db_qr_mappings w;
     db_tajneed_members := db_tajneed_members w;
     responses := responses w; trace := v; storage := storage w |}.

(** ** The monad of asynchronous code *)

Inductive Exn :=
(** [new Error(`Failed to persist QR mapping to Supabase after
    ${attempt} attempt(s): ${error.message}`)] *)
| PersistFailed (attempts : nat) (msg : option string)
(** an exception raised by the client call itself *)
| TransportError
(** an exception raised by [localStorage.getItem] or [localStorage.setItem] *)
| StorageError.

Inductive Outcome (A : Type) :=
| Returned (a : A)
| Threw (e : Exn)
| OutOfFuel.
Arguments Returned {A} a.
Arguments Threw {A} e.
Arguments OutOfFuel {A}.

Definition M (A : Type) : Type := World -> Outcome A * World.

Definition ret {A} (a : A) : M A := fun w => (Returned a, w).

Definition bind {A B} (c : M A) (k : A -> M B) : M B :=
  fun w =>
    match c w with
    | (Returned a, w') => k a w'
    | (Threw e, w') => (Threw e, w')
    | (OutOfFuel, w') => (OutOfFuel, w')
    end.

Definition throw {A} (e : Exn) : M A := fun w => (Threw e, w).

Definition out_of_fuel {A} : M A := fun w => (OutOfFuel, w).

(** [try { c } catch (err) { h err }] *)
Definition try_catch {A} (c : M A) (h : Exn -> M A) : M A :=
  fun w =>
    match c w with
    | (Threw e, w') => h e w'
    | r => r
    end.

Definition gets {A} (f : World -> A) : M A := fun w => (Returned (f w), w).

Definition modify (f : World -> World) : M unit := fun w => (Returned tt, f w).

Declare Scope js_scope.
Delimit Scope js_scope with js.
Notation "x <- c ;; k" := (bind c (fun x => k))
  (at level 100, c at next level, right associativity) : js_scope.
Notation "c ;; k" := (bind c (fun _ => k))
  (at level 100, right associativity) : js_scope.
Local Open Scope js_scope.

Definition emit (e : Event) : M unit :=
  modify (fun w => set_trace (trace w ++ [e]) w).

(** [await new Promise((resolve) => setTimeout(resolve, ms))] *)
Definition sleep (ms : Z) : M unit := emit (EvSleep ms).

(** ** Current event and localStorage *)

(** [getItem] works unless every access is refused. *)
Definition can_read (w : World) : bool :=
  match storage w with
  | AccessDenied => false
  | _ => true
  end.

(** [setItem] works only on an available storage. *)
Definition can_write (w : World) : bool :=
  match storage w with
  | Available => true
  | _ => false
  end.

(** [localStorage.getItem(key)], [item] being the stored item of the key. *)
Definition localStorage_getItem {A} (item : World -> option A)
    : M (option A) :=
  ok <- gets can_read ;;
  if ok then gets item else throw StorageError.

(** [localStorage.setItem(key, value)], [store] writing the item of the
    key. *)
Definition localStorage_setItem (store : World -> World) : M unit :=
  ok <- gets can_write ;;
  if ok then modify store else throw StorageError.

(** [getCurrentEventId]: the module variable, else the stored copy (which
    is then cached in the module variable), else the empty string; a
    failure to read the stored copy is caught and ignored. *)
Definition getCurrentEventId : M string :=
  cur <- gets currentEventId ;;
  if JS.truthy_opt cur then ret (default "" cur)
  else
    win <- gets has_window ;;
    if win then
      try_catch
        (stored <- localStorage_getItem ls_current_event_id ;;
         if JS.truthy_opt stored then
           modify (set_currentEventId stored) ;;
           ret (default "" stored)
         else ret "")
        (fun _ => ret "")
    else ret "".

(** [setCurrentEventId(eventId)]: a failure to store the copy is caught
    (and logged). *)
Definition setCurrentEventId (eventId : string) : M unit :=
  modify (set_currentEventId (Some eventId)) ;;
  win <- gets has_window ;;
  if win then
    try_catch
      (localStorage_setItem (set_ls_current_event_id (Some eventId)))
      (fun _ => ret tt)
  else ret tt.

(** [getFromLocalStorage(LOCAL_QR_CODE_MAPPING_KEY, {})] *)
Definition getFromLocalStorage_qr : M (gmap string string) :=
  win <- gets has_window ;;
  if negb win then ret ∅
  else
    emit (EvLocalGet LOCAL_QR_CODE_MAPPING_KEY) ;;
    item <- localStorage_getItem ls_qr_code_member_mapping ;;
    ret (default ∅ item).

(** [saveToLocalStorage(LOCAL_QR_CODE_MAPPING_KEY, mappings)] *)
Definition saveToLocalStorage_qr (mappings : gmap string string) : M unit :=
  win <- gets has_window ;;
  if negb win then ret tt
  else
    emit (EvLocalSet LOCAL_QR_CODE_MAPPING_KEY) ;;
    localStorage_setItem (set_ls_qr_code_member_mapping (Some mappings)).

(** [getFromLocalStorage(LOCAL_TAJNEED_KEY, [])] *)
Definition getFromLocalStorage_tajneed : M (list TajneedMember) :=
  win <- gets has_window ;;
  if negb win then ret []
  else
    emit (EvLocalGet LOCAL_TAJNEED_KEY) ;;
    item <- localStorage_getItem ls_tajneed_members ;;
    ret (default [] item).

(** ** The Supabase tables *)

(** The backend's answer to the next request. *)
Definition next_response : M Response :=
  fun w =>
    match responses w with
    | [] => (Returned RespOk, w)
    | r :: rs => (Returned r, set_responses rs w)
    end.

(** [INSERT ... ON CONFLICT (qr_code_id) DO UPDATE]: the row with the same
    [qr_code_id] (the table's primary key) is replaced, otherwise the row
    is added. *)
Fixpoint upsert_row (r : QrRow) (t : list QrRow) : list QrRow :=
  match t with
  | [] => [r]
  | x :: t' =>
      if String.eqb (qr_code_id x) (qr_code_id r) then r :: t'
      else x :: upsert_row r t'
  end.

(** [supabase.from("qr_mappings").upsert(payload, { onConflict: "qr_code_id" })];
    the result is the [error] field of the answer. *)
Definition supabase_upsert_qr (payload : QrRow) : M (option PostgrestError) :=
  emit (EvUpsert payload) ;;
  r <- next_response ;;
  match r with
  | RespOk =>
      modify (fun w => set_db_qr_mappings (upsert_row payload (db_qr_mappings w)) w) ;;
      ret None
  | RespError e => ret (Some e)
  | RespThrow => throw TransportError
  end.

(** The rows selected by [.eq("qr_code_id", token)] and, when a filter is
    given, [.eq("event_id", event)] (a NULL [event_id] matches no filter). *)
Definition qr_row_matches (token : string) (event_filter : option string)
    (r : QrRow) : bool :=
  String.eqb (qr_code_id r) token
  && match event_filter with
     | None => true
     | Some e =>
         match event_id r with
         | Some e' => String.eqb e' e
         | None => false
         end
     end.

(** The answer PostgREST gives to [maybeSingle()] on more than one row. *)
Definition PGRST116 : PostgrestError :=
  {| err_code := Some "PGRST116";
     err_message := Some "JSON object requested, multiple (or no) rows returned" |}.

(** [maybeSingle()]: no row is [data = null], one row is that row, several
    rows are an error. *)
Definition maybeSingle (rows : list QrRow) : PostgrestError + option QrRow :=
  match rows with
  | [] => inr None
  | [r] => inr (Some r)
  | _ => inl PGRST116
  end.

(** [supabase.from("qr_mappings").select("member_id").eq(...).maybeSingle()] *)
Definition supabase_select_qr (token : string) (event_filter : option string)
    : M (PostgrestError + option QrRow) :=
  emit (EvSelectQr token event_filter) ;;
  r <- next_response ;;
  match r with
  | RespOk =>
      rows <- gets db_qr_mappings ;;
      ret (maybeSingle (List.filter (qr_row_matches token event_filter) rows))
  | RespError e => ret (inl e)
  | RespThrow => throw TransportError
  end.

(** [supabase.from(TAJNEED_TABLE).select("*").eq("event_id", eventId)
    .order("created_at", { ascending: false })] *)
Definition supabase_select_members (event : string)
    : M (PostgrestError + list TajneedMember) :=
  emit (EvSelectMembers event) ;;
  r <- next_response ;;
  match r with
  | RespOk =>
      rows <- gets db_tajneed_members ;;
      ret (inr (List.filter (fun m => String.eqb (eventId m) event) rows))
  | RespError e => ret (inl e)
  | RespThrow => throw TransportError
  end.

(** ** Writing a mapping *)

Definition MAX_ATTEMPTS : nat := 3.
Definition BASE_DELAY : Z := 100.

(** The [isRetryable] test of [persistQRMappingToSupabase]. *)
Definition isRetryable (error : PostgrestError) : bool :=
  JS.opt_is (err_code error) "PGRST301"
  || JS.opt_is (err_code error) "42P01"
  || JS.opt_includes (err_message error) "connection"
  || JS.opt_includes (err_message error) "timeout"
  || JS.opt_includes (err_message error) "temporarily unavailable".

(** [BASE_DELAY * Math.pow(2, attempt - 1)], for [attempt >= 1]: the
    function is private to the module and first called with [attempt = 1]. *)
Definition backoff_delay (attempt : nat) : Z :=
  (BASE_DELAY * 2 ^ (Z.of_nat attempt - 1))%Z.

(** [persistQRMappingToSupabase(qrCodeId, memberId, eventId, attempt)].
    The source recurses with [attempt + 1] under the guard
    [attempt < MAX_ATTEMPTS]; [fuel] bounds that recursion. The enclosing
    [try] rethrows what it catches. *)
Fixpoint persistQRMappingToSupabase_fuel (fuel : nat)
    (qrCodeId memberId : string) (eventId : option string) (attempt : nat)
    : M unit :=
  try_catch
    (sb <- gets supabase ;;
     if negb sb then ret tt
     else
       let payload :=
         {| qr_code_id := qrCodeId;
            member_id := memberId;
            event_id := if JS.truthy_opt eventId then eventId else None |} in
       error <- supabase_upsert_qr payload ;;
       match error with
       | Some error =>
           if isRetryable error && (attempt <? MAX_ATTEMPTS)%nat then
             let delay := backoff_delay attempt in
             sleep delay ;;
             match fuel with
             | S fuel' =>
                 persistQRMappingToSupabase_fuel fuel' qrCodeId memberId
                   eventId (attempt + 1)
             | O => out_of_fuel
             end
           else throw (PersistFailed attempt (err_message error))
       | None => ret tt
       end)
    (fun err => throw err).

Definition persistQRMappingToSupabase (qrCodeId memberId : string)
    (eventId : option string) (attempt : nat) : M unit :=
  persistQRMappingToSupabase_fuel MAX_ATTEMPTS qrCodeId memberId eventId attempt.

(** [saveQRCodeMapping(qrCodeId, memberId)]: the local read and write come
    before the [try] and are not guarded. *)
Definition saveQRCodeMapping (qrCodeId memberId : string) : M unit :=
  mappings <- getFromLocalStorage_qr ;;
  saveToLocalStorage_qr (JS.set_prop mappings qrCodeId memberId) ;;
  sb <- gets supabase ;;
  if sb then
    try_catch
      (eventId <- getCurrentEventId ;;
       persistQRMappingToSupabase qrCodeId memberId (Some eventId) 1)
      (fun _ => ret tt)
  else ret tt.

(** ** Resolving a mapping *)

(** [getMemberIdFromQRCode(qrCodeId)]. The remote part yields [Some id]
    where the source returns from inside the [try]; the local fallback
    comes after the [try] and is not guarded. The declared result is
    [string | null]; the value of [mappings[qrCodeId] || null] is a
    [JS.Value]. *)
Definition getMemberIdFromQRCode (qrCodeId : string)
    : M (option JS.Value) :=
  sb <- gets supabase ;;
  remote <-
    (if sb then
       try_catch
         (eventId <- getCurrentEventId ;;
          answer <- supabase_select_qr qrCodeId
                      (if JS.truthy eventId then Some eventId else None) ;;
          match answer with
          | inl _ => ret None
          | inr (Some data) =>
              if JS.truthy (member_id data) then ret (Some (member_id data))
              else ret None
          | inr None => ret None
          end)
         (fun _ => ret None)
     else ret None) ;;
  match remote with
  | Some mappedId => ret (Some (JS.Str mappedId))
  | None =>
      mappings <- getFromLocalStorage_qr ;;
      ret (JS.or_null (JS.get_prop mappings qrCodeId))
  end.

(** ** Looking up a member *)

(** [getTajneedMembers()] *)
Definition getTajneedMembers : M (list TajneedMember) :=
  try_catch
    (event <- getCurrentEventId ;;
     if negb (JS.truthy event) then ret []
     else
       sb <- gets supabase ;;
       if negb sb then
         allMembers <- getFromLocalStorage_tajneed ;;
         ret (List.filter (fun m => String.eqb (eventId m) event) allMembers)
       else
         answer <- supabase_select_members event ;;
         match answer with
         | inl _ => ret []
         | inr data => ret data
         end)
    (fun _ => ret []).

(** [members.find((m) => m.id === key)] *)
Definition find_member (key : string) (members : list TajneedMember)
    : option TajneedMember :=
  List.find (fun m => String.eqb (id m) key) members.

(** [members.find((m) => m.id === mappedId)] for the value the lookup of
    the mapping returned. *)
Definition find_mapped (mappedId : JS.Value) (members : list TajneedMember)
    : option TajneedMember :=
  List.find (fun m => JS.strict_eq (id m) mappedId) members.

(** [findMemberByQRCodeId(qrCodeId)]. The test [if (mappedId)] is the match
    on [Some]: [getMemberIdFromQRCode] returns a truthy value or [null]. *)
Definition findMemberByQRCodeId (qrCodeId : string) : M (option TajneedMember) :=
  members <- getTajneedMembers ;;
  match find_member qrCodeId members with
  | Some member => ret (Some member)
  | None =>
      mappedId <- getMemberIdFromQRCode qrCodeId ;;
      match mappedId with
      | Some mappedId =>
          match find_mapped mappedId members with
          | Some member => ret (Some member)
          | None =>
              sleep 200 ;;
              members <- getTajneedMembers ;;
              ret (find_mapped mappedId members)
          end
      | None =>
          sleep 200 ;;
          members <- getTajneedMembers ;;
          ret (find_member qrCodeId members)
      end
  end.

(** * Reading worlds and runs *)

(** No access to localStorage fails: there is no window, and then no
    access, or the storage is available. *)
Definition storage_ok (w : World) : bool :=
  negb (has_window w) || can_write w.

(** The event [getCurrentEventId] answers with. *)
Definition scope_of (w : World) : string :=
  if JS.truthy_opt (currentEventId w) then default "" (currentEventId w)
  else if has_window w && can_read w && JS.truthy_opt (ls_current_event_id w)
       then default "" (ls_current_event_id w)
       else "".

(** The filter on [event_id] for a scope: none for the empty scope. *)
Definition scope_filter (scope : string) : option string :=
  if JS.truthy scope then Some scope else None.

(** The backend serves the next request. *)
Definition served (w : World) : bool :=
  match responses w with
  | [] | RespOk :: _ => true
  | _ => false
  end.

(** The backend serves the next [n] requests. *)
Definition next_served (n : nat) (w : World) : bool :=
  forallb (fun r => match r with RespOk => true | _ => false end)
    (take n (responses w)).

(** The own entries of the local mapping cache. *)
Definition local_cache (w : World) : gmap string string :=
  if has_window w then default ∅ (ls_qr_code_member_mapping w) else ∅.

(** The entity the local cache records for a token, if not empty. *)
Definition local_lookup (w : World) (token : string) : option string :=
  match local_cache w !! token with
  | Some v => if JS.truthy v then Some v else None
  | None => None
  end.

(** [mappings[token] || null] on the local cache, as JavaScript evaluates
    it. *)
Definition local_value (w : World) (token : string) : option JS.Value :=
  JS.or_null (JS.get_prop (local_cache w) token).

(** The rows of [qr_mappings] for a token under the current scope. *)
Definition remote_rows (w : World) (token : string) : list QrRow :=
  List.filter (qr_row_matches token (scope_filter (scope_of w)))
    (db_qr_mappings w).

(** The row [persistQRMappingToSupabase] sends. *)
Definition payload_of (qrCodeId memberId : string) (eventId : option string)
    : QrRow :=
  {| qr_code_id := qrCodeId;
     member_id := memberId;
     event_id := if JS.truthy_opt eventId then eventId else None |}.

(** The primary key of [qr_mappings] holds. *)
Definition qr_primary_key (t : list QrRow) : Prop :=
  NoDup (List.map qr_code_id t).

(** Every member the device can see, in the table or in localStorage. *)
Definition members_store (w : World) : list TajneedMember :=
  db_tajneed_members w ++ default [] (ls_tajneed_members w).

(** The token is mapped to the member id, by a row of the table or by the
    local cache. *)
Definition maps_to (w : World) (token entity : string) : Prop :=
  (exists row, In row (db_qr_mappings w)
               /\ qr_code_id row = token /\ member_id row = entity)
  \/ local_cache w !! token = Some entity.


(** The events a run has added to the trace. *)
Definition events_since (w w' : World) : list Event :=
  drop (List.length (trace w)) (trace w').

(** The pauses of a run, in order. *)
Definition sleeps (evs : list Event) : list Z :=
  omap (fun e => match e with EvSleep ms => Some ms | _ => None end) evs.

(** The number of upserts sent during a run. *)
Definition upserts (evs : list Event) : nat :=
  List.length
    (List.filter (fun e => match e with EvUpsert _ => true | _ => false end) evs).

(** The lookups of a mapping sent to the table during a run. *)
Definition resolves (evs : list Event) : nat :=
  List.length
    (List.filter (fun e => match e with EvSelectQr _ _ => true | _ => false end)
       evs).

(** The reads of the member list during a run, from the table or from
    localStorage. *)
Definition member_reads (evs : list Event) : nat :=
  List.length
    (List.filter
       (fun e => match e with
                 | EvSelectMembers _ => true
                 | EvLocalGet k => String.eqb k LOCAL_TAJNEED_KEY
                 | _ => false
                 end) evs).

(** ** The chain and the error taxonomy in the specification's words *)

(** Step 1 of the chain: the entity id of the remote match, when the
    remote store is configured, answers, and holds a single matching row
    with an id. *)
Definition remote_match (w : World) (token : string) : option string :=
  if supabase w && served w then
    match remote_rows w token with
    | [row] => if JS.truthy (member_id row) then Some (member_id row) else None
    | _ => None
    end
  else None.

(** Steps 1 to 3: the remote match if there is one, else the local cache
    by token alone, else not found. *)
Definition Resolve_spec (w : World) (token : string) : option string :=
  match remote_match w token with
  | Some entity => Some entity
  | None => local_lookup w token
  end.

(** What the code's chain ends with: the remote match if there is one,
    else the value JavaScript finds under the token in the local cache,
    which has to be read first. *)
Definition resolved (w : World) (token : string)
    : Outcome (option JS.Value) :=
  match remote_match w token with
  | Some entity => Returned (Some (JS.Str entity))
  | None =>
      if has_window w && negb (can_read w) then Threw StorageError
      else Returned (local_value w token)
  end.

(** The accesses the chain makes, in order: the remote query when the
    remote store is configured, then the local cache only without a
    remote match. *)
Definition Resolve_accesses (w : World) (token : string) : list Event :=
  (if supabase w then [EvSelectQr token (scope_filter (scope_of w))] else [])
  ++ match remote_match w token with
     | Some _ => []
     | None => if has_window w then [EvLocalGet LOCAL_QR_CODE_MAPPING_KEY] else []
     end.

(** The error taxonomy in the specification's words, read on the SQLSTATE
    of the answer: terminal errors are schema and permission errors
    (class 42, syntax error or access rule violation), constraint errors
    (class 23) and malformed input (class 22). *)
Definition spec_terminal (error : PostgrestError) : bool :=
  match err_code error with
  | Some c => String.prefix "42" c || String.prefix "23" c || String.prefix "22" c
  | None => false
  end.

(** ** Worlds reached by the steps of the program *)

(** [getCurrentEventId] caches the stored event in the module variable. *)
Definition cache_scope (w : World) : World :=
  if JS.truthy_opt (currentEventId w) then w
  else if has_window w && can_read w && JS.truthy_opt (ls_current_event_id w)
       then set_currentEventId (ls_current_event_id w) w
       else w.

(** One request sent: its event is traced and its answer consumed. *)
Definition request_sent (e : Event) (w : World) : World :=
  set_responses (tail (responses w)) (set_trace (trace w ++ [e]) w).

(** The world after the local read and write of [saveQRCodeMapping], as
    far as they get. *)
Definition local_written (q m : string) (w : World) : World :=
  if has_window w then
    let w1 := set_trace (trace w ++ [EvLocalGet LOCAL_QR_CODE_MAPPING_KEY]) w in
    if can_read w then
      let w2 :=
        set_trace (trace w1 ++ [EvLocalSet LOCAL_QR_CODE_MAPPING_KEY]) w1 in
      if can_write w
      then set_ls_qr_code_member_mapping
             (Some (JS.set_prop (local_cache w) q m)) w2
      else w2
    else w1
  else w.

(** The world after [setCurrentEventId]. *)
Definition switched (event : string) (w : World) : World :=
  let w1 := set_currentEventId (Some event) w in
  if has_window w1 && can_write w1
  then set_ls_current_event_id (Some event) w1
  else w1.

(** The world after the 200 ms pause of [findMemberByQRCodeId]. *)
Definition paused (w : World) : World :=
  set_trace (trace w ++ [EvSleep 200]) w.

(** The world [getMemberIdFromQRCode] leaves. *)
Definition after_resolve (w : World) (token : string) : World :=
  let w1 :=
    if supabase w
    then request_sent (EvSelectQr token (scope_filter (scope_of w)))
           (cache_scope w)
    else w in
  match remote_match w token with
  | Some _ => w1
  | None =>
      if has_window w
      then set_trace (trace w1 ++ [EvLocalGet LOCAL_QR_CODE_MAPPING_KEY]) w1
      else w1
  end.

(** The members [getTajneedMembers] answers with: those of the current
    event, from the table when there is a client and the request is
    served, from localStorage when there is no client and it can be read;
    none without a current event or when the request or the read fails. *)
Definition visible_members (w : World) : list TajneedMember :=
  if JS.truthy (scope_of w) then
    if supabase w then
      if served w
      then List.filter (fun m => String.eqb (eventId m) (scope_of w))
             (db_tajneed_members w)
      else []
    else
      List.filter (fun m => String.eqb (eventId m) (scope_of w))
        (if has_window w && can_read w
         then default [] (ls_tajneed_members w) else [])
  else [].

(** The accesses of [getTajneedMembers]. *)
Definition members_accesses (w : World) : list Event :=
  if JS.truthy (scope_of w) then
    if supabase w then [EvSelectMembers (scope_of w)]
    else if has_window w then [EvLocalGet LOCAL_TAJNEED_KEY] else []
  else [].

(** The world [getTajneedMembers] leaves. *)
Definition after_members (w : World) : World :=
  let w1 := cache_scope w in
  if JS.truthy (scope_of w) then
    if supabase w then request_sent (EvSelectMembers (scope_of w)) w1
    else if has_window w
         then set_trace (trace w1 ++ [EvLocalGet LOCAL_TAJNEED_KEY]) w1
         else w1
  else w1.

(** What a run of the retry loop may change. *)
Record persist_frame (q m : string) (ev : option string) (w w' : World)
    : Prop := {
  pf_window : has_window w' = has_window w;
  pf_supabase : supabase w' = supabase w;
  pf_current : currentEventId w' = currentEventId w;
  pf_ls_current : ls_current_event_id w' = ls_current_event_id w;
  pf_ls_qr : ls_qr_code_member_mapping w' = ls_qr_code_member_mapping w;
  pf_ls_tajneed : ls_tajneed_members w' = ls_tajneed_members w;
  pf_db_tajneed : db_tajneed_members w' = db_tajneed_members w;
  pf_responses : exists n, responses w' = drop n (responses w);
  pf_trace : exists evs,
      trace w' = trace w ++ evs
      /\ Forall (fun e => e = EvUpsert (payload_of q m ev)
                          \/ exists ms, e = EvSleep ms) evs;
  pf_storage : storage w' = storage w;
}.

(** What [saveQRCodeMapping] changes, whatever the backend answers and
    whatever localStorage does. *)
Record save_post (q m : string) (w w' : World) : Prop := {
  sp_window : has_window w' = has_window w;
  sp_supabase : supabase w' = supabase w;
  sp_scope : scope_of w' = scope_of w;
  sp_ls_current : ls_current_event_id w' = ls_current_event_id w;
  sp_ls_tajneed : ls_tajneed_members w' = ls_tajneed_members w;
  sp_db_tajneed : db_tajneed_members w' = db_tajneed_members w;
  sp_local :
    local_cache w'
    = if has_window w && can_write w
      then JS.set_prop (local_cache w) q m
      else local_cache w;
  sp_db :
    db_qr_mappings w' = db_qr_mappings w
    \/ (supabase w = true
        /\ storage_ok w = true
        /\ db_qr_mappings w'
           = upsert_row (payload_of q m (Some (scope_of w))) (db_qr_mappings w));
  sp_responses : exists n, responses w' = drop n (responses w);
  sp_trace :
    has_window w = true -> can_write w = true ->
    exists evs,
      trace w' = trace w ++ EvLocalGet LOCAL_QR_CODE_MAPPING_KEY
                            :: EvLocalSet LOCAL_QR_CODE_MAPPING_KEY :: evs
      /\ Forall (fun e => e = EvUpsert (payload_of q m (Some (scope_of w)))
                          \/ exists ms, e = EvSleep ms) evs;
  sp_storage : storage w' = storage w;
}.

(** What reads leave alone: the window and the client, the current event,
    every item of localStorage and its state, and the tables. *)
Record same_data (w w' : World) : Prop := {
  sd_window : has_window w' = has_window w;
  sd_supabase : supabase w' = supabase w;
  sd_scope : scope_of w' = scope_of w;
  sd_ls_qr : ls_qr_code_member_mapping w' = ls_qr_code_member_mapping w;
  sd_ls_tajneed : ls_tajneed_members w' = ls_tajneed_members w;
  sd_db_qr : db_qr_mappings w' = db_qr_mappings w;
  sd_db_tajneed : db_tajneed_members w' = db_tajneed_members w;
  sd_ls_current : ls_current_event_id w' = ls_current_event_id w;
  sd_storage : storage w' = storage w;
}.

(** ** Concrete worlds *)

(** SQLSTATE 42501, [insufficient_privilege]. *)
Definition permission_denied : PostgrestError :=
  {| err_code := Some "42501";
     err_message := Some "permission denied for table qr_mappings" |}.

(** SQLSTATE 42P01, [undefined_table]. *)
Definition undefined_table : PostgrestError :=
  {| err_code := Some "42P01";
     err_message := Some "relation public.qr_mappings does not exist" |}.

Definition request_timeout : PostgrestError :=
  {| err_code := None; err_message := Some "upstream request timeout" |}.

Definition member_42 : TajneedMember :=
  {| id := "m-42"; eventId := "evt-1"; fullName := "Member Forty-Two";
     tanzeem := Khuddam; region := "Nairobi"; jamaat := "Nairobi East";
     createdAt := "2025-01-01T08:00:00Z" |}.



(** A browser with Supabase configured, event [evt-1] selected, empty
    stores, and the given script of backend answers. *)
Definition device (script : list Response) : World :=
  {| has_window := true; supabase := true;
     currentEventId := Some "evt-1";
     ls_current_event_id := Some "evt-1";
     ls_qr_code_member_mapping := None;
     ls_tajneed_members := None;
     db_qr_mappings := [];
     db_tajneed_members := [];
     responses := script;
     trace := [];
     storage := Available |}.


(** A second device: the member and the mapping are in the tables, the
    local cache is empty; the backend serves the member list and then
    times out on the lookup of the mapping. *)
Definition second_device : World :=
  {| has_window := true; supabase := true;
     currentEventId := Some "evt-1";
     ls_current_event_id := Some "evt-1";
     ls_qr_code_member_mapping := None;
     ls_tajneed_members := None;
     db_qr_mappings :=
       [{| qr_code_id := "SURPLUS-001"; member_id := "m-42";
           event_id := Some "evt-1" |}];
     db_tajneed_members := [member_42];
     responses := [RespOk; RespError request_timeout];
     trace := [];
     storage := Available |}.



(** ** Proof automation *)

(** Unfolding and case analysis for one function run on a world whose
    fields are variables. *)
Ltac unfold_js :=
  unfold getMemberIdFromQRCode, getTajneedMembers, saveQRCodeMapping,
    getCurrentEventId, setCurrentEventId,
    getFromLocalStorage_qr, saveToLocalStorage_qr, getFromLocalStorage_tajneed,
    localStorage_getItem, localStorage_setItem,
    supabase_upsert_qr, supabase_select_qr, supabase_select_members,
    next_response, sleep, emit, try_catch, bind, gets, modify, ret, throw,
    out_of_fuel.

Ltac split_cases :=
  repeat (simpl;
    match goal with
    | |- context [if ?b then _ else _] =>
        lazymatch b with
        | context [if _ then _ else _] => fail
        | context [match _ with _ => _ end] => fail
        | _ => destruct b eqn:?
        end
    | |- context [match ?x with _ => _ end] =>
        lazymatch x with
        | context [if _ then _ else _] => fail
        | context [match _ with _ => _ end] => fail
        | _ => destruct x eqn:?
        end
    end).

(** * The rest of the storage module *)

(** ** Module start and other devices *)

(** The module's top-level code, run when a page loads:
    [let currentEventId: string | null = null], then the stored event is
    read back when there is a window; a failure to read it is caught. *)
Definition module_load : M unit :=
  modify (set_currentEventId None) ;;
  win <- gets has_window ;;
  if win then
    try_catch
      (stored <- localStorage_getItem ls_current_event_id ;;
       if JS.truthy_opt stored then modify (set_currentEventId stored)
       else ret tt)
      (fun _ => ret tt)
  else ret tt.

(** [switchEvent(eventId)] *)
Definition switchEvent (eventId : string) : M unit :=
  setCurrentEventId eventId.

(** Another browser on the same backend: the tables and the backend's
    script of [w], an empty localStorage that works, and the given event
    selected. *)
Definition second_browser (w : World) (event : string) : World :=
  {| has_window := true; supabase := supabase w;
     currentEventId := Some event;
     ls_current_event_id := Some event;
     ls_qr_code_member_mapping := None;
     ls_tajneed_members := None;
     db_qr_mappings := db_qr_mappings w;
     db_tajneed_members := db_tajneed_members w;
     responses := responses w;
     trace := [];
     storage := Available |}.

(** ** Shapes of runs *)

(** An upsert, then [k] times a pause and an upsert, the pauses being those
    of the attempts from [attempt] on. *)
Fixpoint retry_events (upsert : Event) (attempt k : nat) : list Event :=
  match k with
  | O => [upsert]
  | S k' =>
      upsert :: EvSleep (backoff_delay attempt)
        :: retry_events upsert (S attempt) k'
  end.

(** ** Registering members *)

(** The values the environment supplies during one call: the device's
    clock ([Date.now().toString()], [new Date().toISOString()]) and the
    defaults the database fills in on insert ([gen_random_uuid()],
    [NOW()]). *)
Record Oracle := {
  date_now : string;
  date_iso : string;
  db_uuid : string;
  db_now : string;
}.

(** [Omit<TajneedMember, "createdAt">] *)
Module WithId.
Record t := {
  id : string;
  eventId : string;
  fullName : string;
  tanzeem : Tanzeem;
  region : string;
  jamaat : string;
}.
End WithId.

(** [Omit<TajneedMember, "id" | "createdAt">] *)
Module NewMember.
Record t := {
  eventId : string;
  fullName : string;
  tanzeem : Tanzeem;
  region : string;
  jamaat : string;
}.
End NewMember.

(** [Partial<Omit<TajneedMember, "id" | "eventId" | "createdAt">>]: a field
    is [Some] when the object has it. *)
Module Updates.
Record t := {
  fullName : option string;
  tanzeem : option Tanzeem;
  region : option string;
  jamaat : option string;
}.
End Updates.

Definition set_ls_tajneed_members (v : option (list TajneedMember))
    (w : World) : World :=
  {| has_window := has_window w; supabase := supabase w;
     currentEventId := currentEventId w;
     ls_current_event_id := ls_current_event_id w;
     ls_qr_code_member_mapping := ls_qr_code_member_mapping w;
     ls_tajneed_members := v;
     db_qr_mappings := db_qr_mappings w;
     db_tajneed_members := db_tajneed_members w;
     responses := responses w; trace := trace w;
     storage := storage w |}.

Definition set_db_tajneed_members (v : list TajneedMember) (w : World)
    : World :=
  {| has_window := has_window w; supabase := supabase w;
     currentEventId := currentEventId w;
     ls_current_event_id := ls_current_event_id w;
     ls_qr_code_member_mapping := ls_qr_code_member_mapping w;
     ls_tajneed_members := ls_tajneed_members w;
     db_qr_mappings := db_qr_mappings w;
     db_tajneed_members := v;
     responses := responses w; trace := trace w;
     storage := storage w |}.

(** [saveToLocalStorage(LOCAL_TAJNEED_KEY, members)] *)
Definition saveToLocalStorage_tajneed (members : list TajneedMember)
    : M unit :=
  win <- gets has_window ;;
  if negb win then ret tt
  else
    emit (EvLocalSet LOCAL_TAJNEED_KEY) ;;
    localStorage_setItem (set_ls_tajneed_members (Some members)).

(** [Array.prototype.findIndex]; [None] is the index -1. *)
Fixpoint findIndex {A} (f : A -> bool) (l : list A) : option nat :=
  match l with
  | [] => None
  | x :: l' => if f x then Some 0%nat else S <$> findIndex f l'
  end.

(** [maybeSingle()] on the rows of any table. *)
Definition maybeSingle_of {A} (rows : list A) : PostgrestError + option A :=
  match rows with
  | [] => inr None
  | [r] => inr (Some r)
  | _ => inl PGRST116
  end.

(** [single()]: exactly one row, else an error. *)
Definition single_of {A} (rows : list A) : PostgrestError + A :=
  match rows with
  | [r] => inr r
  | _ => inl PGRST116
  end.

(** SQLSTATE 23505, [unique_violation], on the primary key of
    [tajneed_members]. *)
Definition duplicate_member_id : PostgrestError :=
  {| err_code := Some "23505";
     err_message :=
       Some "duplicate key value violates unique constraint tajneed_members_pkey" |}.

(** The member requests below consume the backend's answers like the
    mapping requests; they are not entered in the trace, which records the
    steps of the mapping layer. *)

(** [supabase.from(TAJNEED_TABLE).select("*").eq("id", id).maybeSingle()] *)
Definition supabase_select_member_by_id (key : string)
    : M (PostgrestError + option TajneedMember) :=
  r <- next_response ;;
  match r with
  | RespOk =>
      rows <- gets db_tajneed_members ;;
      ret (maybeSingle_of (List.filter (fun m => String.eqb (id m) key) rows))
  | RespError e => ret (inl e)
  | RespThrow => throw TransportError
  end.

(** [supabase.from(TAJNEED_TABLE).insert([row]).select().single()]: the
    row goes in front (the table is kept newest first) unless its id is
    taken, which the primary key refuses. *)
Definition supabase_insert_member (row : TajneedMember)
    : M (PostgrestError + TajneedMember) :=
  r <- next_response ;;
  match r with
  | RespOk =>
      rows <- gets db_tajneed_members ;;
      if existsb (fun m => String.eqb (id m) (id row)) rows
      then ret (inl duplicate_member_id)
      else
        modify (set_db_tajneed_members (row :: rows)) ;;
        ret (inr row)
  | RespError e => ret (inl e)
  | RespThrow => throw TransportError
  end.

(** The row after [.update({ event_id, full_name, tanzeem, region, jamaat })]. *)
Definition updated_member (member : WithId.t) (row : TajneedMember)
    : TajneedMember :=
  {| id := id row;
     eventId := WithId.eventId member;
     fullName := WithId.fullName member;
     tanzeem := WithId.tanzeem member;
     region := WithId.region member;
     jamaat := WithId.jamaat member;
     createdAt := createdAt row |}.

(** [supabase.from(TAJNEED_TABLE).update({...}).eq("id", id).select().single()]:
    the rows with the id are rewritten; with other than one such row the
    answer is an error and nothing is written. *)
Definition supabase_update_member (member : WithId.t)
    : M (PostgrestError + TajneedMember) :=
  r <- next_response ;;
  match r with
  | RespOk =>
      rows <- gets db_tajneed_members ;;
      let hit := fun m => String.eqb (id m) (WithId.id member) in
      match single_of (List.map (updated_member member) (List.filter hit rows)) with
      | inr data =>
          modify (set_db_tajneed_members
                    (List.map (fun m => if hit m then updated_member member m
                                        else m) rows)) ;;
          ret (inr data)
      | inl e => ret (inl e)
      end
  | RespError e => ret (inl e)
  | RespThrow => throw TransportError
  end.

(** [saveTajneedMemberWithId(member)] *)
Definition saveTajneedMemberWithId (o : Oracle) (member : WithId.t)
    : M (option TajneedMember) :=
  let qrCodeId := WithId.id member in
  sb <- gets supabase ;;
  if negb sb then
    allMembers <- getFromLocalStorage_tajneed ;;
    let existingIndex :=
      findIndex (fun m => String.eqb (id m) (WithId.id member)) allMembers in
    let newMember :=
      {| id := WithId.id member;
         eventId := WithId.eventId member;
         fullName := WithId.fullName member;
         tanzeem := WithId.tanzeem member;
         region := WithId.region member;
         jamaat := WithId.jamaat member;
         createdAt := date_iso o |} in
    saveToLocalStorage_tajneed
      (match existingIndex with
       | Some i => <[i := newMember]> allMembers
       | None => allMembers ++ [newMember]
       end) ;;
    saveQRCodeMapping qrCodeId (id newMember) ;;
    ret (Some newMember)
  else
    try_catch
      (existing <- supabase_select_member_by_id (WithId.id member) ;;
       match existing with
       | inr (Some _) =>
           answer <- supabase_update_member member ;;
           match answer with
           | inl _ => ret None
           | inr data =>
               saveQRCodeMapping qrCodeId (id data) ;;
               ret (Some data)
           end
       | _ =>
           answer <- supabase_insert_member
                       {| id := WithId.id member;
                          eventId := WithId.eventId member;
                          fullName := WithId.fullName member;
                          tanzeem := WithId.tanzeem member;
                          region := WithId.region member;
                          jamaat := WithId.jamaat member;
                          createdAt := db_now o |} ;;
           match answer with
           | inl _ =>
               answer <- supabase_insert_member
                           {| id := db_uuid o;
                              eventId := WithId.eventId member;
                              fullName := WithId.fullName member;
                              tanzeem := WithId.tanzeem member;
                              region := WithId.region member;
                              jamaat := WithId.jamaat member;
                              createdAt := db_now o |} ;;
               match answer with
               | inl _ => ret None
               | inr newData =>
                   saveQRCodeMapping qrCodeId (id newData) ;;
                   ret (Some newData)
               end
           | inr data =>
               saveQRCodeMapping qrCodeId (id data) ;;
               ret (Some data)
           end
       end)
      (fun _ => ret None).

(** [saveTajneedMember(member)] *)
Definition saveTajneedMember (o : Oracle) (member : NewMember.t)
    : M (option TajneedMember) :=
  sb <- gets supabase ;;
  if negb sb then
    allMembers <- getFromLocalStorage_tajneed ;;
    let newMember :=
      {| id := date_now o;
         eventId := NewMember.eventId member;
         fullName := NewMember.fullName member;
         tanzeem := NewMember.tanzeem member;
         region := NewMember.region member;
         jamaat := NewMember.jamaat member;
         createdAt := date_iso o |} in
    saveToLocalStorage_tajneed (allMembers ++ [newMember]) ;;
    ret (Some newMember)
  else
    answer <- supabase_insert_member
                {| id := db_uuid o;
                   eventId := NewMember.eventId member;
                   fullName := NewMember.fullName member;
                   tanzeem := NewMember.tanzeem member;
                   region := NewMember.region member;
                   jamaat := NewMember.jamaat member;
                   createdAt := db_now o |} ;;
    match answer with
    | inl _ => ret None
    | inr data => ret (Some data)
    end.

(** [{ ...member, ...updates }] *)
Definition apply_updates (updates : Updates.t) (member : TajneedMember)
    : TajneedMember :=
  {| id := id member;
     eventId := eventId member;
     fullName := default (fullName member) (Updates.fullName updates);
     tanzeem := default (tanzeem member) (Updates.tanzeem updates);
     region := default (region member) (Updates.region updates);
     jamaat := default (jamaat member) (Updates.jamaat updates);
     createdAt := createdAt member |}.

(** The [updateData] of [updateTajneedMember]: only the fields of
    [updates] that are truthy. *)
Definition updateData_of (updates : Updates.t) : Updates.t :=
  {| Updates.fullName :=
       if JS.truthy_opt (Updates.fullName updates)
       then Updates.fullName updates else None;
     Updates.tanzeem := Updates.tanzeem updates;
     Updates.region :=
       if JS.truthy_opt (Updates.region updates)
       then Updates.region updates else None;
     Updates.jamaat :=
       if JS.truthy_opt (Updates.jamaat updates)
       then Updates.jamaat updates else None |}.

(** [supabase.from(TAJNEED_TABLE).update(updateData).eq("id", id)]; the
    result is the [error] field of the answer. *)
Definition supabase_patch_member (key : string) (updateData : Updates.t)
    : M (option PostgrestError) :=
  r <- next_response ;;
  match r with
  | RespOk =>
      modify (fun w =>
        set_db_tajneed_members
          (List.map (fun m => if String.eqb (id m) key
                              then apply_updates updateData m else m)
             (db_tajneed_members w)) w) ;;
      ret None
  | RespError e => ret (Some e)
  | RespThrow => throw TransportError
  end.

(** [updateTajneedMember(id, updates)] *)
Definition updateTajneedMember (key : string) (updates : Updates.t)
    : M bool :=
  sb <- gets supabase ;;
  if negb sb then
    allMembers <- getFromLocalStorage_tajneed ;;
    match findIndex (fun m => String.eqb (id m) key) allMembers with
    | Some index =>
        saveToLocalStorage_tajneed
          (match allMembers !! index with
           | Some old => <[index := apply_updates updates old]> allMembers
           | None => allMembers
           end) ;;
        ret true
    | None => ret false
    end
  else
    error <- supabase_patch_member key (updateData_of updates) ;;
    match error with
    | Some _ => ret false
    | None => ret true
    end.

(** [supabase.from(TAJNEED_TABLE).delete().eq("id", id)]; the rows of
    other tables that refer to the member are not part of this world. *)
Definition supabase_delete_member (key : string) : M (option PostgrestError) :=
  r <- next_response ;;
  match r with
  | RespOk =>
      modify (fun w =>
        set_db_tajneed_members
          (List.filter (fun m => negb (String.eqb (id m) key))
             (db_tajneed_members w)) w) ;;
      ret None
  | RespError e => ret (Some e)
  | RespThrow => throw TransportError
  end.

(** [deleteTajneedMember(id)] *)
Definition deleteTajneedMember (key : string) : M bool :=
  sb <- gets supabase ;;
  if negb sb then
    allMembers <- getFromLocalStorage_tajneed ;;
    saveToLocalStorage_tajneed
      (List.filter (fun m => negb (String.eqb (id m) key)) allMembers) ;;
    ret true
  else
    error <- supabase_delete_member key ;;
    match error with
    | Some _ => ret false
    | None => ret true
    end.

(** The member [saveTajneedMemberWithId] stores and returns, under the
    given id and creation time. *)
Definition stored_member (member : WithId.t) (key created : string)
    : TajneedMember :=
  {| id := key;
     eventId := WithId.eventId member;
     fullName := WithId.fullName member;
     tanzeem := WithId.tanzeem member;
     region := WithId.region member;
     jamaat := WithId.jamaat member;
     createdAt := created |}.

(** The members in localStorage as the code reads them. *)
Definition local_members (w : World) : list TajneedMember :=
  if has_window w then default [] (ls_tajneed_members w) else [].

(** [allMembers] after the local registration of [new]: written over the
    first member with its id, else added at the end. *)
Definition registered (new : TajneedMember) (l : list TajneedMember)
    : list TajneedMember :=
  match findIndex (fun m => String.eqb (id m) (id new)) l with
  | Some i => <[i := new]> l
  | None => l ++ [new]
  end.

(** What the member requests leave alone: everything but the member
    table and the script of answers. *)
Record members_frame (w w' : World) : Prop := {
  mf_window : has_window w' = has_window w;
  mf_supabase : supabase w' = supabase w;
  mf_current : currentEventId w' = currentEventId w;
  mf_ls_current : ls_current_event_id w' = ls_current_event_id w;
  mf_ls_qr : ls_qr_code_member_mapping w' = ls_qr_code_member_mapping w;
  mf_ls_tajneed : ls_tajneed_members w' = ls_tajneed_members w;
  mf_db_qr : db_qr_mappings w' = db_qr_mappings w;
  mf_trace : trace w' = trace w;
  mf_storage : storage w' = storage w;
}.

(** [allMembers] after the local update of the member with the id: the
    first one with the id is rewritten, if there is one. *)
Definition updated_locally (key : string) (updates : Updates.t)
    (l : list TajneedMember) : list TajneedMember :=
  match findIndex (fun m => String.eqb (id m) key) l with
  | Some index =>
      match l !! index with
      | Some old => <[index := apply_updates updates old]> l
      | None => l
      end
  | None => l
  end.

(** The member table after a served remote update of the id. *)
Definition updated_remotely (key : string) (updates : Updates.t)
    (l : list TajneedMember) : list TajneedMember :=
  List.map (fun m => if String.eqb (id m) key
                     then apply_updates (updateData_of updates) m else m) l.

(** The member list of the backend in use: the table with a Supabase
    client, localStorage without. *)
Definition stored_members (w : World) : list TajneedMember :=
  if supabase w then db_tajneed_members w else local_members w.

(** One member request answered: the next answer of the backend is
    consumed. *)
Definition answered (w : World) : World :=
  set_responses (tail (responses w)) w.

(** The world after a served insert of [row]. *)
Definition member_inserted (row : TajneedMember) (w : World) : World :=
  set_db_tajneed_members (row :: db_tajneed_members w) (answered w).

(** ** More concrete worlds *)

(** A browser without Supabase, event [evt-1] selected, empty stores. *)
Definition offline_device : World :=
  {| has_window := true; supabase := false;
     currentEventId := Some "evt-1";
     ls_current_event_id := Some "evt-1";
     ls_qr_code_member_mapping := None;
     ls_tajneed_members := None;
     db_qr_mappings := [];
     db_tajneed_members := [];
     responses := [];
     trace := [];
     storage := Available |}.

Definition sample_oracle : Oracle :=
  {| date_now := "1748768400000";
     date_iso := "2025-06-01T09:00:00.000Z";
     db_uuid := "3f2b8c1e-5d4a-4e6f-9a7b-2c1d0e9f8a7b";
     db_now := "2025-06-01T09:00:00.120Z" |}.

Definition card_holder : WithId.t :=
  {| WithId.id := "SURPLUS-001"; WithId.eventId := "evt-1";
     WithId.fullName := "Card Holder"; WithId.tanzeem := Ansar;
     WithId.region := "Coast"; WithId.jamaat := "Mombasa" |}.


(** SQLSTATE 22P02, [invalid_text_representation]: the id column is a UUID
    and the submitted id is not one. *)
Definition invalid_uuid : PostgrestError :=
  {| err_code := Some "22P02";
     err_message := Some "invalid input syntax for type uuid" |}.

(** The device of [device] next to a member table that already holds the
    card holder under the id of the card. *)
Definition registered_device (script : list Response) : World :=
  {| has_window := true; supabase := true;
     currentEventId := Some "evt-1";
     ls_current_event_id := Some "evt-1";
     ls_qr_code_member_mapping := None;
     ls_tajneed_members := None;
     db_qr_mappings := [];
     db_tajneed_members :=
       [stored_member card_holder "SURPLUS-001" "2025-05-30T10:00:00.000Z"];
     responses := script;
     trace := [];
     storage := Available |}.

(** * Attendance *)

(** The attendance functions work on two more stores, the localStorage
    item ["attendance_records"] and the table [attendance_records], and
    [deleteEvent] clears two more localStorage items, ["events_list"] and
    ["regions"]. A [Desk] is a world with these stores. The lookups and
    the registration above are run on the world of the desk and leave the
    other stores alone. (Deleting a member is not run on a desk: the
    table deletes the member's attendance rows with it.) *)

(** [AttendanceRecord] of [lib/types.ts]; [member] is optional. *)
Module AttendanceRecord.
Record t := {
  id : string;
  eventId : string;
  memberId : string;
  recordedAt : string;
  member : option TajneedMember;
}.
End AttendanceRecord.

(** A row of the table [attendance_records]: [id] is its primary key and
    the pair ([event_id], [member_id]) is [UNIQUE]. *)
Module AttendanceRow.
Record t := {
  id : string;
  event_id : string;
  member_id : string;
  recorded_at : string;
}.
End AttendanceRow.

(** [EventSettings] of [lib/types.ts] *)
Module EventSettings.
Record t := {
  id : string;
  eventName : string;
  startingDate : string;
  duration : Z;
  location : string;
  theme : string;
  createdAt : string;
}.
End EventSettings.

(** [Region] of [lib/types.ts] *)
Module Region.
Record t := {
  id : string;
  eventId : string;
  name : string;
  jamaat : list string;
}.
End Region.

Definition LOCAL_ATTENDANCE_KEY : string := "attendance_records".

Record Desk := {
  world : World;
  (** localStorage item ["attendance_records"], parsed *)
  ls_attendance_records : option (list AttendanceRecord.t);
  (** table [attendance_records], newest first *)
  db_attendance_records : list AttendanceRow.t;
  (** localStorage item ["events_list"], parsed *)
  ls_events_list : option (list EventSettings.t);
  (** localStorage item ["regions"], parsed *)
  ls_regions : option (list Region.t);
}.

Definition set_world (v : World) (d : Desk) : Desk :=
  {| world := v;
     ls_attendance_records := ls_attendance_records d;
     db_attendance_records := db_attendance_records d;
     ls_events_list := ls_events_list d;
     ls_regions := ls_regions d |}.

Definition set_ls_attendance_records (v : option (list AttendanceRecord.t))
    (d : Desk) : Desk :=
  {| world := world d;
     ls_attendance_records := v;
     db_attendance_records := db_attendance_records d;
     ls_events_list := ls_events_list d;
     ls_regions := ls_regions d |}.

Definition set_db_attendance_records (v : list AttendanceRow.t) (d : Desk)
    : Desk :=
  {| world := world d;
     ls_attendance_records := ls_attendance_records d;
     db_attendance_records := v;
     ls_events_list := ls_events_list d;
     ls_regions := ls_regions d |}.

Definition set_ls_events_list (v : option (list EventSettings.t)) (d : Desk)
    : Desk :=
  {| world := world d;
     ls_attendance_records := ls_attendance_records d;
     db_attendance_records := db_attendance_records d;
     ls_events_list := v;
     ls_regions := ls_regions d |}.

Definition set_ls_regions (v : option (list Region.t)) (d : Desk) : Desk :=
  {| world := world d;
     ls_attendance_records := ls_attendance_records d;
     db_attendance_records := db_attendance_records d;
     ls_events_list := ls_events_list d;
     ls_regions := v |}.

(** The monad of asynchronous code, on a desk. *)
Definition D (A : Type) : Type := Desk -> Outcome A * Desk.

Definition ret_d {A} (a : A) : D A := fun d => (Returned a, d).

Definition bind_d {A B} (c : D A) (k : A -> D B) : D B :=
  fun d =>
    match c d with
    | (Returned a, d') => k a d'
    | (Threw e, d') => (Threw e, d')
    | (OutOfFuel, d') => (OutOfFuel, d')
    end.

Definition gets_d {A} (f : Desk -> A) : D A := fun d => (Returned (f d), d).

Definition modify_d (f : Desk -> Desk) : D unit :=
  fun d => (Returned tt, f d).

(** Code of the world, run on the world of the desk. *)
Definition lift {A} (c : M A) : D A :=
  fun d => (fst (c (world d)), set_world (snd (c (world d))) d).

Declare Scope desk_scope.
Delimit Scope desk_scope with desk.
Notation "x <- c ;; k" := (bind_d c (fun x => k))
  (at level 100, c at next level, right associativity) : desk_scope.
Notation "c ;; k" := (bind_d c (fun _ => k))
  (at level 100, right associativity) : desk_scope.
Local Open Scope desk_scope.

(** [getFromLocalStorage(LOCAL_ATTENDANCE_KEY, [])] *)
Definition getFromLocalStorage_attendance : D (list AttendanceRecord.t) :=
  win <- lift (gets has_window) ;;
  if negb win then ret_d []
  else
    lift (emit (EvLocalGet LOCAL_ATTENDANCE_KEY)) ;;
    ok <- lift (gets can_read) ;;
    if ok then
      item <- gets_d ls_attendance_records ;;
      ret_d (default [] item)
    else lift (throw StorageError).

(** [saveToLocalStorage(LOCAL_ATTENDANCE_KEY, records)] *)
Definition saveToLocalStorage_attendance (records : list AttendanceRecord.t)
    : D unit :=
  win <- lift (gets has_window) ;;
  if negb win then ret_d tt
  else
    lift (emit (EvLocalSet LOCAL_ATTENDANCE_KEY)) ;;
    ok <- lift (gets can_write) ;;
    if ok then modify_d (set_ls_attendance_records (Some records))
    else lift (throw StorageError).

(** The embedded resource [member:tajneed_members(...)] of a row: the
    member its [member_id] refers to. *)
Definition joined (members : list TajneedMember) (row : AttendanceRow.t)
    : AttendanceRecord.t :=
  {| AttendanceRecord.id := AttendanceRow.id row;
     AttendanceRecord.eventId := AttendanceRow.event_id row;
     AttendanceRecord.memberId := AttendanceRow.member_id row;
     AttendanceRecord.recordedAt := AttendanceRow.recorded_at row;
     AttendanceRecord.member :=
       find_member (AttendanceRow.member_id row) members |}.

(** [{ ...record, member: members.find((member) => member.id === record.memberId) }] *)
Definition with_member (members : list TajneedMember)
    (record : AttendanceRecord.t) : AttendanceRecord.t :=
  {| AttendanceRecord.id := AttendanceRecord.id record;
     AttendanceRecord.eventId := AttendanceRecord.eventId record;
     AttendanceRecord.memberId := AttendanceRecord.memberId record;
     AttendanceRecord.recordedAt := AttendanceRecord.recordedAt record;
     AttendanceRecord.member :=
       find_member (AttendanceRecord.memberId record) members |}.

(** The attendance requests consume the backend's answers like the other
    requests and are not entered in the trace. *)

(** [supabase.from(ATTENDANCE_TABLE).select(`..., member:tajneed_members(...)`)
    .eq("event_id", eventId).order("recorded_at", { ascending: false })] *)
Definition supabase_select_attendance (event : string)
    : D (PostgrestError + list AttendanceRecord.t) :=
  r <- lift next_response ;;
  match r with
  | RespOk =>
      rows <- gets_d db_attendance_records ;;
      members <- lift (gets db_tajneed_members) ;;
      ret_d (inr (List.map (joined members)
                    (List.filter
                       (fun row => String.eqb (AttendanceRow.event_id row) event)
                       rows)))
  | RespError e => ret_d (inl e)
  | RespThrow => lift (throw TransportError)
  end.

(** [getAttendanceRecords()] *)
Definition getAttendanceRecords : D (list AttendanceRecord.t) :=
  eventId <- lift getCurrentEventId ;;
  if negb (JS.truthy eventId) then ret_d []
  else
    sb <- lift (gets supabase) ;;
    if negb sb then
      records <- getFromLocalStorage_attendance ;;
      members <- lift getFromLocalStorage_tajneed ;;
      ret_d (List.map (with_member members)
               (List.filter
                  (fun record =>
                     String.eqb (AttendanceRecord.eventId record) eventId)
                  records))
    else
      answer <- supabase_select_attendance eventId ;;
      match answer with
      | inl _ => ret_d []
      | inr data => ret_d data
      end.

(** [supabase.from(ATTENDANCE_TABLE).select("id").eq("event_id", eventId)
    .eq("member_id", memberId).maybeSingle()] *)
Definition supabase_select_attendance_of (event memberId : string)
    : D (PostgrestError + option AttendanceRow.t) :=
  r <- lift next_response ;;
  match r with
  | RespOk =>
      rows <- gets_d db_attendance_records ;;
      ret_d (maybeSingle_of
               (List.filter
                  (fun row =>
                     String.eqb (AttendanceRow.event_id row) event
                     && String.eqb (AttendanceRow.member_id row) memberId)
                  rows))
  | RespError e => ret_d (inl e)
  | RespThrow => lift (throw TransportError)
  end.

(** SQLSTATE 23505 on [attendance_records]: the primary key or the
    [UNIQUE(event_id, member_id)] constraint. *)
Definition duplicate_attendance : PostgrestError :=
  {| err_code := Some "23505";
     err_message :=
       Some "duplicate key value violates unique constraint on attendance_records" |}.

(** SQLSTATE 23503, [foreign_key_violation]: [member_id] refers to no
    member. *)
Definition unknown_member : PostgrestError :=
  {| err_code := Some "23503";
     err_message :=
       Some "insert or update on table attendance_records violates foreign key constraint" |}.

(** [supabase.from(ATTENDANCE_TABLE).insert([{ event_id, member_id }])
    .select(`..., member:tajneed_members(...)`).single()]: the database
    fills in [id] and [recorded_at]; it refuses a row whose pair
    ([event_id], [member_id]) or whose id is taken, and a row whose member
    does not exist. (The table [events] is not part of the desk: a
    refusal for an unknown event is one of the error answers of the
    script.) *)
Definition supabase_insert_attendance (o : Oracle) (event memberId : string)
    : D (PostgrestError + AttendanceRecord.t) :=
  r <- lift next_response ;;
  match r with
  | RespOk =>
      rows <- gets_d db_attendance_records ;;
      members <- lift (gets db_tajneed_members) ;;
      if existsb
           (fun row =>
              String.eqb (AttendanceRow.id row) (db_uuid o)
              || (String.eqb (AttendanceRow.event_id row) event
                  && String.eqb (AttendanceRow.member_id row) memberId))
           rows
      then ret_d (inl duplicate_attendance)
      else if negb (existsb (fun m => String.eqb (id m) memberId) members)
      then ret_d (inl unknown_member)
      else
        let row :=
          {| AttendanceRow.id := db_uuid o;
             AttendanceRow.event_id := event;
             AttendanceRow.member_id := memberId;
             AttendanceRow.recorded_at := db_now o |} in
        modify_d (set_db_attendance_records (row :: rows)) ;;
        ret_d (inr (joined members row))
  | RespError e => ret_d (inl e)
  | RespThrow => lift (throw TransportError)
  end.

(** [addAttendanceRecord(memberId)] *)
Definition addAttendanceRecord (o : Oracle) (memberId : string)
    : D (option AttendanceRecord.t) :=
  eventId <- lift getCurrentEventId ;;
  if negb (JS.truthy eventId) then ret_d None
  else
    sb <- lift (gets supabase) ;;
    if negb sb then
      records <- getFromLocalStorage_attendance ;;
      members <- lift getFromLocalStorage_tajneed ;;
      let exists_ :=
        existsb
          (fun record =>
             String.eqb (AttendanceRecord.eventId record) eventId
             && String.eqb (AttendanceRecord.memberId record) memberId)
          records in
      if exists_ then ret_d None
      else
        match find_member memberId members with
        | None => ret_d None
        | Some member =>
            let newRecord :=
              {| AttendanceRecord.id := date_now o;
                 AttendanceRecord.eventId := eventId;
                 AttendanceRecord.memberId := memberId;
                 AttendanceRecord.recordedAt := date_iso o;
                 AttendanceRecord.member := Some member |} in
            saveToLocalStorage_attendance (records ++ [newRecord]) ;;
            ret_d (Some newRecord)
        end
    else
      memberExists <- lift (supabase_select_member_by_id memberId) ;;
      match memberExists with
      | inr (Some _) =>
          existingRecord <- supabase_select_attendance_of eventId memberId ;;
          match existingRecord with
          | inr (Some _) => ret_d None
          | _ =>
              answer <- supabase_insert_attendance o eventId memberId ;;
              match answer with
              | inl _ => ret_d None
              | inr data => ret_d (Some data)
              end
          end
      | _ => ret_d None
      end.

(** [supabase.from(ATTENDANCE_TABLE).delete().eq("id", recordId)]; the
    rows of other tables that refer to the record are not part of the
    desk. *)
Definition supabase_delete_attendance (recordId : string)
    : D (option PostgrestError) :=
  r <- lift next_response ;;
  match r with
  | RespOk =>
      modify_d (fun d =>
        set_db_attendance_records
          (List.filter
             (fun row => negb (String.eqb (AttendanceRow.id row) recordId))
             (db_attendance_records d)) d) ;;
      ret_d None
  | RespError e => ret_d (Some e)
  | RespThrow => lift (throw TransportError)
  end.

(** [removeAttendanceRecord(recordId)] *)
Definition removeAttendanceRecord (recordId : string) : D bool :=
  sb <- lift (gets supabase) ;;
  if negb sb then
    records <- getFromLocalStorage_attendance ;;
    saveToLocalStorage_attendance
      (List.filter
         (fun record => negb (String.eqb (AttendanceRecord.id record) recordId))
         records) ;;
    ret_d true
  else
    error <- supabase_delete_attendance recordId ;;
    match error with
    | Some _ => ret_d false
    | None => ret_d true
    end.

(** [findAttendanceRecordByQRCodeId(qrCodeId)] *)
Definition findAttendanceRecordByQRCodeId (qrCodeId : string)
    : D (option AttendanceRecord.t) :=
  member <- lift (findMemberByQRCodeId qrCodeId) ;;
  match member with
  | None => ret_d None
  | Some member =>
      records <- getAttendanceRecords ;;
      ret_d (List.find
               (fun r => String.eqb (AttendanceRecord.memberId r) (id member))
               records)
  end.

(** ** Deleting an event *)

(** [getFromLocalStorage("events_list", [])] *)
Definition getFromLocalStorage_events : D (list EventSettings.t) :=
  win <- lift (gets has_window) ;;
  if negb win then ret_d []
  else
    lift (emit (EvLocalGet "events_list")) ;;
    ok <- lift (gets can_read) ;;
    if ok then
      item <- gets_d ls_events_list ;;
      ret_d (default [] item)
    else lift (throw StorageError).

(** [saveToLocalStorage("events_list", events)] *)
Definition saveToLocalStorage_events (events : list EventSettings.t)
    : D unit :=
  win <- lift (gets has_window) ;;
  if negb win then ret_d tt
  else
    lift (emit (EvLocalSet "events_list")) ;;
    ok <- lift (gets can_write) ;;
    if ok then modify_d (set_ls_events_list (Some events))
    else lift (throw StorageError).

(** [getFromLocalStorage("regions", [])] *)
Definition getFromLocalStorage_regions : D (list Region.t) :=
  win <- lift (gets has_window) ;;
  if negb win then ret_d []
  else
    lift (emit (EvLocalGet "regions")) ;;
    ok <- lift (gets can_read) ;;
    if ok then
      item <- gets_d ls_regions ;;
      ret_d (default [] item)
    else lift (throw StorageError).

(** [saveToLocalStorage("regions", regions)] *)
Definition saveToLocalStorage_regions (regions : list Region.t) : D unit :=
  win <- lift (gets has_window) ;;
  if negb win then ret_d tt
  else
    lift (emit (EvLocalSet "regions")) ;;
    ok <- lift (gets can_write) ;;
    if ok then modify_d (set_ls_regions (Some regions))
    else lift (throw StorageError).

(** The rows of the desk's tables that go with an event when the
    database deletes it ([ON DELETE CASCADE]): the members of the event,
    and the attendance rows of the event or of one of these members. *)
Definition cascade_event (event : string) (d : Desk) : Desk :=
  let gone := fun m : TajneedMember => String.eqb (eventId m) event in
  let members := db_tajneed_members (world d) in
  set_db_attendance_records
    (List.filter
       (fun row =>
          negb (String.eqb (AttendanceRow.event_id row) event)
          && negb (existsb
                     (fun m => gone m
                               && String.eqb (id m) (AttendanceRow.member_id row))
                     members))
       (db_attendance_records d))
    (set_world
       (set_db_tajneed_members (List.filter (fun m => negb (gone m)) members)
          (world d)) d).

(** [supabase.from("events").delete().eq("id", eventId)]. The tables
    [events], [regions] and the other tables that refer to an event are
    not part of the desk; of the tables that are, the rows of the event go
    with it (a row refers to an event only while the event exists). *)
Definition supabase_delete_event (event : string)
    : D (option PostgrestError) :=
  r <- lift next_response ;;
  match r with
  | RespOk => modify_d (cascade_event event) ;; ret_d None
  | RespError e => ret_d (Some e)
  | RespThrow => lift (throw TransportError)
  end.

(** [deleteEvent(eventId)] *)
Definition deleteEvent (event : string) : D bool :=
  sb <- lift (gets supabase) ;;
  if negb sb then
    events <- getFromLocalStorage_events ;;
    saveToLocalStorage_events
      (List.filter
         (fun e => negb (String.eqb (EventSettings.id e) event)) events) ;;
    allMembers <- lift getFromLocalStorage_tajneed ;;
    lift (saveToLocalStorage_tajneed
            (List.filter
               (fun member =>
                  negb (String.eqb (eventId member) event))
               allMembers)) ;;
    allAttendanceRecords <- getFromLocalStorage_attendance ;;
    saveToLocalStorage_attendance
      (List.filter
         (fun record =>
            negb (String.eqb (AttendanceRecord.eventId record) event))
         allAttendanceRecords) ;;
    allRegions <- getFromLocalStorage_regions ;;
    saveToLocalStorage_regions
      (List.filter
         (fun r => negb (String.eqb (Region.eventId r) event)) allRegions) ;;
    ret_d true
  else
    error <- supabase_delete_event event ;;
    match error with
    | Some _ => ret_d false
    | None => ret_d true
    end.

(** ** Reading desks *)

(** The attendance records in localStorage as the code reads them. *)
Definition local_attendance (d : Desk) : list AttendanceRecord.t :=
  if has_window (world d) then default [] (ls_attendance_records d) else [].

(** The (event, member) pairs of the attendance of the backend in use. *)
Definition attendance_keys (d : Desk) : list (string * string) :=
  if supabase (world d)
  then List.map (fun row => (AttendanceRow.event_id row,
                             AttendanceRow.member_id row))
         (db_attendance_records d)
  else List.map (fun r => (AttendanceRecord.eventId r,
                           AttendanceRecord.memberId r))
         (local_attendance d).

(** The ids of the attendance records of the backend in use. *)
Definition attendance_ids (d : Desk) : list string :=
  if supabase (world d)
  then List.map AttendanceRow.id (db_attendance_records d)
  else List.map AttendanceRecord.id (local_attendance d).

(** The record [addAttendanceRecord] answers with. *)
Definition attendance_record (key event memberId at_ : string)
    (x : TajneedMember) : AttendanceRecord.t :=
  {| AttendanceRecord.id := key;
     AttendanceRecord.eventId := event;
     AttendanceRecord.memberId := memberId;
     AttendanceRecord.recordedAt := at_;
     AttendanceRecord.member := Some x |}.

(** The records [getAttendanceRecords] answers with: those of the current
    event, each with the member its [memberId] names, from the table when
    there is a client and the request is served, from localStorage when
    there is no client; none without a current event or when the request
    is answered with an error. *)
Definition visible_attendance (d : Desk) : list AttendanceRecord.t :=
  let s := scope_of (world d) in
  if JS.truthy s then
    if supabase (world d) then
      if served (world d)
      then List.map (joined (db_tajneed_members (world d)))
             (List.filter
                (fun row => String.eqb (AttendanceRow.event_id row) s)
                (db_attendance_records d))
      else []
    else
      List.map (with_member (local_members (world d)))
        (List.filter
           (fun record => String.eqb (AttendanceRecord.eventId record) s)
           (local_attendance d))
  else [].

(** One attendance request answered. *)
Definition answered_d (d : Desk) : Desk :=
  set_world (answered (world d)) d.

(** The row the database stores for a new attendance record. *)
Definition attendance_row (o : Oracle) (event memberId : string)
    : AttendanceRow.t :=
  {| AttendanceRow.id := db_uuid o;
     AttendanceRow.event_id := event;
     AttendanceRow.member_id := memberId;
     AttendanceRow.recorded_at := db_now o |}.

(** What reads leave alone: the stored data of the world, the current
    event, the attendance stores and the other items of localStorage. *)
Record desk_read (d d' : Desk) : Prop := {
  dr_world : same_data (world d) (world d');
  dr_ls : ls_attendance_records d' = ls_attendance_records d;
  dr_db : db_attendance_records d' = db_attendance_records d;
  dr_events : ls_events_list d' = ls_events_list d;
  dr_regions : ls_regions d' = ls_regions d;
}.

(** The offline device with the card holder registered. *)
Definition registered_offline : World :=
  set_ls_tajneed_members
    (Some [stored_member card_holder "SURPLUS-001" "2025-05-30T10:00:00.000Z"])
    offline_device.

(** The environment five minutes after [sample_oracle]. *)
Definition later_oracle : Oracle :=
  {| date_now := "1748768700000";
     date_iso := "2025-06-01T09:05:00.000Z";
     db_uuid := "0b9d3c52-6f1e-4c7a-8e2d-5a4b3c2d1e0f";
     db_now := "2025-06-01T09:05:00.480Z" |}.

(** Another browser on the same backend, as a desk: its own, empty
    localStorage and the tables of [d]. *)
Definition second_desk (d : Desk) (event : string) : Desk :=
  {| world := second_browser (world d) event;
     ls_attendance_records := None;
     db_attendance_records := db_attendance_records d;
     ls_events_list := None;
     ls_regions := None |}.

(** A desk with empty attendance stores around a world. *)
Definition desk_of (w : World) : Desk :=
  {| world := w; ls_attendance_records := None; db_attendance_records := [];
     ls_events_list := None; ls_regions := None |}.

Local Close Scope desk_scope.
(** * Proofs *)

(** ** Basic facts *)

Arguments JS.inherited : simpl never.

Lemma truthy_true (s : string) : JS.truthy s = true <-> s <> "".
Proof.
  unfold JS.truthy. rewrite negb_true_iff. split.
  - intros H ->. discriminate.
  - intros H. apply String.eqb_neq. exact H.
Qed.

Lemma drop_trace0 (tr : list Event) : drop (List.length tr) tr = [].
Proof. apply drop_all. Qed.

Lemma drop_trace1 (tr : list Event) (a : Event) :
  drop (List.length tr) (tr ++ [a]) = [a].
Proof. apply drop_app_length. Qed.

Lemma drop_trace2 (tr : list Event) (a b : Event) :
  drop (List.length tr) ((tr ++ [a]) ++ [b]) = [a; b].
Proof. rewrite <- app_assoc. apply drop_app_length. Qed.

Lemma events_since_app (w w' : World) (evs : list Event) :
  trace w' = trace w ++ evs -> events_since w w' = evs.
Proof.
  unfold events_since. intros ->. apply drop_app_length.
Qed.

Lemma bind_returned {A B} (c : M A) (k : A -> M B) (w w' : World) (a : A) :
  c w = (Returned a, w') -> bind c k w = k a w'.
Proof. unfold bind. intros ->. reflexivity. Qed.

Lemma can_write_read (w : World) : can_write w = true -> can_read w = true.
Proof. unfold can_write, can_read. now destruct (storage w). Qed.

Lemma storage_ok_available (w : World) :
  storage w = Available -> storage_ok w = true.
Proof.
  unfold storage_ok, can_write. intros ->. apply orb_true_r.
Qed.

Lemma storage_ok_window (w : World) :
  has_window w = true -> storage_ok w = true -> storage w = Available.
Proof.
  unfold storage_ok, can_write. intros ->. now destruct (storage w).
Qed.

Lemma getCurrentEventId_run (w : World) :
  getCurrentEventId w = (Returned (scope_of w), cache_scope w).
Proof.
  destruct w as [win sb cur lsc lsq lst dbq dbm rs tr []].
  all: unfold scope_of, cache_scope, can_read; unfold_js; unfold can_read.
  all: split_cases; reflexivity.
Qed.

Lemma scope_of_cache_scope (w : World) : scope_of (cache_scope w) = scope_of w.
Proof.
  destruct w as [win sb cur lsc lsq lst dbq dbm rs tr sto].
  unfold scope_of, cache_scope, can_read; simpl.
  destruct (JS.truthy_opt cur) eqn:Hc; simpl; [now rewrite Hc|].
  destruct win; simpl; [|now rewrite Hc].
  destruct sto; simpl; rewrite ?Hc; try reflexivity.
  all: destruct (JS.truthy_opt lsc) eqn:Hl; simpl; rewrite ?Hc, ?Hl;
    reflexivity.
Qed.

Example includes_timeout :
  JS.includes "upstream request timeout" "timeout" = true
  /\ JS.includes "time out" "timeout" = false
  /\ JS.includes "Connection refused" "connection" = false.
Proof. repeat split. Qed.

Example isRetryable_samples :
  isRetryable request_timeout = true
  /\ isRetryable undefined_table = true
  /\ isRetryable permission_denied = false
  /\ isRetryable {| err_code := Some "23505";
                    err_message := Some "duplicate key value" |} = false
  /\ isRetryable {| err_code := None; err_message := None |} = false.
Proof. repeat split. Qed.

Example backoff_delays :
  backoff_delay 1 = 100%Z /\ backoff_delay 2 = 200%Z /\ backoff_delay 3 = 400%Z.
Proof. repeat split. Qed.

(** ** The resolution chain *)

Lemma getMemberIdFromQRCode_run (w : World) (token : string) :
  getMemberIdFromQRCode token w = (resolved w token, after_resolve w token).
Proof.
  destruct w as [win sb cur lsc lsq lst dbq dbm rs tr sto].
  unfold resolved, after_resolve, remote_match, remote_rows, request_sent,
    local_value, local_cache, served, scope_of, scope_filter, cache_scope,
    can_read.
  unfold_js. unfold maybeSingle, can_read. simpl.
  split_cases.
  all: try reflexivity.
  all: try (simpl in *; congruence).
Qed.

(** Where the value JavaScript finds under a token is the entry of the
    cache: for every token with an own entry, and for every token that is
    not a member of [Object.prototype]. *)
Lemma local_value_entry (w : World) (token : string) :
  JS.inherited token = false \/ is_Some (local_cache w !! token) ->
  local_value w token = JS.Str <$> local_lookup w token.
Proof.
  unfold local_value, local_lookup, JS.get_prop, JS.or_null.
  destruct (local_cache w !! token) as [v|]; cbn.
  - intros _. now destruct (JS.truthy v).
  - intros [-> | [v Hv]]; [reflexivity | discriminate].
Qed.

(** Where the code's chain is the chain of the specification. *)
Lemma resolved_spec (w : World) (token : string) :
  has_window w = false \/ can_read w = true ->
  JS.inherited token = false \/ is_Some (local_cache w !! token) ->
  resolved w token = Returned (JS.Str <$> Resolve_spec w token).
Proof.
  intros Hr Ht. unfold resolved, Resolve_spec.
  destruct (remote_match w token); [reflexivity|].
  rewrite (local_value_entry w token Ht).
  now destruct Hr as [-> | ->]; rewrite ?andb_false_r.
Qed.

(** The values the lookup returns are truthy. *)
Lemma local_value_truthy (w : World) (token : string) (v : JS.Value) :
  local_value w token = Some v -> JS.truthy_value v = true.
Proof.
  unfold local_value, JS.or_null.
  destruct (JS.get_prop _ _) as [x|]; [|discriminate].
  destruct (JS.truthy_value x) eqn:E; [|discriminate]. now intros [= <-].
Qed.

Lemma after_resolve_events (w : World) (token : string) :
  events_since w (after_resolve w token) = Resolve_accesses w token.
Proof.
  destruct w as [win sb cur lsc lsq lst dbq dbm rs tr sto].
  unfold events_since, after_resolve, Resolve_accesses, request_sent,
    cache_scope, can_read; simpl.
  split_cases; simpl;
    rewrite ?drop_trace2, ?drop_trace1, ?drop_trace0; reflexivity.
Qed.

(** ** The retry loop *)

(** One step of [persistQRMappingToSupabase], by the answer to its upsert. *)
Lemma persist_step (fuel : nat) (q m : string) (ev : option string)
    (attempt : nat) (w : World) :
  persistQRMappingToSupabase_fuel fuel q m ev attempt w
  = if negb (supabase w) then (Returned tt, w)
    else
      let sent := request_sent (EvUpsert (payload_of q m ev)) w in
      match responses w with
      | [] | RespOk :: _ =>
          (Returned tt,
           set_db_qr_mappings
             (upsert_row (payload_of q m ev) (db_qr_mappings w)) sent)
      | RespError error :: _ =>
          if isRetryable error && (attempt <? MAX_ATTEMPTS)%nat then
            let slept :=
              set_trace (trace sent ++ [EvSleep (backoff_delay attempt)]) sent in
            match fuel with
            | S fuel' =>
                persistQRMappingToSupabase_fuel fuel' q m ev (attempt + 1) slept
            | O => (OutOfFuel, slept)
            end
          else (Threw (PersistFailed attempt (err_message error)), sent)
      | RespThrow :: _ => (Threw TransportError, sent)
      end.
Proof.
  destruct w as [win sb cur lsc lsq lst dbq dbm rs tr].
  unfold request_sent, payload_of.
  destruct fuel; simpl; unfold_js; simpl.
  - destruct sb; simpl; [|reflexivity].
    destruct rs as [|[|error|] rs]; simpl; try reflexivity.
    destruct (isRetryable error && (attempt <? MAX_ATTEMPTS)%nat);
      reflexivity.
  - destruct sb; simpl; [|reflexivity].
    destruct rs as [|[|error|] rs]; simpl; try reflexivity.
    destruct (isRetryable error && (attempt <? MAX_ATTEMPTS)%nat);
      simpl; [|reflexivity].
    match goal with
    | |- context [persistQRMappingToSupabase_fuel ?f ?a ?b ?c ?d ?x] =>
        destruct (persistQRMappingToSupabase_fuel f a b c d x) as [[ | | ] ?]
    end; reflexivity.
Qed.

Lemma persist_frame_refl q m ev w : persist_frame q m ev w w.
Proof.
  split; try reflexivity.
  - exists 0%nat. reflexivity.
  - exists []. split; [now rewrite app_nil_r | constructor].
Qed.

Lemma persist_frame_trans q m ev w1 w2 w3 :
  persist_frame q m ev w1 w2 -> persist_frame q m ev w2 w3 ->
  persist_frame q m ev w1 w3.
Proof.
  intros [a1 a2 a3 a4 a5 a6 a7 [n1 a8] [e1 [a9 a10]]]
         [b1 b2 b3 b4 b5 b6 b7 [n2 b8] [e2 [b9 b10]]].
  split; try congruence.
  - exists (n1 + n2)%nat. rewrite b8, a8. apply drop_drop.
  - exists (e1 ++ e2). split.
    + rewrite b9, a9. now rewrite app_assoc.
    + apply Forall_app; split; assumption.
Qed.

Lemma persist_frame_sent q m ev w :
  persist_frame q m ev w (request_sent (EvUpsert (payload_of q m ev)) w).
Proof.
  destruct w as [win sb cur lsc lsq lst dbq dbm rs tr].
  unfold request_sent; split; simpl; try reflexivity.
  - exists 1%nat. destruct rs; reflexivity.
  - eexists. split; [reflexivity|]. repeat constructor.
Qed.

Lemma persist_frame_slept q m ev ms w :
  persist_frame q m ev w (set_trace (trace w ++ [EvSleep ms]) w).
Proof.
  destruct w as [win sb cur lsc lsq lst dbq dbm rs tr].
  split; simpl; try reflexivity.
  - exists 0%nat. reflexivity.
  - eexists. split; [reflexivity|]. constructor; [|constructor].
    right. now exists ms.
Qed.

Lemma persist_frame_db q m ev t w :
  persist_frame q m ev w (set_db_qr_mappings t w).
Proof.
  destruct w as [win sb cur lsc lsq lst dbq dbm rs tr].
  split; simpl; try reflexivity.
  - exists 0%nat. reflexivity.
  - exists []. split; [now rewrite app_nil_r | constructor].
Qed.

(** The outcome of the retry loop is definite and tells what happened to
    the table: a normal return means the row was upserted (or there is no
    client), a throw means the table is as it was. With fuel for the
    remaining attempts the loop never runs out. *)
Lemma persist_fuel_outcome (fuel : nat) (q m : string) (ev : option string) :
  forall (attempt : nat) (w : World),
    let r := persistQRMappingToSupabase_fuel fuel q m ev attempt w in
    persist_frame q m ev w (snd r)
    /\ match fst r with
       | Returned _ =>
           if supabase w
           then db_qr_mappings (snd r)
                = upsert_row (payload_of q m ev) (db_qr_mappings w)
           else db_qr_mappings (snd r) = db_qr_mappings w
       | Threw _ => db_qr_mappings (snd r) = db_qr_mappings w
       | OutOfFuel => (attempt + fuel < MAX_ATTEMPTS)%nat
       end.
Proof.
  induction fuel as [|fuel IH]; intros attempt w r; subst r;
    rewrite persist_step;
    pose proof (persist_frame_sent q m ev w) as Hs;
    (destruct (supabase w) eqn:Hsb; simpl;
     [|split; [apply persist_frame_refl | reflexivity]]);
    (destruct (responses w) as [|[|error|] rs]; simpl;
     [split; [eapply persist_frame_trans; [exact Hs | apply persist_frame_db]
             | destruct w; reflexivity] ..
     | | split; [exact Hs | destruct w; reflexivity]]);
    (destruct (isRetryable error) eqn:Hr; simpl;
     [|split; [exact Hs | destruct w; reflexivity]]);
    (destruct (Nat.ltb_spec attempt MAX_ATTEMPTS); simpl;
     [|split; [exact Hs | destruct w; reflexivity]]).
  - split; [|lia].
    eapply persist_frame_trans; [exact Hs | apply persist_frame_slept].
  - specialize (IH (attempt + 1)%nat
      (set_trace
         (trace (request_sent (EvUpsert (payload_of q m ev)) w)
          ++ [EvSleep (backoff_delay attempt)])
         (request_sent (EvUpsert (payload_of q m ev)) w))).
    destruct IH as [IHf IHo]. split.
    + eapply persist_frame_trans; [exact Hs|].
      eapply persist_frame_trans; [apply persist_frame_slept | exact IHf].
    + destruct (fst (persistQRMappingToSupabase_fuel _ _ _ _ _ _));
        cbn in IHo; rewrite ?Hsb in IHo; first [exact IHo | lia].
Qed.

(** With the fuel [persistQRMappingToSupabase] gives it, the loop ends. *)
Lemma persist_terminates (q m : string) (ev : option string) (attempt : nat)
    (w : World) :
  fst (persistQRMappingToSupabase q m ev attempt w) <> OutOfFuel.
Proof.
  unfold persistQRMappingToSupabase.
  pose proof (persist_fuel_outcome MAX_ATTEMPTS q m ev attempt w) as [_ H].
  intros E. rewrite E in H. lia.
Qed.

(** ** Saving a mapping *)

Lemma bind_assoc {A B C} (c : M A) (k : A -> M B) (k' : B -> M C)
    (w : World) :
  bind c (fun a => bind (k a) k') w = bind (bind c k) k' w.
Proof. unfold bind. destruct (c w) as [[a|e|] w']; reflexivity. Qed.

(** The local read and write of [saveQRCodeMapping]. *)
Lemma saveQRCodeMapping_local (q m : string) (w : World) :
  bind getFromLocalStorage_qr
    (fun mappings => saveToLocalStorage_qr (JS.set_prop mappings q m)) w
  = (if storage_ok w then Returned tt else Threw StorageError,
     local_written q m w).
Proof.
  destruct w as [[] sb cur lsc lsq lst dbq dbm rs tr []];
    unfold local_written, local_cache, storage_ok, can_read, can_write;
    unfold_js; reflexivity.
Qed.

Lemma local_written_fields (q m : string) (w : World) :
  has_window (local_written q m w) = has_window w
  /\ supabase (local_written q m w) = supabase w
  /\ currentEventId (local_written q m w) = currentEventId w
  /\ ls_current_event_id (local_written q m w) = ls_current_event_id w
  /\ ls_tajneed_members (local_written q m w) = ls_tajneed_members w
  /\ db_qr_mappings (local_written q m w) = db_qr_mappings w
  /\ db_tajneed_members (local_written q m w) = db_tajneed_members w
  /\ responses (local_written q m w) = responses w
  /\ storage (local_written q m w) = storage w
  /\ local_cache (local_written q m w)
     = (if has_window w && can_write w
        then JS.set_prop (local_cache w) q m
        else local_cache w)
  /\ (has_window w = true -> can_write w = true ->
      trace (local_written q m w)
      = trace w ++ [EvLocalGet LOCAL_QR_CODE_MAPPING_KEY;
                    EvLocalSet LOCAL_QR_CODE_MAPPING_KEY])
  /\ (storage_ok w = false ->
      ls_qr_code_member_mapping (local_written q m w)
      = ls_qr_code_member_mapping w).
Proof.
  destruct w as [[] sb cur lsc lsq lst dbq dbm rs tr []].
  all: unfold local_written, local_cache, storage_ok, can_read, can_write;
    simpl; repeat split; try discriminate.
  intros _ _. now rewrite <- app_assoc.
Qed.

Lemma saveQRCodeMapping_step (q m : string) (w : World) :
  saveQRCodeMapping q m w
  = if storage_ok w then
      if supabase w then
        let r := persistQRMappingToSupabase q m (Some (scope_of w)) 1
                   (cache_scope (local_written q m w)) in
        (match fst r with
         | OutOfFuel => OutOfFuel
         | _ => Returned tt
         end, snd r)
      else (Returned tt, local_written q m w)
    else (Threw StorageError, local_written q m w).
Proof.
  pose proof (local_written_fields q m w)
    as (l1 & l2 & l3 & l4 & _).
  replace (scope_of w) with (scope_of (local_written q m w)).
  2: { unfold scope_of, can_read.
       destruct (local_written_fields q m w)
         as (-> & _ & -> & -> & _ & _ & _ & _ & -> & _). reflexivity. }
  unfold saveQRCodeMapping.
  rewrite bind_assoc. unfold bind at 1.
  rewrite saveQRCodeMapping_local.
  destruct (storage_ok w); [|reflexivity].
  unfold bind at 1, gets at 1. rewrite l2.
  destruct (supabase w); [|reflexivity].
  unfold try_catch, bind. rewrite getCurrentEventId_run.
  destruct (persistQRMappingToSupabase _ _ _ _ _) as [[[]|e|] w1];
    reflexivity.
Qed.

(** ** Claims on the retrying writer *)

(** [saveQRCodeMapping] returns normally unless localStorage refuses its
    read or write. *)
Lemma saveQRCodeMapping_returns (w : World) (q m : string) :
  fst (saveQRCodeMapping q m w)
  = if storage_ok w then Returned tt else Threw StorageError.
Proof.
  rewrite saveQRCodeMapping_step.
  destruct (storage_ok w); [|reflexivity].
  destruct (supabase w); [|reflexivity]. simpl.
  pose proof (persist_terminates q m (Some (scope_of w)) 1
                (cache_scope (local_written q m w))) as T.
  destruct (fst (persistQRMappingToSupabase _ _ _ _ _)) as [[]| |];
    [reflexivity | reflexivity | contradiction].
Qed.

Arguments persistQRMappingToSupabase_fuel : simpl never.

Lemma persist_fuel_given (q m : string) (ev : option string) (attempt : nat)
    (w : World) :
  persistQRMappingToSupabase q m ev attempt w
  = persistQRMappingToSupabase_fuel 3 q m ev attempt w.
Proof. reflexivity. Qed.

Lemma persist_without_client (q m : string) (ev : option string)
    (w : World) :
  supabase w = false ->
  persistQRMappingToSupabase q m ev 1 w = (Returned tt, w).
Proof.
  intros Hsb. rewrite persist_fuel_given, persist_step, Hsb. reflexivity.
Qed.

(** Every script of answers is a run of at most two retryable errors
    followed by the answer that ends the retry loop. *)
Lemma script_classified (rs : list Response) :
  exists errs rest,
    rs = List.map RespError errs ++ rest
    /\ (List.length errs <= 2)%nat
    /\ Forall (fun e => isRetryable e = true) errs
    /\ match rest with
       | RespError e :: _ =>
           isRetryable e = false \/ List.length errs = 2%nat
       | _ => True
       end.
Proof.
  destruct rs as [|[|e1|] rs].
  - exists [], []. cbn. repeat split; auto.
  - exists [], (RespOk :: rs). cbn. repeat split; auto.
  - destruct (isRetryable e1) eqn:E1.
    2: { exists [], (RespError e1 :: rs). cbn. repeat split; auto. }
    destruct rs as [|[|e2|] rs].
    + exists [e1], []. cbn. repeat split; auto.
    + exists [e1], (RespOk :: rs). cbn. repeat split; auto.
    + destruct (isRetryable e2) eqn:E2.
      2: { exists [e1], (RespError e2 :: rs). cbn. repeat split; auto. }
      exists [e1; e2], rs. cbn. repeat split; auto.
      destruct rs as [|[| |] ?]; auto.
    + exists [e1], (RespThrow :: rs). cbn. repeat split; auto.
  - exists [], (RespThrow :: rs). cbn. repeat split; auto.
Qed.

(** The outcome of the retry loop, by the answer that ends it: after
    [errs] retryable errors the loop sends one more upsert; served, the row
    is in the table and the call returns; thrown, or answered with an
    error that is not retryable or is the third one, the call throws and
    the table is as it was. *)
Lemma persist_classified (w : World) (q m : string) (ev : option string)
    (errs : list PostgrestError) (rest : list Response) :
  supabase w = true ->
  (List.length errs <= 2)%nat ->
  Forall (fun e => isRetryable e = true) errs ->
  responses w = List.map RespError errs ++ rest ->
  let r := persistQRMappingToSupabase q m ev 1 w in
  match rest with
  | [] | RespOk :: _ =>
      fst r = Returned tt
      /\ db_qr_mappings (snd r)
         = upsert_row (payload_of q m ev) (db_qr_mappings w)
      /\ upserts (events_since w (snd r)) = S (List.length errs)
  | RespThrow :: _ =>
      fst r = Threw TransportError
      /\ db_qr_mappings (snd r) = db_qr_mappings w
      /\ upserts (events_since w (snd r)) = S (List.length errs)
  | RespError e :: _ =>
      isRetryable e = false \/ List.length errs = 2%nat ->
      fst r = Threw (PersistFailed (S (List.length errs)) (err_message e))
      /\ db_qr_mappings (snd r) = db_qr_mappings w
      /\ upserts (events_since w (snd r)) = S (List.length errs)
  end.
Proof.
  intros Hsb Hlen Herr Hrs r. subst r.
  destruct w as [win sb cur lsc lsq lst dbq dbm rs tr sto].
  simpl in Hsb, Hrs. subst sb rs.
  rewrite persist_fuel_given.
  destruct errs as [|e1 [|e2 [|e3 errs]]]; [| | |simpl in Hlen; lia].
  - rewrite persist_step.
    destruct rest as [|[|e|] rest]; cbn.
    1, 2, 4: unfold events_since; cbn; rewrite !drop_app_length;
      repeat split; reflexivity.
    intros [E|E]; [|discriminate]. rewrite E. cbn.
    unfold events_since; cbn; rewrite !drop_app_length.
    repeat split; reflexivity.
  - apply Forall_cons in Herr as [H1 _].
    rewrite persist_step. cbn. rewrite H1. cbn.
    rewrite persist_step.
    destruct rest as [|[|e|] rest]; cbn.
    1, 2, 4: unfold events_since; cbn; rewrite <- !app_assoc; cbn;
      rewrite !drop_app_length; repeat split; reflexivity.
    intros [E|E]; [|discriminate]. rewrite E. cbn.
    unfold events_since; cbn; rewrite <- !app_assoc; cbn;
      rewrite !drop_app_length.
    repeat split; reflexivity.
  - apply Forall_cons in Herr as [H1 Herr].
    apply Forall_cons in Herr as [H2 _].
    rewrite persist_step. cbn. rewrite H1. cbn.
    rewrite persist_step. cbn. rewrite H2. cbn.
    rewrite persist_step.
    destruct rest as [|[|e|] rest]; cbn.
    1, 2, 4: unfold events_since; cbn; rewrite <- !app_assoc; cbn;
      rewrite !drop_app_length; repeat split; reflexivity.
    intros _. rewrite andb_false_r.
    unfold events_since; cbn; rewrite <- !app_assoc; cbn;
      rewrite !drop_app_length.
    repeat split; reflexivity.
Qed.


(** C3, as the code runs: when the first three upserts are answered with
    retryable errors, [persistQRMappingToSupabase] sends exactly three
    upserts, pausing 100 ms after the first and 200 ms after the second,
    and throws right after the third. There are two pauses, 300 ms in
    all; no pause of 400 ms is ever taken. *)
Theorem persist_retry_exhaustion (w : World) (q m : string)
    (ev : option string) (e1 e2 e3 : PostgrestError) (rest : list Response) :
  supabase w = true ->
  responses w = RespError e1 :: RespError e2 :: RespError e3 :: rest ->
  isRetryable e1 = true -> isRetryable e2 = true -> isRetryable e3 = true ->
  let r := persistQRMappingToSupabase q m ev 1 w in
  let p := EvUpsert (payload_of q m ev) in
  fst r = Threw (PersistFailed 3 (err_message e3))
  /\ events_since w (snd r) = [p; EvSleep 100; p; EvSleep 200; p]
  /\ upserts (events_since w (snd r)) = 3%nat
  /\ sleeps (events_since w (snd r)) = [100%Z; 200%Z]
  /\ db_qr_mappings (snd r) = db_qr_mappings w
  /\ responses (snd r) = rest.
Proof.
  intros Hsb Hrs H1 H2 H3 r p.
  destruct w as [win sb cur lsc lsq lst dbq dbm rs tr].
  simpl in Hsb, Hrs. subst sb rs. subst r p.
  rewrite persist_fuel_given.
  rewrite persist_step. cbn. rewrite H1. cbn.
  rewrite persist_step. cbn. rewrite H2. cbn.
  rewrite persist_step. cbn. rewrite H3. cbn.
  change (backoff_delay 1) with 100%Z. change (backoff_delay (1 + 1)) with 200%Z.
  unfold events_since. cbn. rewrite <- !app_assoc. cbn.
  rewrite !drop_app_length.
  repeat split; reflexivity.
Qed.

(** A run of C3 on a backend that times out three times. *)
Lemma persist_retry_exhaustion_witness :
  fst (persistQRMappingToSupabase "SURPLUS-001" "m-42" (Some "evt-1") 1
         (device [RespError request_timeout; RespError request_timeout;
                  RespError request_timeout]))
  = Threw (PersistFailed 3 (Some "upstream request timeout"))
  /\ sleeps (events_since
               (device [RespError request_timeout; RespError request_timeout;
                        RespError request_timeout])
               (snd (persistQRMappingToSupabase "SURPLUS-001" "m-42"
                       (Some "evt-1") 1
                       (device [RespError request_timeout;
                                RespError request_timeout;
                                RespError request_timeout]))))
     = [100%Z; 200%Z].
Proof.
  pose proof (persist_retry_exhaustion
                (device [RespError request_timeout; RespError request_timeout;
                         RespError request_timeout])
                "SURPLUS-001" "m-42" (Some "evt-1")
                request_timeout request_timeout request_timeout []
                eq_refl eq_refl eq_refl eq_refl eq_refl) as H.
  split; [exact (proj1 H) | exact (proj1 (proj2 (proj2 (proj2 H))))].
Defined.

(** With a client, every run of the loop starts by sending the upsert. *)
Lemma persist_sends_first (fuel : nat) (q m : string) (ev : option string)
    (attempt : nat) (w : World) :
  supabase w = true ->
  exists evs,
    trace (snd (persistQRMappingToSupabase_fuel fuel q m ev attempt w))
    = trace w ++ EvUpsert (payload_of q m ev) :: evs.
Proof.
  intros Hsb.
  assert (Hsent : trace (request_sent (EvUpsert (payload_of q m ev)) w)
                  = trace w ++ [EvUpsert (payload_of q m ev)])
    by (destruct w; reflexivity).
  rewrite persist_step, Hsb. cbv beta iota zeta delta [negb].
  destruct (responses w) as [|[|error|] rs].
  1-2, 4: (exists []; destruct w; reflexivity).
  destruct (isRetryable error && (attempt <? MAX_ATTEMPTS)%nat).
  2: (exists []; destruct w; reflexivity).
  destruct fuel as [|fuel].
  - eexists. cbn. rewrite <- app_assoc. reflexivity.
  - match goal with
    | |- context [persistQRMappingToSupabase_fuel fuel q m ev ?a ?x] =>
        pose proof (persist_fuel_outcome fuel q m ev a x)
          as [[_ _ _ _ _ _ _ _ [evs [Ht _]]] _]
    end.
    eexists. rewrite Ht. cbn. rewrite <- !app_assoc. reflexivity.
Qed.

(** C4, as the code has it: an error answer is retried exactly when
    [isRetryable] holds of it (code PGRST301 or 42P01, or a message that
    contains connection, timeout or temporarily unavailable) and fewer
    than three attempts were made: the loop then pauses and sends the
    upsert again. Every other error is thrown on the attempt it occurs,
    after that one request and without a pause. *)
Theorem persist_retries_only_isRetryable (w : World) (q m : string)
    (ev : option string) (attempt : nat) (error : PostgrestError)
    (rest : list Response) :
  (1 <= attempt)%nat ->
  supabase w = true ->
  responses w = RespError error :: rest ->
  let r := persistQRMappingToSupabase q m ev attempt w in
  let p := EvUpsert (payload_of q m ev) in
  if isRetryable error && (attempt <? MAX_ATTEMPTS)%nat
  then exists evs,
         events_since w (snd r)
         = p :: EvSleep (backoff_delay attempt) :: p :: evs
  else fst r = Threw (PersistFailed attempt (err_message error))
       /\ events_since w (snd r) = [p].
Proof.
  intros _ Hsb Hrs r p. subst r p.
  rewrite persist_fuel_given, persist_step, Hsb, Hrs.
  cbv beta iota zeta delta [negb].
  destruct (isRetryable error && (attempt <? MAX_ATTEMPTS)%nat) eqn:E.
  - match goal with
    | |- context [persistQRMappingToSupabase_fuel 2 q m ev ?a ?x] =>
        destruct (persist_sends_first 2 q m ev a x) as [evs Ht];
          [destruct w; exact Hsb|]
    end.
    exists evs. apply events_since_app. rewrite Ht. cbn.
    rewrite <- !app_assoc. reflexivity.
  - split; [reflexivity|].
    apply events_since_app. destruct w; reflexivity.
Qed.

(** An instance of C4: a permission error is thrown on the first attempt. *)
Lemma persist_retries_only_isRetryable_witness :
  fst (persistQRMappingToSupabase "SURPLUS-001" "m-42" (Some "evt-1") 1
         (device [RespError permission_denied]))
  = Threw (PersistFailed 1 (err_message permission_denied))
  /\ events_since (device [RespError permission_denied])
       (snd (persistQRMappingToSupabase "SURPLUS-001" "m-42" (Some "evt-1") 1
               (device [RespError permission_denied])))
     = [EvUpsert (payload_of "SURPLUS-001" "m-42" (Some "evt-1"))].
Proof.
  exact (persist_retries_only_isRetryable
           (device [RespError permission_denied])
           "SURPLUS-001" "m-42" (Some "evt-1") 1 permission_denied []
           (le_n 1) eq_refl eq_refl).
Defined.

(** C4, counterexample: a missing table (SQLSTATE 42P01) is a schema error,
    terminal in the specification's taxonomy, yet the writer retries it:
    three upserts and two pauses before the error is thrown. *)
Lemma undefined_table_is_retried :
  spec_terminal undefined_table = true
  /\ isRetryable undefined_table = true
  /\ upserts (events_since
                (device [RespError undefined_table; RespError undefined_table;
                         RespError undefined_table])
                (snd (persistQRMappingToSupabase "SURPLUS-001" "m-42"
                        (Some "evt-1") 1
                        (device [RespError undefined_table;
                                 RespError undefined_table;
                                 RespError undefined_table])))) = 3%nat
  /\ fst (persistQRMappingToSupabase "SURPLUS-001" "m-42" (Some "evt-1") 1
            (device [RespError undefined_table; RespError undefined_table;
                     RespError undefined_table]))
     = Threw (PersistFailed 3 (err_message undefined_table)).
Proof. vm_compute. repeat split; reflexivity. Qed.

(** ** The table under upsert *)

Lemma upsert_row_In (r : QrRow) (t : list QrRow) : In r (upsert_row r t).
Proof.
  induction t as [|x t IH]; simpl; [now left|].
  destruct (String.eqb (qr_code_id x) (qr_code_id r)); simpl; auto.
Qed.

Lemma upsert_row_keys (r : QrRow) (t : list QrRow) :
  List.map qr_code_id (upsert_row r t)
  = if existsb (String.eqb (qr_code_id r)) (List.map qr_code_id t)
    then List.map qr_code_id t
    else List.map qr_code_id t ++ [qr_code_id r].
Proof.
  induction t as [|x t IH]; simpl; [reflexivity|].
  rewrite (String.eqb_sym (qr_code_id r) (qr_code_id x)).
  destruct (String.eqb_spec (qr_code_id x) (qr_code_id r)) as [E|N]; simpl.
  - now rewrite E.
  - rewrite IH. now destruct (existsb _ _).
Qed.

Lemma upsert_row_primary_key (r : QrRow) (t : list QrRow) :
  qr_primary_key t -> qr_primary_key (upsert_row r t).
Proof.
  unfold qr_primary_key. intros H. rewrite upsert_row_keys.
  destruct (existsb _ _) eqn:E; [exact H|].
  apply NoDup_app. split; [exact H|]. split.
  - intros k Hk Hin. apply list_elem_of_In in Hk.
    apply list_elem_of_In in Hin. destruct Hin as [Hin|[]]. subst k.
    assert (existsb (String.eqb (qr_code_id r)) (List.map qr_code_id t) = true)
      as E'.
    { apply existsb_exists. exists (qr_code_id r). split; [exact Hk|].
      apply String.eqb_refl. }
    congruence.
  - apply NoDup_singleton.
Qed.

Lemma filter_none {A} (f : A -> bool) (l : list A) :
  (forall y, In y l -> f y = false) -> List.filter f l = [].
Proof.
  induction l as [|x l IH]; simpl; intros H; [reflexivity|].
  rewrite (H x) by now left. apply IH. intros y Hy. apply H. now right.
Qed.

(** Under the primary key, the upserted row is the only row of its key. *)
Lemma upsert_row_single (r : QrRow) (t : list QrRow) :
  qr_primary_key t ->
  List.filter (fun x => String.eqb (qr_code_id x) (qr_code_id r))
    (upsert_row r t) = [r].
Proof.
  unfold qr_primary_key.
  induction t as [|x t IH]; simpl; intros H.
  - now rewrite String.eqb_refl.
  - apply NoDup_cons in H as [Hx Ht].
    destruct (String.eqb_spec (qr_code_id x) (qr_code_id r)) as [E|N]; simpl.
    + rewrite String.eqb_refl. f_equal.
      apply filter_none.
      intros y Hy. apply String.eqb_neq. intros Ey.
      apply Hx. rewrite E, <- Ey. apply list_elem_of_In.
      now apply in_map.
    + apply String.eqb_neq in N. rewrite N. now apply IH.
Qed.

Lemma filter_andb {A} (f g : A -> bool) (l : list A) :
  List.filter (fun x => f x && g x) l = List.filter g (List.filter f l).
Proof.
  induction l as [|x l IH]; simpl; [reflexivity|].
  destruct (f x); simpl; [|exact IH].
  destruct (g x); now rewrite IH.
Qed.

(** The rows for a token under a scope filter, among the rows of that key. *)
Lemma remote_rows_by_key (w : World) (token : string) :
  remote_rows w token
  = List.filter
      (fun r => match scope_filter (scope_of w) with
                | None => true
                | Some e => match event_id r with
                            | Some e' => String.eqb e' e
                            | None => false
                            end
                end)
      (List.filter (fun r => String.eqb (qr_code_id r) token)
         (db_qr_mappings w)).
Proof. unfold remote_rows, qr_row_matches. apply filter_andb. Qed.


(** ** The world after a save *)

Lemma saveQRCodeMapping_run (q m : string) (w : World) :
  storage_ok w = true ->
  saveQRCodeMapping q m w = (Returned tt, snd (saveQRCodeMapping q m w)).
Proof.
  intros Hok. pose proof (saveQRCodeMapping_returns w q m) as H.
  rewrite Hok in H.
  destruct (saveQRCodeMapping q m w) as [o w']. simpl in *. now subst o.
Qed.

Lemma scope_of_eq (w w' : World) :
  has_window w' = has_window w ->
  currentEventId w' = currentEventId w ->
  ls_current_event_id w' = ls_current_event_id w ->
  storage w' = storage w ->
  scope_of w' = scope_of w.
Proof. unfold scope_of, can_read. now intros -> -> -> ->. Qed.

Lemma local_cache_eq (w w' : World) :
  has_window w' = has_window w ->
  ls_qr_code_member_mapping w' = ls_qr_code_member_mapping w ->
  local_cache w' = local_cache w.
Proof. unfold local_cache. now intros -> ->. Qed.

Lemma storage_ok_eq (w w' : World) :
  has_window w' = has_window w ->
  storage w' = storage w ->
  storage_ok w' = storage_ok w.
Proof. unfold storage_ok, can_write. now intros -> ->. Qed.

Lemma cache_scope_fields (w : World) :
  has_window (cache_scope w) = has_window w
  /\ supabase (cache_scope w) = supabase w
  /\ ls_current_event_id (cache_scope w) = ls_current_event_id w
  /\ ls_qr_code_member_mapping (cache_scope w) = ls_qr_code_member_mapping w
  /\ ls_tajneed_members (cache_scope w) = ls_tajneed_members w
  /\ db_qr_mappings (cache_scope w) = db_qr_mappings w
  /\ db_tajneed_members (cache_scope w) = db_tajneed_members w
  /\ responses (cache_scope w) = responses w
  /\ trace (cache_scope w) = trace w
  /\ storage (cache_scope w) = storage w.
Proof.
  destruct w as [win sb cur lsc lsq lst dbq dbm rs tr sto].
  unfold cache_scope; simpl.
  destruct (JS.truthy_opt cur); simpl; [repeat split|].
  destruct (win && _ && JS.truthy_opt lsc); simpl; repeat split.
Qed.

Lemma saveQRCodeMapping_post (q m : string) (w : World) :
  save_post q m w (snd (saveQRCodeMapping q m w)).
Proof.
  rewrite saveQRCodeMapping_step.
  pose proof (local_written_fields q m w)
    as (l1 & l2 & l3 & l4 & l5 & l6 & l7 & l8 & l9 & l10 & l11 & l12).
  set (wl := local_written q m w) in *.
  pose proof (cache_scope_fields wl)
    as (c1 & c2 & c3 & c4 & c5 & c6 & c7 & c8 & c9 & c10).
  pose proof (scope_of_cache_scope wl) as c0.
  assert (Hscope : scope_of wl = scope_of w)
    by (apply scope_of_eq; assumption).
  destruct (storage_ok w) eqn:Hok.
  2: { cbn [snd]. split; try congruence.
       - now left.
       - exists 0%nat. now rewrite l8.
       - intros Hw Hc. unfold storage_ok in Hok.
         rewrite Hw, Hc in Hok. discriminate. }
  destruct (supabase w) eqn:Esb; cbv zeta.
  - set (w0 := cache_scope wl) in *.
    pose proof (persist_fuel_outcome MAX_ATTEMPTS q m (Some (scope_of w)) 1 w0)
      as [F O].
    fold (persistQRMappingToSupabase q m (Some (scope_of w)) 1) in F, O.
    cbv zeta in F, O.
    set (r := persistQRMappingToSupabase q m (Some (scope_of w)) 1 w0) in *.
    destruct F as [f1 f2 f3 f4 f5 f6 f7 [n f8] [evs [f9 f10]] f11].
    cbn [snd].
    split; try congruence.
    + transitivity (scope_of w0); [apply scope_of_eq; assumption | congruence].
    + rewrite <- l10. apply local_cache_eq; congruence.
    + rewrite c2, l2 in O. rewrite c6, l6 in O.
      revert O. destruct (fst r); intros O;
        [right; split; [exact Esb | split; [exact Hok | exact O]]
        | now left |].
      unfold MAX_ATTEMPTS in O. lia.
    + exists n. now rewrite f8, c8, l8.
    + intros Hw Hc. exists evs. split; [|exact f10].
      rewrite f9, c9, (l11 Hw Hc). now rewrite <- app_assoc.
  - cbn [snd]. split; try congruence.
    + left. congruence.
    + exists 0%nat. now rewrite l8.
    + intros Hw Hc. exists []. split; [exact (l11 Hw Hc)|].
      constructor.
Qed.

(** When the backend serves the upsert at once, the row is in the table. *)
Lemma saveQRCodeMapping_served (q m : string) (w : World) :
  storage_ok w = true -> supabase w = true -> served w = true ->
  db_qr_mappings (snd (saveQRCodeMapping q m w))
  = upsert_row (payload_of q m (Some (scope_of w))) (db_qr_mappings w)
  /\ responses (snd (saveQRCodeMapping q m w)) = tail (responses w).
Proof.
  intros Hok Hsb Hsv. rewrite saveQRCodeMapping_step, Hok, Hsb.
  cbv zeta. cbn [snd].
  pose proof (local_written_fields q m w)
    as (l1 & l2 & l3 & l4 & l5 & l6 & l7 & l8 & l9).
  set (wl := local_written q m w) in *.
  pose proof (cache_scope_fields wl) as (c1 & c2 & c3 & c4 & c5 & c6 & c7 & c8 & c9).
  set (w0 := cache_scope wl) in *.
  rewrite persist_fuel_given, persist_step.
  rewrite c2, l2, Hsb. cbv beta iota zeta delta [negb].
  unfold served in Hsv. rewrite c8, l8.
  destruct (responses w) as [|[|e|] rs] eqn:Ers; try discriminate; cbn [snd].
  - split.
    + transitivity (upsert_row (payload_of q m (Some (scope_of w)))
                      (db_qr_mappings w0)); [|congruence].
      destruct w0; reflexivity.
    + transitivity (tail (responses w0)); [destruct w0; reflexivity|].
      rewrite c8, l8. reflexivity.
  - split.
    + transitivity (upsert_row (payload_of q m (Some (scope_of w)))
                      (db_qr_mappings w0)); [|congruence].
      destruct w0; reflexivity.
    + transitivity (tail (responses w0)); [destruct w0; reflexivity|].
      rewrite c8, l8. reflexivity.
Qed.

(** What [saveQRCodeMapping] does to the table and tells its caller, by
    the answer that ends the retry loop. *)
Lemma saveQRCodeMapping_classified (w : World) (q m : string)
    (errs : list PostgrestError) (rest : list Response) :
  storage_ok w = true ->
  supabase w = true ->
  (List.length errs <= 2)%nat ->
  Forall (fun e => isRetryable e = true) errs ->
  responses w = List.map RespError errs ++ rest ->
  let r := saveQRCodeMapping q m w in
  fst r = Returned tt
  /\ match rest with
     | [] | RespOk :: _ =>
         db_qr_mappings (snd r)
         = upsert_row (payload_of q m (Some (scope_of w))) (db_qr_mappings w)
     | RespThrow :: _ => db_qr_mappings (snd r) = db_qr_mappings w
     | RespError e :: _ =>
         isRetryable e = false \/ List.length errs = 2%nat ->
         db_qr_mappings (snd r) = db_qr_mappings w
     end.
Proof.
  intros Hok Hsb Hlen Herr Hrs r. subst r.
  split; [now rewrite saveQRCodeMapping_returns, Hok|].
  rewrite saveQRCodeMapping_step, Hok, Hsb. cbv zeta. cbn [snd].
  pose proof (local_written_fields q m w)
    as (l1 & l2 & l3 & l4 & l5 & l6 & l7 & l8 & l9).
  set (wl := local_written q m w) in *.
  pose proof (cache_scope_fields wl) as (c1 & c2 & c3 & c4 & c5 & c6 & c7 & c8 & c9).
  set (w0 := cache_scope wl) in *.
  assert (Hsb0 : supabase w0 = true) by congruence.
  assert (Hrs0 : responses w0 = List.map RespError errs ++ rest) by congruence.
  pose proof (persist_classified w0 q m (Some (scope_of w)) errs rest
                Hsb0 Hlen Herr Hrs0) as C.
  cbv zeta in C. rewrite c6, l6 in C.
  destruct rest as [|[|e|] rest]; apply C.
Qed.

(** C2, as the code has it. [persistQRMappingToSupabase] ends with a
    definite outcome, fixed by the backend's answers: without a client it
    returns at once; with one, after at most two retryable errors and one
    more upsert, it returns when that upsert is served, the row then being
    in the table, and it throws, the table being as it was, when the
    request is thrown or answered with an error that is not retryable or
    is the third one; every script of answers is one of these cases. But
    [saveQRCodeMapping], the function callers await, returns normally in
    every one of these cases, whether the row is in the table or not; the
    only failure it reports is that of its own local write, which throws
    before any request is sent. *)
Theorem saveQRCodeMapping_swallows_remote_failure (w : World) (q m : string) :
  (forall ev, supabase w = false ->
     persistQRMappingToSupabase q m ev 1 w = (Returned tt, w))
  /\ (forall ev errs rest,
        supabase w = true ->
        (List.length errs <= 2)%nat ->
        Forall (fun e => isRetryable e = true) errs ->
        responses w = List.map RespError errs ++ rest ->
        let r := persistQRMappingToSupabase q m ev 1 w in
        match rest with
        | [] | RespOk :: _ =>
            fst r = Returned tt
            /\ db_qr_mappings (snd r)
               = upsert_row (payload_of q m ev) (db_qr_mappings w)
            /\ upserts (events_since w (snd r)) = S (List.length errs)
        | RespThrow :: _ =>
            fst r = Threw TransportError
            /\ db_qr_mappings (snd r) = db_qr_mappings w
            /\ upserts (events_since w (snd r)) = S (List.length errs)
        | RespError e :: _ =>
            isRetryable e = false \/ List.length errs = 2%nat ->
            fst r = Threw (PersistFailed (S (List.length errs))
                             (err_message e))
            /\ db_qr_mappings (snd r) = db_qr_mappings w
            /\ upserts (events_since w (snd r)) = S (List.length errs)
        end)
  /\ (exists errs rest,
        responses w = List.map RespError errs ++ rest
        /\ (List.length errs <= 2)%nat
        /\ Forall (fun e => isRetryable e = true) errs
        /\ match rest with
           | RespError e :: _ =>
               isRetryable e = false \/ List.length errs = 2%nat
           | _ => True
           end)
  /\ fst (saveQRCodeMapping q m w)
     = (if storage_ok w then Returned tt else Threw StorageError)
  /\ (storage_ok w = false ->
      db_qr_mappings (snd (saveQRCodeMapping q m w)) = db_qr_mappings w
      /\ upserts (events_since w (snd (saveQRCodeMapping q m w))) = 0%nat)
  /\ (forall errs rest,
        storage_ok w = true ->
        supabase w = true ->
        (List.length errs <= 2)%nat ->
        Forall (fun e => isRetryable e = true) errs ->
        responses w = List.map RespError errs ++ rest ->
        let r := saveQRCodeMapping q m w in
        fst r = Returned tt
        /\ match rest with
           | [] | RespOk :: _ =>
               db_qr_mappings (snd r)
               = upsert_row (payload_of q m (Some (scope_of w)))
                   (db_qr_mappings w)
           | RespThrow :: _ => db_qr_mappings (snd r) = db_qr_mappings w
           | RespError e :: _ =>
               isRetryable e = false \/ List.length errs = 2%nat ->
               db_qr_mappings (snd r) = db_qr_mappings w
           end).
Proof.
  split; [intros ev; apply persist_without_client|].
  split; [intros ev errs rest; apply persist_classified|].
  split; [apply script_classified|].
  split; [apply saveQRCodeMapping_returns|].
  split; [|intros errs rest; apply saveQRCodeMapping_classified].
  intros Hok. rewrite saveQRCodeMapping_step, Hok. cbn [snd].
  destruct w as [[] sb cur lsc lsq lst dbq dbm rs tr []];
    try discriminate; unfold local_written, events_since, upserts;
    cbn; rewrite <- ?app_assoc, ?drop_app_length; split; reflexivity.
Qed.

(** C2, counterexample: the upsert is refused with a permission error (not
    retryable: one request, table left empty), and [saveQRCodeMapping]
    still returns normally, exactly as it does when the upsert is served. *)
Lemma saveQRCodeMapping_hides_permission_error :
  isRetryable permission_denied = false
  /\ fst (persistQRMappingToSupabase "SURPLUS-001" "m-42" (Some "evt-1") 1
            (device [RespError permission_denied]))
     = Threw (PersistFailed 1 (err_message permission_denied))
  /\ fst (saveQRCodeMapping "SURPLUS-001" "m-42"
            (device [RespError permission_denied])) = Returned tt
  /\ db_qr_mappings (snd (saveQRCodeMapping "SURPLUS-001" "m-42"
                            (device [RespError permission_denied]))) = []
  /\ fst (saveQRCodeMapping "SURPLUS-001" "m-42" (device [])) = Returned tt.
Proof. vm_compute. repeat split; reflexivity. Qed.

(** ** Write then read *)


Lemma set_prop_other (obj : gmap string string) (q m t : string) :
  t <> q -> JS.set_prop obj q m !! t = obj !! t.
Proof.
  unfold JS.set_prop. intros H.
  destruct (JS.assigns obj q); [|reflexivity].
  now apply lookup_insert_ne.
Qed.

Lemma assigns_set_prop (obj : gmap string string) (q m : string) :
  JS.assigns (JS.set_prop obj q m) q = JS.assigns obj q.
Proof.
  unfold JS.set_prop. destruct (JS.assigns obj q) eqn:E; [|exact E].
  unfold JS.assigns. rewrite lookup_insert_eq.
  rewrite bool_decide_eq_true_2 by eauto. apply orb_true_r.
Qed.

(** What the cache object holds under a token after the assignment, as
    JavaScript reads it back. *)
Lemma value_after_set_prop (obj : gmap string string) (q m : string) :
  m <> "" ->
  JS.or_null (JS.get_prop (JS.set_prop obj q m) q)
  = Some (if JS.assigns obj q then JS.Str m else JS.Inherited q).
Proof.
  intros Hm. unfold JS.get_prop, JS.set_prop.
  destruct (JS.assigns obj q) eqn:E.
  - rewrite lookup_insert_eq. cbn. now rewrite (proj2 (truthy_true m) Hm).
  - unfold JS.assigns in E. apply orb_false_elim in E as [E1 E2].
    apply negb_false_iff, String.eqb_eq in E1. subst q.
    apply bool_decide_eq_false in E2.
    destruct (obj !! "__proto__") as [v|] eqn:Ev.
    + exfalso. apply E2. eauto.
    + reflexivity.
Qed.


(** A remote answer can only be the id of a row for the token and scope. *)
Lemma remote_match_row (w : World) (token entity : string) :
  remote_match w token = Some entity ->
  supabase w = true /\ served w = true
  /\ exists row, remote_rows w token = [row] /\ member_id row = entity.
Proof.
  unfold remote_match.
  destruct (supabase w); [|discriminate].
  destruct (served w); [|discriminate]. simpl.
  destruct (remote_rows w token) as [|row [|]]; try discriminate.
  destruct (JS.truthy (member_id row)); [|discriminate].
  intros [= <-]. repeat split. now exists row.
Qed.



(** Without a client, without an answer, or without a matching row, there
    is no remote answer. *)
Lemma remote_match_none (w : World) (q : string) :
  supabase w = false \/ served w = false \/ remote_rows w q = [] ->
  remote_match w q = None.
Proof.
  unfold remote_match. intros [-> | [-> | ->]]; simpl; try reflexivity.
  - now rewrite andb_false_r.
  - now destruct (supabase w && served w).
Qed.









(** ** Writing twice *)

Lemma bind_save {B} (q m : string) (k : unit -> M B) (w : World) :
  storage_ok w = true ->
  bind (saveQRCodeMapping q m) k w = k tt (snd (saveQRCodeMapping q m w)).
Proof. intros Hok. unfold bind. now rewrite saveQRCodeMapping_run. Qed.

Lemma served_nil (w : World) : responses w = [] -> served w = true.
Proof. unfold served. now intros ->. Qed.

(** A save on a backend with an empty script: the row is upserted and the
    script is still empty. *)
Lemma saveQRCodeMapping_healthy (q m : string) (w : World) :
  storage_ok w = true -> supabase w = true -> responses w = [] ->
  db_qr_mappings (snd (saveQRCodeMapping q m w))
  = upsert_row (payload_of q m (Some (scope_of w))) (db_qr_mappings w)
  /\ responses (snd (saveQRCodeMapping q m w)) = [].
Proof.
  intros Hok Hsb Hrs.
  destruct (saveQRCodeMapping_served q m w Hok Hsb (served_nil w Hrs))
    as [H1 H2].
  split; [exact H1|]. now rewrite H2, Hrs.
Qed.

Lemma saveQRCodeMapping_script_nil (q m : string) (w : World) :
  responses w = [] -> responses (snd (saveQRCodeMapping q m w)) = [].
Proof.
  intros Hrs.
  destruct (sp_responses _ _ _ _ (saveQRCodeMapping_post q m w)) as [n Hn].
  rewrite Hn, Hrs. now destruct n.
Qed.

Lemma next_served_step (n : nat) (w w' : World) :
  next_served (S n) w = true ->
  responses w' = tail (responses w) ->
  served w = true /\ next_served n w' = true.
Proof.
  unfold next_served, served. intros H ->.
  destruct (responses w) as [|[| |] rs]; cbn in *;
    try discriminate; auto.
  now destruct n.
Qed.

Lemma save_post_storage_ok (q m : string) (w w' : World) :
  save_post q m w w' -> storage_ok w' = storage_ok w.
Proof.
  intros P. apply storage_ok_eq; [apply (sp_window _ _ _ _ P)|].
  apply (sp_storage _ _ _ _ P).
Qed.




(** ** Switching events *)

Lemma setCurrentEventId_run (event : string) (w : World) :
  setCurrentEventId event w = (Returned tt, switched event w).
Proof.
  destruct w as [[] sb cur lsc lsq lst dbq dbm rs tr []]; reflexivity.
Qed.

Lemma bind_switch {B} (event : string) (k : unit -> M B) (w : World) :
  bind (setCurrentEventId event) k w = k tt (switched event w).
Proof. unfold bind. now rewrite setCurrentEventId_run. Qed.

Lemma switched_fields (event : string) (w : World) :
  has_window (switched event w) = has_window w
  /\ supabase (switched event w) = supabase w
  /\ local_cache (switched event w) = local_cache w
  /\ db_qr_mappings (switched event w) = db_qr_mappings w
  /\ responses (switched event w) = responses w
  /\ (event <> "" -> scope_of (switched event w) = event)
  /\ storage (switched event w) = storage w.
Proof.
  destruct w as [[] sb cur lsc lsq lst dbq dbm rs tr []];
    unfold switched, scope_of, local_cache; simpl; repeat split;
    intros H; apply truthy_true in H; now rewrite H.
Qed.

(** C1, as the code runs: on a healthy backend and with a working
    localStorage, a token saved for member m1 under event A and then for
    member m2 under event B leaves a single row for the token, the one of
    event B, and (for every token but [__proto__], which the cache object
    does not store) a single local entry, m2. Back under event A the
    table has no row for (A, token), the lookup falls back to the local
    cache and answers m2 (for [__proto__], the prototype it inherits): the
    mapping of event A is lost. *)
Theorem scope_collision (w : World) (token m1 m2 A B : string) :
  has_window w = true ->
  storage w = Available ->
  supabase w = true ->
  responses w = [] ->
  qr_primary_key (db_qr_mappings w) ->
  A <> "" -> B <> "" -> A <> B -> m2 <> "" ->
  let run :=
    (setCurrentEventId A ;; saveQRCodeMapping token m1 ;;
     setCurrentEventId B ;; saveQRCodeMapping token m2 ;;
     setCurrentEventId A ;; getMemberIdFromQRCode token) w in
  fst run
  = Returned (Some (if JS.assigns (local_cache w) token
                    then JS.Str m2 else JS.Inherited token))
  /\ List.filter (fun r => String.eqb (qr_code_id r) token)
       (db_qr_mappings (snd run))
     = [{| qr_code_id := token; member_id := m2; event_id := Some B |}]
  /\ remote_rows (snd run) token = [].
Proof.
  intros Hw Hst Hsb Hrs Hpk HA HB HAB Hm2 run. subst run.
  (* event A selected *)
  pose proof (switched_fields A w) as (a1 & a2 & a3 & a4 & a5 & a6 & a7).
  rewrite bind_switch.
  set (w0 := switched A w) in *.
  assert (Hok0 : storage_ok w0 = true)
    by (apply storage_ok_available; congruence).
  rewrite (bind_save _ _ _ w0 Hok0).
  (* first save *)
  pose proof (saveQRCodeMapping_post token m1 w0) as P1.
  destruct (saveQRCodeMapping_healthy token m1 w0) as [D1 R1];
    [exact Hok0 | congruence | congruence |].
  set (w1 := snd (saveQRCodeMapping token m1 w0)) in *.
  (* event B selected *)
  pose proof (switched_fields B w1) as (b1 & b2 & b3 & b4 & b5 & b6 & b7).
  rewrite bind_switch.
  set (w2 := switched B w1) in *.
  assert (Hw2 : has_window w2 = true)
    by (rewrite b1, (sp_window _ _ _ _ P1); congruence).
  assert (Hsb2 : supabase w2 = true)
    by (rewrite b2, (sp_supabase _ _ _ _ P1); congruence).
  assert (Hst2 : storage w2 = Available)
    by (rewrite b7, (sp_storage _ _ _ _ P1); congruence).
  pose proof (storage_ok_available w2 Hst2) as Hok2.
  rewrite (bind_save _ _ _ w2 Hok2).
  (* second save *)
  pose proof (saveQRCodeMapping_post token m2 w2) as P2.
  destruct (saveQRCodeMapping_healthy token m2 w2) as [D2 R2];
    [exact Hok2 | exact Hsb2 | congruence |].
  assert (L2 : local_value (snd (saveQRCodeMapping token m2 w2)) token
               = Some (if JS.assigns (local_cache w) token
                       then JS.Str m2 else JS.Inherited token)).
  { unfold local_value. rewrite (sp_local _ _ _ _ P2), Hw2.
    unfold can_write at 1. rewrite Hst2. cbn [andb].
    rewrite (value_after_set_prop _ _ _ Hm2), b3.
    rewrite (sp_local _ _ _ _ P1), a1, Hw.
    unfold can_write. rewrite a7, Hst. cbn [andb].
    now rewrite assigns_set_prop, a3. }
  set (w3 := snd (saveQRCodeMapping token m2 w2)) in *.
  (* back to event A *)
  pose proof (switched_fields A w3) as (c1 & c2 & c3 & c4 & c5 & c6 & c7).
  rewrite bind_switch.
  set (w4 := switched A w3) in *.
  rewrite getMemberIdFromQRCode_run. cbn [fst snd].
  (* the table holds one row for the token, of event B *)
  assert (Hrow : payload_of token m2 (Some (scope_of w2))
                 = {| qr_code_id := token; member_id := m2;
                      event_id := Some B |}).
  { rewrite (b6 HB). unfold payload_of; simpl.
    now rewrite (proj2 (truthy_true B) HB). }
  assert (Hkey : List.filter (fun r => String.eqb (qr_code_id r) token)
                   (db_qr_mappings w4)
                 = [{| qr_code_id := token; member_id := m2;
                       event_id := Some B |}]).
  { rewrite c4, D2, Hrow.
    apply (upsert_row_single
             {| qr_code_id := token; member_id := m2; event_id := Some B |}).
    rewrite b4, D1. apply upsert_row_primary_key. congruence. }
  assert (Hrows : remote_rows w4 token = []).
  { rewrite remote_rows_by_key, Hkey, (c6 HA). unfold scope_filter.
    rewrite (proj2 (truthy_true A) HA). cbn.
    now rewrite (proj2 (String.eqb_neq B A)) by congruence. }
  assert (Hevents : db_qr_mappings (after_resolve w4 token) = db_qr_mappings w4).
  { unfold after_resolve.
    destruct (cache_scope_fields w4) as (_ & _ & _ & _ & _ & Hc & _).
    destruct (supabase w4), (remote_match w4 token), (has_window w4);
      try reflexivity; cbn; exact Hc. }
  split; [|split].
  - unfold resolved.
    rewrite (remote_match_none w4 token) by now right; right.
    unfold can_read. rewrite c7, (sp_storage _ _ _ _ P2), Hst2.
    rewrite andb_false_r. f_equal.
    unfold local_value. rewrite c3. exact L2.
  - now rewrite Hevents.
  - transitivity (remote_rows w4 token); [|exact Hrows].
    unfold remote_rows. rewrite Hevents. f_equal. f_equal. f_equal.
    unfold after_resolve.
    pose proof (scope_of_cache_scope w4) as Hs.
    destruct (cache_scope_fields w4) as (k1 & _ & k3 & _).
    assert (Hcur : forall tr rs,
              scope_of (set_responses rs (set_trace tr (cache_scope w4)))
              = scope_of w4).
    { intros tr rs. rewrite <- Hs. now destruct (cache_scope w4). }
    destruct (supabase w4), (remote_match w4 token), (has_window w4);
      try reflexivity; unfold request_sent; cbn;
      try apply Hcur.
    all: rewrite <- Hs; now destruct (cache_scope w4).
Qed.

(** An instance of C1: the token [X] under the events [evt-A] and [evt-B]. *)
Lemma scope_collision_witness :
  fst ((setCurrentEventId "evt-A" ;; saveQRCodeMapping "X" "m1" ;;
        setCurrentEventId "evt-B" ;; saveQRCodeMapping "X" "m2" ;;
        setCurrentEventId "evt-A" ;; getMemberIdFromQRCode "X") (device []))
  = Returned (Some (JS.Str "m2")).
Proof.
  refine (proj1
    (scope_collision (device []) "X" "m1" "m2" "evt-A" "evt-B"
       _ _ _ _ _ _ _ _ _)).
  - reflexivity.
  - reflexivity.
  - reflexivity.
  - reflexivity.
  - constructor.
  - discriminate.
  - discriminate.
  - discriminate.
  - discriminate.
Defined.

(** ** Member lookup *)

Lemma getTajneedMembers_run (w : World) :
  getTajneedMembers w = (Returned (visible_members w), after_members w).
Proof.
  destruct w as [win sb cur lsc lsq lst dbq dbm rs tr sto].
  unfold visible_members, after_members, request_sent, served, scope_of,
    cache_scope, can_read.
  unfold_js. unfold can_read. simpl.
  split_cases.
  all: try reflexivity.
  all: try (simpl in *; congruence).
Qed.

Lemma same_data_refl (w : World) : same_data w w.
Proof. now split. Qed.

Lemma same_data_trans (w1 w2 w3 : World) :
  same_data w1 w2 -> same_data w2 w3 -> same_data w1 w3.
Proof. intros [] []. split; congruence. Qed.

Lemma same_data_cache_scope (w : World) : same_data w (cache_scope w).
Proof.
  destruct (cache_scope_fields w)
    as (c1 & c2 & c3 & c4 & c5 & c6 & c7 & _ & _ & c10).
  split; try assumption. apply scope_of_cache_scope.
Qed.

Lemma same_data_set_trace (tr : list Event) (w : World) :
  same_data w (set_trace tr w).
Proof. destruct w. now split. Qed.

Lemma same_data_request_sent (e : Event) (w : World) :
  same_data w (request_sent e w).
Proof. destruct w. now split. Qed.

Lemma same_data_after_members (w : World) : same_data w (after_members w).
Proof.
  unfold after_members.
  pose proof (same_data_cache_scope w) as C.
  destruct (JS.truthy (scope_of w)); [|exact C].
  destruct (supabase w).
  - eapply same_data_trans; [exact C | apply same_data_request_sent].
  - destruct (has_window w); [|exact C].
    eapply same_data_trans; [exact C | apply same_data_set_trace].
Qed.

Lemma same_data_after_resolve (w : World) (token : string) :
  same_data w (after_resolve w token).
Proof.
  unfold after_resolve.
  assert (H1 : same_data w
                 (if supabase w
                  then request_sent
                         (EvSelectQr token (scope_filter (scope_of w)))
                         (cache_scope w)
                  else w)).
  { destruct (supabase w); [|apply same_data_refl].
    eapply same_data_trans;
      [apply same_data_cache_scope | apply same_data_request_sent]. }
  destruct (remote_match w token); [exact H1|].
  destruct (has_window w); [|exact H1].
  eapply same_data_trans; [exact H1 | apply same_data_set_trace].
Qed.

(** Traces only grow, by the accesses of the step. *)
Lemma after_members_trace (w : World) :
  trace (after_members w) = trace w ++ members_accesses w.
Proof.
  destruct w as [win sb cur lsc lsq lst dbq dbm rs tr sto].
  unfold after_members, members_accesses, request_sent, cache_scope, can_read;
    simpl.
  split_cases; simpl; rewrite ?app_nil_r; reflexivity.
Qed.

Lemma after_resolve_trace (w : World) (token : string) :
  trace (after_resolve w token) = trace w ++ Resolve_accesses w token.
Proof.
  destruct w as [win sb cur lsc lsq lst dbq dbm rs tr sto].
  unfold after_resolve, Resolve_accesses, request_sent, cache_scope, can_read;
    simpl.
  split_cases; simpl; rewrite <- ?app_assoc, ?app_nil_r; reflexivity.
Qed.

(** [findMemberByQRCodeId], step by step. *)
Lemma findMemberByQRCodeId_step (token : string) (w : World) :
  findMemberByQRCodeId token w
  = let w1 := after_members w in
    match find_member token (visible_members w) with
    | Some member => (Returned (Some member), w1)
    | None =>
        let w2 := after_resolve w1 token in
        match resolved w1 token with
        | Returned (Some mappedId) =>
            match find_mapped mappedId (visible_members w) with
            | Some member => (Returned (Some member), w2)
            | None =>
                (Returned (find_mapped mappedId (visible_members (paused w2))),
                 after_members (paused w2))
            end
        | Returned None =>
            (Returned (find_member token (visible_members (paused w2))),
             after_members (paused w2))
        | Threw e => (Threw e, w2)
        | OutOfFuel => (OutOfFuel, w2)
        end
    end.
Proof.
  unfold findMemberByQRCodeId.
  rewrite (bind_returned _ _ _ _ _ (getTajneedMembers_run w)).
  cbv zeta.
  destruct (find_member token (visible_members w)); [reflexivity|].
  unfold bind at 1. rewrite getMemberIdFromQRCode_run.
  destruct (resolved (after_members w) token) as [[mappedId|]|e|];
    try reflexivity.
  - destruct (find_mapped mappedId (visible_members w)); [reflexivity|].
    unfold bind at 1, sleep, emit, modify.
    fold (paused (after_resolve (after_members w) token)).
    rewrite (bind_returned _ _ _ _ _
               (getTajneedMembers_run
                  (paused (after_resolve (after_members w) token)))).
    reflexivity.
  - unfold bind at 1, sleep, emit, modify.
    fold (paused (after_resolve (after_members w) token)).
    rewrite (bind_returned _ _ _ _ _
               (getTajneedMembers_run
                  (paused (after_resolve (after_members w) token)))).
    reflexivity.
Qed.

(** ** Claims on the member lookup *)



Lemma sleeps_app (a b : list Event) : sleeps (a ++ b) = sleeps a ++ sleeps b.
Proof. apply omap_app. Qed.

Lemma members_accesses_counts (w : World) :
  resolves (members_accesses w) = 0%nat
  /\ (member_reads (members_accesses w) <= 1)%nat
  /\ sleeps (members_accesses w) = [].
Proof.
  unfold members_accesses.
  destruct (JS.truthy (scope_of w)), (supabase w), (has_window w);
    cbn; repeat split; lia.
Qed.

Lemma Resolve_accesses_counts (w : World) (token : string) :
  (resolves (Resolve_accesses w token) <= 1)%nat
  /\ member_reads (Resolve_accesses w token) = 0%nat
  /\ sleeps (Resolve_accesses w token) = [].
Proof.
  unfold Resolve_accesses.
  destruct (supabase w), (remote_match w token), (has_window w);
    cbn; repeat split; lia.
Qed.

Lemma visible_members_scoped (w : World) (x : TajneedMember) :
  In x (visible_members w) ->
  In x (members_store w) /\ eventId x = scope_of w.
Proof.
  unfold visible_members, members_store.
  destruct (JS.truthy (scope_of w)); [|intros []].
  destruct (supabase w).
  - destruct (served w); [|intros []].
    intros H. apply filter_In in H as [Hin He].
    apply String.eqb_eq in He. split; [|exact He].
    apply in_or_app. now left.
  - intros H. apply filter_In in H as [Hin He].
    apply String.eqb_eq in He. split; [|exact He].
    apply in_or_app. right. now destruct (has_window w && can_read w).
Qed.

Lemma visible_members_no_scope (w : World) :
  scope_of w = "" -> visible_members w = [].
Proof. unfold visible_members. now intros ->. Qed.

Lemma members_store_same (w w' : World) :
  same_data w w' -> members_store w' = members_store w.
Proof.
  intros S. unfold members_store.
  now rewrite (sd_db_tajneed _ _ S), (sd_ls_tajneed _ _ S).
Qed.

Lemma maps_to_same (w w' : World) (token entity : string) :
  same_data w w' -> maps_to w' token entity -> maps_to w token entity.
Proof.
  intros S. unfold maps_to.
  rewrite (sd_db_qr _ _ S).
  rewrite (local_cache_eq w w' (sd_window _ _ S) (sd_ls_qr _ _ S)).
  trivial.
Qed.

Lemma Resolve_spec_maps_to (w : World) (token entity : string) :
  Resolve_spec w token = Some entity -> maps_to w token entity.
Proof.
  unfold Resolve_spec.
  destruct (remote_match w token) as [e|] eqn:E.
  - intros [= <-]. left.
    apply remote_match_row in E as (_ & _ & row & Hrows & Hid).
    exists row.
    assert (Hin : In row (remote_rows w token)) by (rewrite Hrows; now left).
    unfold remote_rows in Hin. apply filter_In in Hin as [Hin Hm].
    unfold qr_row_matches in Hm. apply andb_prop in Hm as [Hk _].
    apply String.eqb_eq in Hk. auto.
  - unfold local_lookup. intros H. right.
    destruct (local_cache w !! token) as [v|]; [|discriminate].
    destruct (JS.truthy v); [|discriminate]. congruence.
Qed.

(** A string the lookup returns is an id the token is mapped to, by a row
    of the table or by an own entry of the local cache. *)
Lemma resolved_maps_to (w : World) (token entity : string) :
  resolved w token = Returned (Some (JS.Str entity)) ->
  maps_to w token entity.
Proof.
  intros H. apply Resolve_spec_maps_to. revert H.
  unfold resolved, Resolve_spec, local_value, local_lookup, JS.get_prop.
  destruct (remote_match w token) as [e|]; [now intros [= ->]|].
  destruct (has_window w && negb (can_read w)); [discriminate|].
  destruct (local_cache w !! token) as [v|].
  - cbn. destruct (JS.truthy v); [|intros [=]]. now intros [= ->].
  - destruct (JS.inherited token); cbn; intros [=].
Qed.

(** The lookup fails only on the read of the local cache. *)
Lemma resolved_outcome (w : World) (token : string) :
  (exists o, resolved w token = Returned o)
  \/ (resolved w token = Threw StorageError
      /\ has_window w = true /\ can_read w = false).
Proof.
  unfold resolved.
  destruct (remote_match w token); [eauto|].
  destruct (has_window w); cbn; [|eauto].
  destruct (can_read w); cbn; eauto.
Qed.

Lemma find_member_none (key : string) (l : list TajneedMember) :
  (forall x, In x l -> id x <> key) -> find_member key l = None.
Proof.
  intros H. unfold find_member.
  destruct (List.find _ l) as [x|] eqn:E; [|reflexivity].
  apply find_some in E as [Hin He]. apply String.eqb_eq in He.
  now destruct (H x Hin).
Qed.

Lemma find_mapped_str (key : string) (l : list TajneedMember) :
  find_mapped (JS.Str key) l = find_member key l.
Proof. reflexivity. Qed.

(** No member's id is a function or an object. *)
Lemma find_mapped_inherited (name : string) (l : list TajneedMember) :
  find_mapped (JS.Inherited name) l = None.
Proof. unfold find_mapped. now induction l. Qed.







(** ** Claims on the resolution chain *)

(** The chain, case by case. *)

Lemma resolve_remote_first (w : World) (token : string) :
  supabase w = true ->
  exists rest,
    events_since w (snd (getMemberIdFromQRCode token w))
    = EvSelectQr token (scope_filter (scope_of w)) :: rest.
Proof.
  intros Hsb. rewrite getMemberIdFromQRCode_run. cbn [snd].
  rewrite after_resolve_events. unfold Resolve_accesses. rewrite Hsb.
  eexists. reflexivity.
Qed.

Lemma resolve_remote_hit (w : World) (token : string) (row : QrRow) :
  supabase w = true -> served w = true ->
  remote_rows w token = [row] -> member_id row <> "" ->
  fst (getMemberIdFromQRCode token w)
  = Returned (Some (JS.Str (member_id row)))
  /\ events_since w (snd (getMemberIdFromQRCode token w))
     = [EvSelectQr token (scope_filter (scope_of w))].
Proof.
  intros Hsb Hsv Hrows Hid.
  assert (Hm : remote_match w token = Some (member_id row)).
  { unfold remote_match. rewrite Hsb, Hsv, Hrows. cbn.
    now rewrite (proj2 (truthy_true _) Hid). }
  rewrite getMemberIdFromQRCode_run. cbn [fst snd].
  rewrite after_resolve_events. unfold resolved, Resolve_accesses.
  now rewrite Hm, Hsb.
Qed.

(** C5, as the code has it. [getMemberIdFromQRCode] makes the accesses of
    the chain of the specification, in order: with a client it first
    queries the table by token and current event (no event filter for the
    empty event); a single matching row with an id is returned at once and
    the local cache is not read; on an error, a thrown request or no match
    it reads the local cache by token alone. Its answer is that of the
    specification wherever localStorage can be read and the token either
    has an entry in the cache or is not the name of a member of
    [Object.prototype]. Otherwise the fallback does not answer as
    specified: for a token such as [constructor] without an entry it
    returns the member the cache object inherits, not null; and a refused
    read of localStorage is thrown to the caller. *)
Theorem resolution_chain_order (w : World) (token : string) :
  let r := getMemberIdFromQRCode token w in
  events_since w (snd r) = Resolve_accesses w token
  /\ (forall entity,
        remote_match w token = Some entity ->
        fst r = Returned (Some (JS.Str entity)))
  /\ (remote_match w token = None ->
      fst r = if has_window w && negb (can_read w)
              then Threw StorageError
              else Returned (JS.or_null (JS.get_prop (local_cache w) token)))
  /\ (has_window w = false \/ can_read w = true ->
      JS.inherited token = false \/ is_Some (local_cache w !! token) ->
      fst r = Returned (JS.Str <$> Resolve_spec w token))
  /\ Resolve_spec (device []) "constructor" = None
  /\ fst (getMemberIdFromQRCode "constructor" (device []))
     = Returned (Some (JS.Inherited "constructor")).
Proof.
  intros r. subst r. rewrite getMemberIdFromQRCode_run. cbn [fst snd].
  split; [apply after_resolve_events|].
  split; [intros entity H; unfold resolved; now rewrite H|].
  split; [intros H; unfold resolved; now rewrite H|].
  split; [apply resolved_spec|].
  split; reflexivity.
Qed.

Lemma resolve_falls_back (w : World) (token : string) :
  supabase w = false \/ served w = false \/ remote_rows w token = [] ->
  has_window w = false \/ can_read w = true ->
  fst (getMemberIdFromQRCode token w) = Returned (local_value w token).
Proof.
  intros H Hr. rewrite getMemberIdFromQRCode_run. cbn [fst].
  unfold resolved. rewrite (remote_match_none w token H).
  now destruct Hr as [-> | ->]; rewrite ?andb_false_r.
Qed.

(** * Properties of the rest of the code *)

(** ** The current event *)

(** X1: right after [setCurrentEventId], [getCurrentEventId] answers with
    the selected event, whatever localStorage does. After the page is
    loaded again the answer is the stored copy: the selected event when
    localStorage took the write; the event stored before, if any, when it
    refused the write (the failure is caught and only logged); and the
    empty string when it refuses every access, or when there is no
    window. *)
Theorem current_event_survives_reload (w : World) (event : string) :
  event <> "" ->
  fst ((setCurrentEventId event ;; getCurrentEventId) w) = Returned event
  /\ fst ((setCurrentEventId event ;; module_load ;; getCurrentEventId) w)
     = Returned
         (if has_window w then
            match storage w with
            | Available => event
            | QuotaExceeded =>
                if JS.truthy_opt (ls_current_event_id w)
                then default "" (ls_current_event_id w) else ""
            | AccessDenied => ""
            end
          else "").
Proof.
  intros He. apply truthy_true in He.
  destruct w as [[] sb cur lsc lsq lst dbq dbm rs tr []];
    unfold module_load; unfold_js; unfold can_read, can_write;
    cbn; rewrite ?He; cbn; rewrite ?He; cbn;
    (split; [reflexivity|]); try reflexivity.
  destruct (JS.truthy_opt lsc) eqn:E; cbn; rewrite ?E; reflexivity.
Qed.

Lemma current_event_survives_reload_witness :
  fst ((setCurrentEventId "evt-2" ;; module_load ;; getCurrentEventId)
         (set_storage QuotaExceeded (device [])))
  = Returned "evt-1".
Proof.
  exact (proj2 (current_event_survives_reload
                  (set_storage QuotaExceeded (device [])) "evt-2"
                  ltac:(discriminate))).
Defined.

(** ** More on the retry loop *)

(** X2: when the first one or two upserts are answered with retryable
    errors and the next one is served, [persistQRMappingToSupabase]
    returns normally with the row in the table, after one upsert more than
    there were errors and the pauses 100 ms, then 200 ms. *)
Theorem persist_recovers (w : World) (q m : string) (ev : option string)
    (errs : list PostgrestError) (rest : list Response) :
  supabase w = true ->
  (List.length errs <= 2)%nat ->
  Forall (fun e => isRetryable e = true) errs ->
  responses w = List.map RespError errs ++ RespOk :: rest ->
  let r := persistQRMappingToSupabase q m ev 1 w in
  fst r = Returned tt
  /\ db_qr_mappings (snd r) = upsert_row (payload_of q m ev) (db_qr_mappings w)
  /\ responses (snd r) = rest
  /\ upserts (events_since w (snd r)) = S (List.length errs)
  /\ sleeps (events_since w (snd r)) = take (List.length errs) [100%Z; 200%Z].
Proof.
  intros Hsb Hlen Herr Hrs r. subst r.
  destruct w as [win sb cur lsc lsq lst dbq dbm rs tr].
  simpl in Hsb, Hrs. subst sb rs.
  rewrite persist_fuel_given.
  destruct errs as [|e1 [|e2 [|e3 errs]]]; [| | |simpl in Hlen; lia].
  - rewrite persist_step. cbn.
    unfold events_since. cbn. rewrite !drop_app_length.
    repeat split; reflexivity.
  - apply Forall_cons in Herr as [H1 _].
    rewrite persist_step. cbn. rewrite H1. cbn.
    rewrite persist_step. cbn.
    change (backoff_delay 1) with 100%Z.
    unfold events_since. cbn. rewrite <- !app_assoc. cbn.
    rewrite !drop_app_length.
    repeat split; reflexivity.
  - apply Forall_cons in Herr as [H1 Herr].
    apply Forall_cons in Herr as [H2 _].
    rewrite persist_step. cbn. rewrite H1. cbn.
    rewrite persist_step. cbn. rewrite H2. cbn.
    rewrite persist_step. cbn.
    change (backoff_delay 1) with 100%Z.
    change (backoff_delay (1 + 1)) with 200%Z.
    unfold events_since. cbn. rewrite <- !app_assoc. cbn.
    rewrite !drop_app_length.
    repeat split; reflexivity.
Qed.

Lemma persist_recovers_witness :
  fst (persistQRMappingToSupabase "SURPLUS-001" "m-42" (Some "evt-1") 1
         (device [RespError request_timeout; RespError undefined_table;
                  RespOk]))
  = Returned tt.
Proof.
  refine (proj1
    (persist_recovers
       (device [RespError request_timeout; RespError undefined_table; RespOk])
       "SURPLUS-001" "m-42" (Some "evt-1")
       [request_timeout; undefined_table] [] _ _ _ _)).
  - reflexivity.
  - simpl. lia.
  - repeat constructor.
  - reflexivity.
Defined.

(** The events of a run of the loop that sends [S k] upserts from the
    given attempt on. *)
Lemma persist_events (fuel : nat) (q m : string) (ev : option string) :
  forall (attempt : nat) (w : World),
    supabase w = true ->
    (MAX_ATTEMPTS - attempt <= fuel)%nat ->
    exists k,
      (k <= MAX_ATTEMPTS - attempt)%nat
      /\ trace (snd (persistQRMappingToSupabase_fuel fuel q m ev attempt w))
         = trace w ++ retry_events (EvUpsert (payload_of q m ev)) attempt k.
Proof.
  induction fuel as [|fuel IH]; intros attempt w Hsb Hfuel;
    rewrite persist_step, Hsb; cbv beta iota zeta delta [negb];
    (assert (Hsent : trace (request_sent (EvUpsert (payload_of q m ev)) w)
                     = trace w ++ [EvUpsert (payload_of q m ev)])
       by (destruct w; reflexivity));
    (destruct (responses w) as [|[|error|] rs];
     [exists 0%nat; split; [lia | destruct w; reflexivity] ..
     | | exists 0%nat; split; [lia | destruct w; reflexivity]]);
    (destruct (isRetryable error); cbn [andb];
     [|exists 0%nat; split; [lia | destruct w; reflexivity]]);
    (destruct (Nat.ltb_spec attempt MAX_ATTEMPTS);
     [|exists 0%nat; split; [lia | destruct w; reflexivity]]).
  - lia.
  - match goal with
    | |- context [persistQRMappingToSupabase_fuel fuel q m ev ?a ?x] =>
        destruct (IH a x) as [k [Hk Ht]];
          [destruct w; exact Hsb | lia |]
    end.
    exists (S k). split; [lia|].
    rewrite Ht. cbn. rewrite <- !app_assoc.
    replace (attempt + 1)%nat with (S attempt) by lia. reflexivity.
Qed.

(** X3: whatever the backend answers, one call of
    [persistQRMappingToSupabase] sends at most three upserts and pauses
    not at all, 100 ms, or 100 ms then 200 ms: never more than 300 ms. *)
Theorem persist_bounded (w : World) (q m : string) (ev : option string) :
  let evs := events_since w (snd (persistQRMappingToSupabase q m ev 1 w)) in
  (upserts evs <= 3)%nat
  /\ (sleeps evs = [] \/ sleeps evs = [100%Z]
      \/ sleeps evs = [100%Z; 200%Z]).
Proof.
  intros evs. subst evs. rewrite persist_fuel_given.
  destruct (supabase w) eqn:Hsb.
  - destruct (persist_events 3 q m ev 1 w Hsb) as [k [Hk Ht]];
      [unfold MAX_ATTEMPTS; lia|].
    rewrite (events_since_app _ _ _ Ht).
    unfold MAX_ATTEMPTS in Hk.
    destruct k as [|[|[|k]]]; [| | |lia]; cbn; split; auto.
  - rewrite persist_step, Hsb. cbn.
    unfold events_since. rewrite drop_all. cbn. split; [lia | now left].
Qed.

(** ** More on saving and resolving *)

Lemma upsert_row_other (p r : QrRow) (t : list QrRow) :
  qr_code_id r <> qr_code_id p ->
  In r (upsert_row p t) <-> In r t.
Proof.
  intros Hk. induction t as [|x t IH]; simpl.
  - split; [intros [->|[]]; congruence | intros []].
  - destruct (String.eqb_spec (qr_code_id x) (qr_code_id p)) as [E|N]; simpl.
    + split; intros [H|H]; auto; subst; congruence.
    + rewrite IH. tauto.
Qed.

(** X4: [saveQRCodeMapping] for one token leaves every other token alone,
    whatever the backend answers: the rows of the table with another
    [qr_code_id] are the same before and after, the local entries of other
    tokens are unchanged, and the primary key of the table is kept. *)
Theorem saveQRCodeMapping_other_tokens (w : World) (q m : string) :
  let w' := snd (saveQRCodeMapping q m w) in
  (forall r, qr_code_id r <> q ->
             In r (db_qr_mappings w') <-> In r (db_qr_mappings w))
  /\ (forall t, t <> q -> local_cache w' !! t = local_cache w !! t)
  /\ (qr_primary_key (db_qr_mappings w) -> qr_primary_key (db_qr_mappings w')).
Proof.
  intros w'. pose proof (saveQRCodeMapping_post q m w) as P. fold w' in P.
  split; [|split].
  - intros r Hr. destruct (sp_db _ _ _ _ P) as [-> | (_ & _ & ->)]; [tauto|].
    now apply upsert_row_other.
  - intros t Ht. rewrite (sp_local _ _ _ _ P).
    destruct (has_window w && can_write w); [|reflexivity].
    now apply set_prop_other.
  - intros Hpk. destruct (sp_db _ _ _ _ P) as [-> | (_ & _ & ->)];
      [exact Hpk|].
    now apply upsert_row_primary_key.
Qed.

Lemma resolved_truthy (w : World) (token : string) (v : JS.Value) :
  resolved w token = Returned (Some v) -> JS.truthy_value v = true.
Proof.
  unfold resolved.
  destruct (remote_match w token) as [e|] eqn:E.
  - intros [= <-]. cbn. revert E. unfold remote_match.
    destruct (supabase w && served w); [|discriminate].
    destruct (remote_rows w token) as [|row [|]]; try discriminate.
    destruct (JS.truthy (member_id row)) eqn:T; [|discriminate].
    now intros [= <-].
  - destruct (has_window w && negb (can_read w)); [discriminate|].
    intros [= H]. now apply local_value_truthy in H.
Qed.

(** X5: [getMemberIdFromQRCode] only reads: every item of localStorage,
    the tables, the current event and the state of localStorage are the
    same afterwards, whether it returns or throws; and what it returns is
    null or a truthy value, never the empty string. *)
Theorem getMemberIdFromQRCode_reads_only (w : World) (token : string) :
  same_data w (snd (getMemberIdFromQRCode token w))
  /\ (forall v, fst (getMemberIdFromQRCode token w) = Returned (Some v) ->
        JS.truthy_value v = true)
  /\ fst (getMemberIdFromQRCode token w) <> Returned (Some (JS.Str "")).
Proof.
  rewrite getMemberIdFromQRCode_run. cbn [fst snd].
  split; [apply same_data_after_resolve|].
  split; [intros v; apply resolved_truthy|].
  intros H. apply resolved_truthy in H. discriminate.
Qed.

Lemma served_second_browser (w : World) (event : string) :
  served (second_browser w event) = served w.
Proof. reflexivity. Qed.

Lemma scope_of_second_browser (w : World) (event : string) :
  scope_of (second_browser w event) = event.
Proof.
  unfold scope_of, second_browser; cbn.
  destruct (JS.truthy event) eqn:E; [reflexivity|].
  unfold JS.truthy in E. apply negb_false_iff, String.eqb_eq in E. now subst.
Qed.

(** X6: a mapping saved while no event is selected is stored with a NULL
    [event_id]. On another browser of the same backend the lookup of the
    token finds it as long as no event is selected there either. Once an
    event is selected there the table does not answer any more, and the
    lookup falls back to that browser's empty cache: it answers null,
    except for a token that is the name of a member of [Object.prototype],
    for which it answers with the inherited member. *)
Theorem mapping_saved_without_event (w : World) (q m event : string) :
  storage_ok w = true ->
  supabase w = true ->
  next_served 2 w = true ->
  qr_primary_key (db_qr_mappings w) ->
  scope_of w = "" ->
  m <> "" ->
  event <> "" ->
  let w1 := snd (saveQRCodeMapping q m w) in
  List.filter (fun r => String.eqb (qr_code_id r) q) (db_qr_mappings w1)
  = [{| qr_code_id := q; member_id := m; event_id := None |}]
  /\ fst (getMemberIdFromQRCode q (second_browser w1 ""))
     = Returned (Some (JS.Str m))
  /\ fst (getMemberIdFromQRCode q (second_browser w1 event))
     = Returned (if JS.inherited q then Some (JS.Inherited q) else None).
Proof.
  intros Hok Hsb Hns Hpk Hsc Hm He w1.
  assert (Hsv : served w = true /\ served w1 = true).
  { unfold next_served in Hns. unfold served.
    pose proof (saveQRCodeMapping_served q m w Hok Hsb) as S.
    unfold served in S. fold w1 in S.
    destruct (responses w) as [|[| |] rs]; cbn in Hns; try discriminate.
    - destruct (S eq_refl) as [_ ->]. auto.
    - destruct (S eq_refl) as [_ ->]. cbn.
      destruct rs as [|[| |] rs']; cbn in Hns; try discriminate; auto. }
  destruct Hsv as [Hsv Hsv1].
  destruct (saveQRCodeMapping_served q m w Hok Hsb Hsv) as [D _]. fold w1 in D.
  pose proof (saveQRCodeMapping_post q m w) as P. fold w1 in P.
  assert (Hrow : payload_of q m (Some (scope_of w))
                 = {| qr_code_id := q; member_id := m; event_id := None |})
    by now rewrite Hsc.
  assert (Hkey : List.filter (fun r => String.eqb (qr_code_id r) q)
                   (db_qr_mappings w1)
                 = [{| qr_code_id := q; member_id := m; event_id := None |}]).
  { rewrite D, Hrow.
    now apply (upsert_row_single
                 {| qr_code_id := q; member_id := m; event_id := None |}). }
  assert (Hsb1 : supabase w1 = true) by now rewrite (sp_supabase _ _ _ _ P).
  split; [exact Hkey|]. split.
  - rewrite getMemberIdFromQRCode_run. cbn [fst].
    unfold resolved, remote_match.
    rewrite served_second_browser, Hsv1.
    change (supabase (second_browser w1 "")) with (supabase w1).
    rewrite Hsb1. cbn [andb].
    rewrite remote_rows_by_key, scope_of_second_browser.
    change (db_qr_mappings (second_browser w1 "")) with (db_qr_mappings w1).
    rewrite Hkey. cbn.
    now rewrite (proj2 (truthy_true m) Hm).
  - rewrite getMemberIdFromQRCode_run. cbn [fst].
    unfold resolved, remote_match.
    rewrite served_second_browser, Hsv1.
    change (supabase (second_browser w1 event)) with (supabase w1).
    rewrite Hsb1. cbn [andb].
    rewrite remote_rows_by_key, scope_of_second_browser.
    change (db_qr_mappings (second_browser w1 event)) with (db_qr_mappings w1).
    rewrite Hkey. unfold scope_filter.
    rewrite (proj2 (truthy_true event) He). cbn.
    unfold local_value, local_cache, JS.get_prop. cbn.
    rewrite lookup_empty. now destruct (JS.inherited q).
Qed.

(** The device of [device] with no event selected. *)
Lemma mapping_saved_without_event_witness :
  fst (getMemberIdFromQRCode "SURPLUS-001"
         (second_browser
            (snd (saveQRCodeMapping "SURPLUS-001" "m-42"
                    (snd (setCurrentEventId "" (device [])))))
            "evt-1"))
  = Returned None.
Proof.
  refine (proj2 (proj2
    (mapping_saved_without_event (snd (setCurrentEventId "" (device [])))
       "SURPLUS-001" "m-42" "evt-1" _ _ _ _ _ _ _))).
  - reflexivity.
  - reflexivity.
  - reflexivity.
  - constructor.
  - reflexivity.
  - discriminate.
  - discriminate.
Defined.

(** ** More on the member lookup *)

Lemma find_member_some (key : string) (l : list TajneedMember)
    (x : TajneedMember) :
  find_member key l = Some x -> In x l /\ id x = key.
Proof.
  unfold find_member. intros H. apply find_some in H as [Hin He].
  apply String.eqb_eq in He. auto.
Qed.

(** What is known of a member a scan returns. *)
Lemma findMemberByQRCodeId_found (w : World) (token : string)
    (x : TajneedMember) :
  fst (findMemberByQRCodeId token w) = Returned (Some x) ->
  In x (members_store w)
  /\ eventId x = scope_of w
  /\ (id x = token \/ maps_to w token (id x)).
Proof.
  rewrite findMemberByQRCodeId_step. cbv zeta.
  set (w1 := after_members w).
  set (w2 := after_resolve w1 token).
  assert (S1 : same_data w w1) by apply same_data_after_members.
  assert (S3 : same_data w (paused w2)).
  { eapply same_data_trans; [exact S1|].
    eapply same_data_trans; [apply same_data_after_resolve|].
    apply same_data_set_trace. }
  assert (Hvis : forall w' key y,
            same_data w w' ->
            find_member key (visible_members w') = Some y ->
            In y (members_store w) /\ eventId y = scope_of w /\ id y = key).
  { intros w' key y S H. apply find_member_some in H as [Hin Hid].
    apply visible_members_scoped in Hin as [Hin He].
    rewrite (members_store_same _ _ S) in Hin.
    rewrite (sd_scope _ _ S) in He. auto. }
  destruct (find_member token (visible_members w)) as [y|] eqn:E0.
  { intros [= ->]. destruct (Hvis w token x (same_data_refl w) E0) as (? & ? & ?).
    auto. }
  destruct (resolved w1 token) as [[[mappedId|n]|]|e|] eqn:Er.
  - assert (Hm : maps_to w token mappedId).
    { apply (maps_to_same w w1); [exact S1|]. now apply resolved_maps_to. }
    rewrite !find_mapped_str.
    destruct (find_member mappedId (visible_members w)) as [y|] eqn:E1.
    + intros [= ->].
      destruct (Hvis w mappedId x (same_data_refl w) E1) as (? & ? & ->). auto.
    + cbn [fst]. intros [= H].
      destruct (Hvis _ mappedId x S3 H) as (? & ? & ->). auto.
  - rewrite !find_mapped_inherited. cbn [fst]. discriminate.
  - cbn [fst]. intros [= H].
    destruct (Hvis _ token x S3 H) as (? & ? & ?). auto.
  - discriminate.
  - discriminate.
Qed.


(** A scan only reads, and throws only what the read of the local cache
    throws. *)
Lemma findMemberByQRCodeId_reads (w : World) (token : string) :
  same_data w (snd (findMemberByQRCodeId token w))
  /\ ((exists found, fst (findMemberByQRCodeId token w) = Returned found)
      \/ fst (findMemberByQRCodeId token w) = Threw StorageError).
Proof.
  rewrite findMemberByQRCodeId_step. cbv zeta.
  set (w1 := after_members w).
  set (w2 := after_resolve w1 token).
  assert (S1 : same_data w w1) by apply same_data_after_members.
  assert (S2 : same_data w w2).
  { eapply same_data_trans; [exact S1 | apply same_data_after_resolve]. }
  assert (S3 : same_data w (after_members (paused w2))).
  { eapply same_data_trans; [exact S2|].
    eapply same_data_trans; [apply same_data_set_trace|].
    apply same_data_after_members. }
  destruct (find_member token (visible_members w)); [eauto|].
  destruct (resolved_outcome w1 token) as [[o ->] | (-> & _)]; [|eauto].
  destruct o as [v|]; [|eauto].
  destruct (find_mapped v (visible_members w)); eauto.
Qed.

(** X7: a member [findMemberByQRCodeId] returns is a stored member of the
    current event, and its id is the token itself or an id the token is
    mapped to, in the table or in the local cache; and the scan has
    changed none of the stored data: the items of localStorage (the
    stored current event among them), the tables and the current event
    are as before. *)
Theorem findMemberByQRCodeId_sound (w : World) (token : string)
    (x : TajneedMember) :
  fst (findMemberByQRCodeId token w) = Returned (Some x) ->
  In x (members_store w)
  /\ eventId x = scope_of w
  /\ (id x = token \/ maps_to w token (id x))
  /\ same_data w (snd (findMemberByQRCodeId token w)).
Proof.
  intros H.
  destruct (findMemberByQRCodeId_found w token x H) as (H1 & H2 & H3).
  repeat split; try assumption; apply findMemberByQRCodeId_reads.
Qed.

Lemma findMemberByQRCodeId_sound_witness :
  eventId member_42 = scope_of (set_responses [] second_device).
Proof.
  refine (proj1 (proj2
    (findMemberByQRCodeId_sound (set_responses [] second_device)
       "SURPLUS-001" member_42 _))).
  reflexivity.
Defined.

Lemma after_members_responses (w : World) :
  supabase w = true -> JS.truthy (scope_of w) = true ->
  responses (after_members w) = tail (responses w).
Proof.
  intros Hsb Hs. unfold after_members. rewrite Hs, Hsb.
  destruct (cache_scope_fields w) as (_ & _ & _ & _ & _ & _ & _ & Hr & _).
  unfold request_sent. cbn. now rewrite Hr.
Qed.

Lemma remote_rows_same (w w' : World) (token : string) :
  same_data w w' -> remote_rows w' token = remote_rows w token.
Proof.
  intros S. unfold remote_rows.
  now rewrite (sd_scope _ _ S), (sd_db_qr _ _ S).
Qed.

(** What a scan reads on a backend that serves the member list and the
    lookup of the mapping, the table holding one mapping row for the token
    under the selected event. *)
Lemma scan_mapped_reads (w : World) (token : string) (row : QrRow) :
  supabase w = true ->
  next_served 2 w = true ->
  JS.truthy (scope_of w) = true ->
  remote_rows w token = [row] ->
  member_id row <> "" ->
  visible_members w
  = List.filter (fun y => String.eqb (eventId y) (scope_of w))
      (db_tajneed_members w)
  /\ resolved (after_members w) token
     = Returned (Some (JS.Str (member_id row))).
Proof.
  intros Hsb Hns Hs Hrows Hid.
  pose proof (after_members_responses w Hsb Hs) as Hr1.
  destruct (next_served_step 1 w (after_members w) Hns Hr1) as [Hsv Hns1].
  split.
  { unfold visible_members. now rewrite Hs, Hsb, Hsv. }
  assert (Hsv1 : served (after_members w) = true).
  { unfold next_served in Hns1. unfold served.
    destruct (responses (after_members w)) as [|[| |] rs]; cbn in Hns1;
      try discriminate; reflexivity. }
  pose proof (same_data_after_members w) as S1.
  unfold resolved, remote_match.
  rewrite (sd_supabase _ _ S1), Hsb, Hsv1. cbn [andb].
  rewrite (remote_rows_same _ _ token S1), Hrows.
  now rewrite (proj2 (truthy_true _) Hid).
Qed.

(** X8: on a backend that serves the requests, with an event selected,
    when the table holds exactly one mapping row for the token and event
    and the member it names is in the table for that event, a scan of the
    token finds a member without any pause: the member whose own id is the
    token if the event has one, else the mapped member. The local cache
    of the scanning device plays no part. *)
Theorem scan_finds_mapped_member (w : World) (token : string) (row : QrRow)
    (x : TajneedMember) :
  supabase w = true ->
  next_served 2 w = true ->
  JS.truthy (scope_of w) = true ->
  remote_rows w token = [row] ->
  member_id row <> "" ->
  let members :=
    List.filter (fun y => String.eqb (eventId y) (scope_of w))
      (db_tajneed_members w) in
  find_member (member_id row) members = Some x ->
  let r := findMemberByQRCodeId token w in
  fst r = Returned (Some (default x (find_member token members)))
  /\ sleeps (events_since w (snd r)) = [].
Proof.
  intros Hsb Hns Hs Hrows Hid members Hx r. subst r.
  destruct (scan_mapped_reads w token row Hsb Hns Hs Hrows Hid)
    as [Hvis Hres].
  fold members in Hvis.
  destruct (members_accesses_counts w) as (_ & _ & a3).
  destruct (Resolve_accesses_counts (after_members w) token) as (_ & _ & b3).
  rewrite findMemberByQRCodeId_step. cbv zeta. rewrite Hvis, Hres.
  destruct (find_member token members) as [y|]; cbn [fst snd default].
  - split; [reflexivity|].
    now rewrite (events_since_app _ _ _ (after_members_trace w)).
  - rewrite find_mapped_str, Hx. cbn [fst snd]. split; [reflexivity|].
    assert (Ht : trace (after_resolve (after_members w) token)
                 = trace w ++ members_accesses w
                   ++ Resolve_accesses (after_members w) token).
    { rewrite after_resolve_trace, after_members_trace.
      now rewrite <- app_assoc. }
    rewrite (events_since_app _ _ _ Ht), sleeps_app. now rewrite a3, b3.
Qed.

Lemma scan_finds_mapped_member_witness :
  fst (findMemberByQRCodeId "SURPLUS-001" (set_responses [] second_device))
  = Returned (Some member_42).
Proof.
  refine (proj1
    (scan_finds_mapped_member (set_responses [] second_device) "SURPLUS-001"
       {| qr_code_id := "SURPLUS-001"; member_id := "m-42";
          event_id := Some "evt-1" |} member_42 _ _ _ _ _ _)).
  - reflexivity.
  - reflexivity.
  - reflexivity.
  - reflexivity.
  - discriminate.
  - reflexivity.
Defined.

(** ** Registering members *)

Lemma registered_cons (new x : TajneedMember) (l : list TajneedMember) :
  registered new (x :: l)
  = if String.eqb (id x) (id new) then new :: l else x :: registered new l.
Proof.
  unfold registered. cbn.
  destruct (String.eqb (id x) (id new)); [reflexivity|].
  now destruct (findIndex _ l).
Qed.

Lemma find_registered (new : TajneedMember) (keep : TajneedMember -> bool)
    (l : list TajneedMember) :
  keep new = true ->
  find_member (id new) (List.filter keep (registered new l)) = Some new.
Proof.
  intros Hk. unfold find_member.
  induction l as [|x l IH].
  - unfold registered. cbn. rewrite Hk. cbn. now rewrite String.eqb_refl.
  - rewrite registered_cons.
    destruct (String.eqb (id x) (id new)) eqn:E; cbn.
    + rewrite Hk. cbn. now rewrite String.eqb_refl.
    + destruct (keep x); cbn; [rewrite E|]; exact IH.
Qed.

Lemma registered_ids (new : TajneedMember) (l : list TajneedMember) :
  NoDup (List.map id l) ->
  NoDup (List.map id (registered new l))
  /\ (forall x, In x (registered new l) -> id x = id new -> x = new)
  /\ (forall x, id x <> id new -> In x (registered new l) <-> In x l)
  /\ In new (registered new l).
Proof.
  induction l as [|x l IH]; intros Hnd.
  - unfold registered. cbn. repeat split.
    + apply NoDup_singleton.
    + now intros y [<-|[]].
    + intros [<-|[]]. congruence.
    + intros [].
    + now left.
  - apply NoDup_cons in Hnd as [Hx Hl].
    destruct (IH Hl) as (I1 & I2 & I3 & I4).
    rewrite registered_cons.
    destruct (String.eqb_spec (id x) (id new)) as [E|N].
    + repeat split.
      * cbn. apply NoDup_cons. split; [|exact Hl].
        rewrite <- E. exact Hx.
      * intros y [<-|Hy] Hid; [reflexivity|]. exfalso. apply Hx.
        rewrite E, <- Hid. apply list_elem_of_In. now apply in_map.
      * intros [<-|Hy]; [congruence | now right].
      * intros [<-|Hy]; [congruence | now right].
      * now left.
    + repeat split.
      * cbn. apply NoDup_cons. split; [|exact I1].
        intros Hin. apply list_elem_of_In, in_map_iff in Hin as (y & Hid & Hy).
        destruct (String.eqb_spec (id y) (id new)) as [Ey|Ny].
        -- apply I2 in Hy; [|exact Ey]. subst y. congruence.
        -- apply I3 in Hy; [|exact Ny]. apply Hx.
           rewrite <- Hid. apply list_elem_of_In. now apply in_map.
      * intros y [<-|Hy] Hid; [congruence | now apply I2].
      * intros [<-|Hy]; [now left | right; now apply I3].
      * intros [<-|Hy]; [now left | right; now apply I3].
      * now right.
Qed.

Lemma bind_gets {A B} (f : World -> A) (k : A -> M B) (w : World) :
  bind (gets f) k w = k (f w) w.
Proof. reflexivity. Qed.

Lemma getFromLocalStorage_tajneed_run (w : World) :
  getFromLocalStorage_tajneed w
  = (if has_window w && negb (can_read w) then Threw StorageError
     else Returned (local_members w),
     if has_window w
     then set_trace (trace w ++ [EvLocalGet LOCAL_TAJNEED_KEY]) w
     else w).
Proof. destruct w as [[] ? ? ? ? ? ? ? ? ? []]; reflexivity. Qed.

Lemma saveToLocalStorage_tajneed_run (l : list TajneedMember) (w : World) :
  saveToLocalStorage_tajneed l w
  = (if storage_ok w then Returned tt else Threw StorageError,
     if has_window w
     then if can_write w
          then set_ls_tajneed_members (Some l)
                 (set_trace (trace w ++ [EvLocalSet LOCAL_TAJNEED_KEY]) w)
          else set_trace (trace w ++ [EvLocalSet LOCAL_TAJNEED_KEY]) w
     else w).
Proof. destruct w as [[] ? ? ? ? ? ? ? ? ? []]; reflexivity. Qed.

Lemma storage_ok_read (w : World) :
  storage_ok w = true -> has_window w && negb (can_read w) = false.
Proof.
  unfold storage_ok, can_write, can_read.
  now destruct (has_window w), (storage w).
Qed.

Lemma storage_ok_write (w : World) :
  storage_ok w = true -> has_window w = true -> can_write w = true.
Proof. unfold storage_ok. intros H Hw. now rewrite Hw in H. Qed.

Lemma getFromLocalStorage_tajneed_ok (w : World) :
  storage_ok w = true ->
  getFromLocalStorage_tajneed w
  = (Returned (local_members w),
     if has_window w
     then set_trace (trace w ++ [EvLocalGet LOCAL_TAJNEED_KEY]) w
     else w).
Proof.
  intros Hok. now rewrite getFromLocalStorage_tajneed_run, storage_ok_read.
Qed.

Lemma saveToLocalStorage_tajneed_ok (l : list TajneedMember) (w : World) :
  storage_ok w = true ->
  saveToLocalStorage_tajneed l w
  = (Returned tt,
     if has_window w
     then set_ls_tajneed_members (Some l)
            (set_trace (trace w ++ [EvLocalSet LOCAL_TAJNEED_KEY]) w)
     else w).
Proof.
  intros Hok. rewrite saveToLocalStorage_tajneed_run, Hok.
  destruct (has_window w) eqn:Hw; [|reflexivity].
  now rewrite (storage_ok_write w Hok Hw).
Qed.

(** The world after the local branch of [saveTajneedMemberWithId], before
    the mapping is saved. *)
Lemma saveTajneedMemberWithId_local (o : Oracle) (member : WithId.t)
    (w : World) :
  supabase w = false -> has_window w = true -> storage w = Available ->
  let new := stored_member member (WithId.id member) (date_iso o) in
  exists w0,
    saveTajneedMemberWithId o member w
    = (Returned (Some new),
       snd (saveQRCodeMapping (WithId.id member) (WithId.id member) w0))
    /\ has_window w0 = true /\ supabase w0 = false
    /\ scope_of w0 = scope_of w
    /\ ls_tajneed_members w0 = Some (registered new (local_members w))
    /\ local_cache w0 = local_cache w
    /\ db_qr_mappings w0 = db_qr_mappings w
    /\ db_tajneed_members w0 = db_tajneed_members w
    /\ storage w0 = Available.
Proof.
  intros Hsb Hw Hst new.
  destruct w as [win sb cur lsc lsq lst dbq dbm rs tr sto].
  simpl in Hsb, Hw, Hst. subst sb win sto.
  unfold saveTajneedMemberWithId. rewrite bind_gets. cbn [supabase negb].
  erewrite bind_returned
    by (apply getFromLocalStorage_tajneed_ok; reflexivity).
  cbn [has_window].
  erewrite bind_returned
    by (apply saveToLocalStorage_tajneed_ok; reflexivity).
  rewrite bind_save by reflexivity.
  eexists. split; [reflexivity|].
  repeat split.
Qed.

Lemma local_members_after_register (o : Oracle) (member : WithId.t)
    (w : World) :
  supabase w = false -> has_window w = true -> storage w = Available ->
  let w' := snd (saveTajneedMemberWithId o member w) in
  fst (saveTajneedMemberWithId o member w)
  = Returned (Some (stored_member member (WithId.id member) (date_iso o)))
  /\ has_window w' = true /\ supabase w' = false
  /\ scope_of w' = scope_of w
  /\ local_members w'
     = registered (stored_member member (WithId.id member) (date_iso o))
         (local_members w)
  /\ storage w' = Available.
Proof.
  intros Hsb Hw Hst w'. subst w'.
  destruct (saveTajneedMemberWithId_local o member w Hsb Hw Hst)
    as (w0 & -> & h1 & h2 & h3 & h4 & _ & _ & _ & h8).
  cbn [fst snd].
  pose proof (saveQRCodeMapping_post (WithId.id member) (WithId.id member) w0)
    as P.
  split; [reflexivity|].
  rewrite (sp_window _ _ _ _ P), (sp_supabase _ _ _ _ P), (sp_scope _ _ _ _ P),
    (sp_storage _ _ _ _ P).
  repeat split; try assumption.
  unfold local_members at 1.
  now rewrite (sp_window _ _ _ _ P), (sp_ls_tajneed _ _ _ _ P), h1, h4.
Qed.

(** X9: without a Supabase client, in the browser with a working
    localStorage, a member registered with [saveTajneedMemberWithId] for
    the selected event is returned by the next [findMemberByQRCodeId] of
    its id, whatever localStorage held before. *)
Theorem register_then_scan_local (w : World) (o : Oracle)
    (member : WithId.t) :
  supabase w = false ->
  has_window w = true ->
  storage w = Available ->
  scope_of w <> "" ->
  WithId.eventId member = scope_of w ->
  let new := stored_member member (WithId.id member) (date_iso o) in
  fst (saveTajneedMemberWithId o member w) = Returned (Some new)
  /\ fst ((saveTajneedMemberWithId o member ;;
           findMemberByQRCodeId (WithId.id member)) w)
     = Returned (Some new).
Proof.
  intros Hsb Hw Hst Hs He new.
  destruct (local_members_after_register o member w Hsb Hw Hst)
    as (Hr & h1 & h2 & h3 & h4 & h5).
  split; [exact Hr|].
  unfold bind.
  destruct (saveTajneedMemberWithId o member w) as [r w'].
  cbn [fst snd] in *. subst r.
  rewrite findMemberByQRCodeId_step. cbv zeta.
  assert (Hvis : visible_members w'
                 = List.filter (fun m => String.eqb (eventId m) (scope_of w))
                     (registered new (local_members w))).
  { unfold visible_members, can_read. rewrite h3, h2, h5, h1.
    rewrite (proj2 (truthy_true _) Hs). cbn [andb].
    unfold local_members in h4. rewrite h1 in h4. now rewrite h4. }
  rewrite Hvis.
  change (WithId.id member) with (id new).
  rewrite find_registered; [reflexivity|].
  cbn. rewrite He. apply String.eqb_refl.
Qed.

Lemma register_then_scan_local_witness :
  fst ((saveTajneedMemberWithId sample_oracle card_holder ;;
        findMemberByQRCodeId "SURPLUS-001") offline_device)
  = Returned (Some (stored_member card_holder "SURPLUS-001"
                      "2025-06-01T09:00:00.000Z")).
Proof.
  refine (proj2
    (register_then_scan_local offline_device sample_oracle card_holder
       _ _ _ _ _)).
  - reflexivity.
  - reflexivity.
  - reflexivity.
  - discriminate.
  - reflexivity.
Defined.

(** X10: without a Supabase client, in the browser with a working
    localStorage, registering an id that is already stored writes over
    that member instead of adding one: distinct ids stay distinct, the
    only stored member with the id is the new one (with the event it was
    registered for now), and the members with other ids are the same as
    before. *)
Theorem register_keeps_ids_unique (w : World) (o : Oracle)
    (member : WithId.t) :
  supabase w = false ->
  has_window w = true ->
  storage w = Available ->
  NoDup (List.map id (local_members w)) ->
  let new := stored_member member (WithId.id member) (date_iso o) in
  let after := local_members (snd (saveTajneedMemberWithId o member w)) in
  NoDup (List.map id after)
  /\ In new after
  /\ (forall x, In x after -> id x = WithId.id member -> x = new)
  /\ (forall x, id x <> WithId.id member -> In x after <-> In x (local_members w)).
Proof.
  intros Hsb Hw Hst Hnd new after. subst after.
  destruct (local_members_after_register o member w Hsb Hw Hst)
    as (_ & _ & _ & _ & -> & _).
  fold new.
  destruct (registered_ids new (local_members w) Hnd) as (I1 & I2 & I3 & I4).
  repeat split; auto; apply I3; assumption.
Qed.

(** The card of an already registered holder is registered again: the
    stored member is written over, not doubled. *)
Lemma register_keeps_ids_unique_witness :
  let after :=
    local_members
      (snd (saveTajneedMemberWithId sample_oracle card_holder
              registered_offline)) in
  local_members registered_offline
  = [stored_member card_holder "SURPLUS-001" "2025-05-30T10:00:00.000Z"]
  /\ after
     = [stored_member card_holder "SURPLUS-001" "2025-06-01T09:00:00.000Z"]
  /\ NoDup (List.map id after)
  /\ (forall x, In x after -> id x = "SURPLUS-001" ->
        x = stored_member card_holder "SURPLUS-001"
              "2025-06-01T09:00:00.000Z").
Proof.
  pose proof (register_keeps_ids_unique registered_offline sample_oracle
                card_holder eq_refl eq_refl eq_refl
                ltac:(repeat constructor; intros H; inversion H))
    as (H1 & _ & H3 & _).
  split; [reflexivity|]. split; [reflexivity|]. split; [exact H1 | exact H3].
Defined.

(** *** The remote branch, request by request *)

Lemma try_catch_bind {A B} (c : M A) (k : A -> M B) (h : Exn -> M B)
    (w : World) :
  try_catch (bind c k) h w
  = match c w with
    | (Returned a, w') => try_catch (k a) h w'
    | (Threw e, w') => h e w'
    | (OutOfFuel, w') => (OutOfFuel, w')
    end.
Proof. unfold try_catch, bind. now destruct (c w) as [[a|e|] w']. Qed.

Lemma try_catch_ret {A} (a : A) (h : Exn -> M A) (w : World) :
  try_catch (ret a) h w = (Returned a, w).
Proof. reflexivity. Qed.

Lemma members_frame_trans (w1 w2 w3 : World) :
  members_frame w1 w2 -> members_frame w2 w3 -> members_frame w1 w3.
Proof. intros [] []. split; congruence. Qed.

Lemma members_frame_reads (w w' : World) :
  members_frame w w' ->
  scope_of w' = scope_of w /\ local_cache w' = local_cache w.
Proof.
  intros []. split; [apply scope_of_eq | apply local_cache_eq]; assumption.
Qed.

Lemma supabase_select_member_by_id_post (key : string) (w : World) :
  let r := supabase_select_member_by_id key w in
  members_frame w (snd r)
  /\ responses (snd r) = tail (responses w)
  /\ db_tajneed_members (snd r) = db_tajneed_members w
  /\ (fst r = Threw TransportError
      \/ (exists e, fst r = Returned (inl e))
      \/ fst r = Returned (inr None)
      \/ (exists x, fst r = Returned (inr (Some x))
                    /\ List.filter (fun m => String.eqb (id m) key)
                         (db_tajneed_members w) = [x])).
Proof.
  destruct w as [win sb cur lsc lsq lst dbq dbm rs tr].
  unfold supabase_select_member_by_id, next_response, bind, gets, ret, throw.
  cbn.
  destruct rs as [|[|e|] rs]; cbn; (split; [split; reflexivity|]);
    (split; [reflexivity|]); (split; [reflexivity|]); eauto.
  all: unfold maybeSingle_of;
    destruct (List.filter _ dbm) as [|x [|y l]]; eauto 10.
Qed.

Lemma supabase_insert_member_post (row : TajneedMember) (w : World) :
  let r := supabase_insert_member row w in
  members_frame w (snd r)
  /\ responses (snd r) = tail (responses w)
  /\ ((fst r = Threw TransportError
       /\ db_tajneed_members (snd r) = db_tajneed_members w)
      \/ (exists e, fst r = Returned (inl e)
                    /\ db_tajneed_members (snd r) = db_tajneed_members w)
      \/ (fst r = Returned (inr row)
          /\ db_tajneed_members (snd r) = row :: db_tajneed_members w
          /\ served w = true
          /\ existsb (fun m => String.eqb (id m) (id row))
               (db_tajneed_members w) = false)).
Proof.
  destruct w as [win sb cur lsc lsq lst dbq dbm rs tr].
  unfold supabase_insert_member, next_response, bind, gets, modify, ret,
    throw, served.
  cbn.
  destruct rs as [|[|e|] rs]; cbn.
  1-2: destruct (existsb _ dbm) eqn:E; cbn;
    (split; [split; reflexivity|]); (split; [reflexivity|]); eauto 10.
  all: (split; [split; reflexivity|]); (split; [reflexivity|]); eauto 10.
Qed.

Lemma supabase_update_member_post (member : WithId.t) (w : World) :
  let r := supabase_update_member member w in
  members_frame w (snd r)
  /\ responses (snd r) = tail (responses w)
  /\ ((fst r = Threw TransportError
       /\ db_tajneed_members (snd r) = db_tajneed_members w)
      \/ (exists e, fst r = Returned (inl e)
                    /\ db_tajneed_members (snd r) = db_tajneed_members w)
      \/ (exists old,
            fst r = Returned (inr (updated_member member old))
            /\ List.filter (fun m => String.eqb (id m) (WithId.id member))
                 (db_tajneed_members w) = [old]
            /\ db_tajneed_members (snd r)
               = List.map (fun m => if String.eqb (id m) (WithId.id member)
                                    then updated_member member m else m)
                   (db_tajneed_members w))).
Proof.
  destruct w as [win sb cur lsc lsq lst dbq dbm rs tr].
  unfold supabase_update_member, next_response, bind, gets, modify, ret,
    throw.
  cbn.
  destruct rs as [|[|e|] rs]; cbn.
  1-2: unfold single_of;
    destruct (List.filter _ dbm) as [|x [|y l]]; cbn;
    (split; [split; reflexivity|]); (split; [reflexivity|]); eauto 10.
  all: (split; [split; reflexivity|]); (split; [reflexivity|]); eauto 10.
Qed.

Lemma filter_single {A} (f : A -> bool) (l : list A) (x : A) :
  List.filter f l = [x] -> In x l /\ f x = true.
Proof.
  intros H. apply filter_In. rewrite H. now left.
Qed.

Lemma In_map_other (f : TajneedMember -> TajneedMember) (key : string)
    (l : list TajneedMember) (y : TajneedMember) :
  (forall m, id (f m) = id m) ->
  id y <> key ->
  In y (List.map (fun m => if String.eqb (id m) key then f m else m) l)
  <-> In y l.
Proof.
  intros Hf Hy. rewrite in_map_iff. split.
  - intros (m & <- & Hm).
    destruct (String.eqb_spec (id m) key) as [E|N]; [|exact Hm].
    exfalso. apply Hy. now rewrite Hf.
  - intros Hin. exists y. split; [|exact Hin].
    destruct (String.eqb_spec (id y) key); [contradiction | reflexivity].
Qed.

(** The last step of a registration on the backend: the mapping is saved
    and the stored member returned; when localStorage refuses the write,
    the error of the save is caught and null returned. *)
Lemma registration_mapped (q : string) (x : TajneedMember) (w w2 : World) :
  members_frame w w2 ->
  let r := try_catch (saveQRCodeMapping q (id x) ;; ret (Some x))
             (fun _ => ret None) w2 in
  fst r = (if storage_ok w then Returned (Some x) else Returned None)
  /\ db_tajneed_members (snd r) = db_tajneed_members w2
  /\ (has_window w = true ->
      local_cache (snd r)
      = if can_write w then JS.set_prop (local_cache w) q (id x)
        else local_cache w)
  /\ (storage_ok w = false -> db_qr_mappings (snd r) = db_qr_mappings w2).
Proof.
  intros F r. subst r.
  assert (Hok : storage_ok w2 = storage_ok w)
    by (apply storage_ok_eq; [apply (mf_window _ _ F) | apply (mf_storage _ _ F)]).
  assert (Hcw : can_write w2 = can_write w)
    by (unfold can_write; now rewrite (mf_storage _ _ F)).
  destruct (members_frame_reads _ _ F) as [_ Hlc].
  rewrite try_catch_bind.
  pose proof (saveQRCodeMapping_returns w2 q (id x)) as R.
  pose proof (saveQRCodeMapping_post q (id x) w2) as P.
  destruct (saveQRCodeMapping q (id x) w2) as [out w3]. cbn [fst snd] in R, P.
  rewrite Hok in R. subst out.
  assert (L : has_window w = true ->
              local_cache w3
              = if can_write w then JS.set_prop (local_cache w) q (id x)
                else local_cache w).
  { intros Hw. rewrite (sp_local _ _ _ _ P), (mf_window _ _ F), Hw, Hcw, Hlc.
    reflexivity. }
  destruct (storage_ok w) eqn:E.
  - rewrite try_catch_ret. cbn [fst snd].
    split; [reflexivity|]. split; [apply (sp_db_tajneed _ _ _ _ P)|].
    split; [exact L | discriminate].
  - cbn [fst snd ret].
    split; [reflexivity|]. split; [apply (sp_db_tajneed _ _ _ _ P)|].
    split; [exact L|]. intros _.
    destruct (sp_db _ _ _ _ P) as [H | (_ & H & _)]; [exact H | congruence].
Qed.

(** X11: with a Supabase client, [saveTajneedMemberWithId] never throws,
    and one of two things happened. Either it answers null and nothing was
    stored: the member table, the mapping table and the local mapping
    cache are as before. Or a member carrying the submitted fields, under
    the submitted id or under the id the database generated, is in the
    member table, and the members with other ids are the same as before;
    then, where localStorage can be written (or there is no window), that
    member is the answer, and in the browser the local cache object has
    been assigned the stored id at the submitted one; and where
    localStorage refuses the write, the answer is null although the member
    is stored, and the mapping table and the local cache are as before. *)
Theorem saveTajneedMemberWithId_outcome (w : World) (o : Oracle)
    (member : WithId.t) :
  supabase w = true ->
  let r := saveTajneedMemberWithId o member w in
  (fst r = Returned None
   /\ db_tajneed_members (snd r) = db_tajneed_members w
   /\ db_qr_mappings (snd r) = db_qr_mappings w
   /\ local_cache (snd r) = local_cache w)
  \/ (exists key created,
        fst r = (if storage_ok w
                   then Returned (Some (stored_member member key created))
                   else Returned None)
        /\ (key = WithId.id member \/ key = db_uuid o)
        /\ In (stored_member member key created) (db_tajneed_members (snd r))
        /\ (forall y, id y <> key ->
              In y (db_tajneed_members (snd r))
              <-> In y (db_tajneed_members w))
        /\ (has_window w = true ->
            local_cache (snd r)
            = if can_write w
              then JS.set_prop (local_cache w) (WithId.id member) key
              else local_cache w)
        /\ (storage_ok w = false ->
            db_qr_mappings (snd r) = db_qr_mappings w)).
Proof.
  intros Hsb r. subst r.
  unfold saveTajneedMemberWithId. rewrite bind_gets, Hsb. cbn [negb].
  rewrite try_catch_bind.
  pose proof (supabase_select_member_by_id_post (WithId.id member) w)
    as (F1 & _ & D1 & C1).
  cbv zeta in F1, D1, C1.
  destruct (supabase_select_member_by_id (WithId.id member) w) as [a w1].
  cbn [fst snd] in F1, D1, C1.
  assert (Hnull : forall w', members_frame w w' ->
            db_tajneed_members w' = db_tajneed_members w ->
            fst (@ret (option TajneedMember) None w') = Returned None
            /\ db_tajneed_members (snd (@ret (option TajneedMember) None w'))
               = db_tajneed_members w
            /\ db_qr_mappings (snd (@ret (option TajneedMember) None w'))
               = db_qr_mappings w
            /\ local_cache (snd (@ret (option TajneedMember) None w'))
               = local_cache w).
  { intros w' F D. cbn. repeat split; try assumption.
    - apply (mf_db_qr _ _ F).
    - apply (members_frame_reads _ _ F). }
  assert (Hsome : forall key created w2,
            members_frame w w2 ->
            (key = WithId.id member \/ key = db_uuid o) ->
            In (stored_member member key created) (db_tajneed_members w2) ->
            (forall y, id y <> key ->
               In y (db_tajneed_members w2) <-> In y (db_tajneed_members w)) ->
            let r := try_catch
                       (saveQRCodeMapping (WithId.id member)
                          (id (stored_member member key created)) ;;
                        ret (Some (stored_member member key created)))
                       (fun _ => ret None) w2 in
            exists key created,
              fst r = (if storage_ok w
                   then Returned (Some (stored_member member key created))
                   else Returned None)
              /\ (key = WithId.id member \/ key = db_uuid o)
              /\ In (stored_member member key created)
                   (db_tajneed_members (snd r))
              /\ (forall y, id y <> key ->
                    In y (db_tajneed_members (snd r))
                    <-> In y (db_tajneed_members w))
              /\ (has_window w = true ->
                  local_cache (snd r)
                  = if can_write w
                    then JS.set_prop (local_cache w) (WithId.id member) key
                    else local_cache w)
              /\ (storage_ok w = false ->
                  db_qr_mappings (snd r) = db_qr_mappings w)).
  { intros key created w2 F K Hin Hoth r.
    destruct (registration_mapped (WithId.id member)
                (stored_member member key created) w w2 F)
      as (R1 & R2 & R3 & R4).
    fold r in R1, R2, R3, R4.
    exists key, created. rewrite R2.
    split; [exact R1|]. split; [exact K|]. split; [exact Hin|].
    split; [exact Hoth|]. split; [exact R3|].
    intros E. rewrite (R4 E). apply (mf_db_qr _ _ F). }
  assert (Hinsert : forall w1, members_frame w w1 ->
            db_tajneed_members w1 = db_tajneed_members w ->
            let r := try_catch
              (answer <- supabase_insert_member
                           (stored_member member (WithId.id member) (db_now o)) ;;
               match answer with
               | inl _ =>
                   answer <- supabase_insert_member
                               (stored_member member (db_uuid o) (db_now o)) ;;
                   match answer with
                   | inl _ => ret None
                   | inr newData =>
                       saveQRCodeMapping (WithId.id member) (id newData) ;;
                       ret (Some newData)
                   end
               | inr data =>
                   saveQRCodeMapping (WithId.id member) (id data) ;;
                   ret (Some data)
               end) (fun _ => ret None) w1 in
            (fst r = Returned None
             /\ db_tajneed_members (snd r) = db_tajneed_members w
             /\ db_qr_mappings (snd r) = db_qr_mappings w
             /\ local_cache (snd r) = local_cache w)
            \/ (exists key created,
                  fst r = (if storage_ok w
                   then Returned (Some (stored_member member key created))
                   else Returned None)
                  /\ (key = WithId.id member \/ key = db_uuid o)
                  /\ In (stored_member member key created)
                       (db_tajneed_members (snd r))
                  /\ (forall y, id y <> key ->
                        In y (db_tajneed_members (snd r))
                        <-> In y (db_tajneed_members w))
                  /\ (has_window w = true ->
                      local_cache (snd r)
                      = if can_write w
                        then JS.set_prop (local_cache w) (WithId.id member) key
                        else local_cache w)
                  /\ (storage_ok w = false ->
                      db_qr_mappings (snd r) = db_qr_mappings w))).
  { clear w1 F1 D1 C1 a. intros w1 F1 D1 r. subst r.
    rewrite try_catch_bind.
    pose proof (supabase_insert_member_post
                  (stored_member member (WithId.id member) (db_now o)) w1)
      as (F2 & _ & C2).
    cbv zeta in F2, C2.
    destruct (supabase_insert_member _ w1) as [a2 w2].
    cbn [fst snd] in F2, C2.
    pose proof (members_frame_trans _ _ _ F1 F2) as F12.
    destruct C2 as [[-> D2] | [[e [-> D2]] | (-> & D2 & _ & _)]].
    - left. apply Hnull; [exact F12 | congruence].
    - rewrite try_catch_bind.
      pose proof (supabase_insert_member_post
                    (stored_member member (db_uuid o) (db_now o)) w2)
        as (F3 & _ & C3).
      cbv zeta in F3, C3.
      destruct (supabase_insert_member _ w2) as [a3 w3].
      cbn [fst snd] in F3, C3.
      pose proof (members_frame_trans _ _ _ F12 F3) as F13.
      destruct C3 as [[-> D3] | [[e' [-> D3]] | (-> & D3 & _ & _)]].
      + left. apply Hnull; [exact F13 | congruence].
      + left. apply Hnull; [exact F13 | congruence].
      + right. apply Hsome; [exact F13 | now right | |].
        * rewrite D3. now left.
        * intros y Hy. rewrite D3, D2, D1. cbn.
          split; [intros [<-|H]; [now cbn in Hy | exact H] | now right].
    - right. apply Hsome; [exact F12 | now left | |].
      + rewrite D2. now left.
      + intros y Hy. rewrite D2, D1. cbn.
        split; [intros [<-|H]; [now cbn in Hy | exact H] | now right]. }
  destruct C1 as [-> | [[e ->] | [-> | [x0 [-> Hx0]]]]].
  - left. now apply Hnull.
  - now apply Hinsert.
  - now apply Hinsert.
  - rewrite try_catch_bind.
    pose proof (supabase_update_member_post member w1) as (F2 & _ & C2).
    cbv zeta in F2, C2.
    destruct (supabase_update_member member w1) as [a2 w2].
    cbn [fst snd] in F2, C2.
    pose proof (members_frame_trans _ _ _ F1 F2) as F12.
    destruct C2 as [[-> D2] | [[e [-> D2]] | (old & -> & Hold & D2)]].
    + left. apply Hnull; [exact F12 | congruence].
    + left. apply Hnull; [exact F12 | congruence].
    + right.
      apply filter_single in Hold as [Hin Hid].
      apply String.eqb_eq in Hid.
      change (updated_member member old)
        with (stored_member member (id old) (createdAt old)).
      rewrite Hid.
      apply Hsome; [exact F12 | now left | |].
      * rewrite D2. apply in_map_iff. exists old. split; [|exact Hin].
        rewrite <- Hid at 1. rewrite String.eqb_refl.
        unfold updated_member, stored_member. now rewrite Hid.
      * intros y Hy. rewrite D2, D1.
        now apply In_map_other.
Qed.

Lemma saveTajneedMemberWithId_outcome_witness :
  let r := saveTajneedMemberWithId sample_oracle card_holder (device []) in
  (fst r = Returned None
   /\ db_tajneed_members (snd r) = db_tajneed_members (device [])
   /\ db_qr_mappings (snd r) = db_qr_mappings (device [])
   /\ local_cache (snd r) = local_cache (device []))
  \/ (exists key created,
        fst r = (if storage_ok (device [])
                   then Returned (Some (stored_member card_holder key created))
                   else Returned None)
        /\ (key = WithId.id card_holder \/ key = db_uuid sample_oracle)
        /\ In (stored_member card_holder key created)
             (db_tajneed_members (snd r))
        /\ (forall y, id y <> key ->
              In y (db_tajneed_members (snd r))
              <-> In y (db_tajneed_members (device [])))
        /\ (has_window (device []) = true ->
            local_cache (snd r)
            = if can_write (device [])
              then JS.set_prop (local_cache (device []))
                     (WithId.id card_holder) key
              else local_cache (device []))
        /\ (storage_ok (device []) = false ->
            db_qr_mappings (snd r) = db_qr_mappings (device []))).
Proof.
  exact (saveTajneedMemberWithId_outcome (device []) sample_oracle card_holder
           eq_refl).
Defined.

(** *** Registrations the backend refuses in part *)

Lemma supabase_select_member_by_id_run (key : string) (w : World) :
  supabase_select_member_by_id key w
  = (match responses w with
     | [] | RespOk :: _ =>
         Returned (maybeSingle_of
                     (List.filter (fun m => String.eqb (id m) key)
                        (db_tajneed_members w)))
     | RespError e :: _ => Returned (inl e)
     | RespThrow :: _ => Threw TransportError
     end, answered w).
Proof.
  destruct w as [win sb cur lsc lsq lst dbq dbm [|[|e|] rs] tr]; reflexivity.
Qed.

Lemma supabase_insert_member_run (row : TajneedMember) (w : World) :
  supabase_insert_member row w
  = match responses w with
    | [] | RespOk :: _ =>
        if existsb (fun m => String.eqb (id m) (id row)) (db_tajneed_members w)
        then (Returned (inl duplicate_member_id), answered w)
        else (Returned (inr row), member_inserted row w)
    | RespError e :: _ => (Returned (inl e), answered w)
    | RespThrow :: _ => (Threw TransportError, answered w)
    end.
Proof.
  destruct w as [win sb cur lsc lsq lst dbq dbm [|[|e|] rs] tr];
    unfold supabase_insert_member, next_response, bind, gets, modify, ret,
      throw; cbn; try reflexivity;
    now destruct (existsb _ dbm).
Qed.

Lemma existsb_id_false (key : string) (l : list TajneedMember) :
  (forall x, In x l -> id x <> key) ->
  existsb (fun m => String.eqb (id m) key) l = false.
Proof.
  intros H. induction l as [|x l IH]; [reflexivity|]. cbn.
  rewrite (proj2 (String.eqb_neq _ _) (H x (or_introl eq_refl))).
  apply IH. intros y Hy. apply H. now right.
Qed.

Lemma filter_id_nil (key : string) (l : list TajneedMember) :
  (forall x, In x l -> id x <> key) ->
  List.filter (fun m => String.eqb (id m) key) l = [].
Proof.
  intros H. apply filter_none. intros x Hx. apply String.eqb_neq. now apply H.
Qed.

Lemma find_member_absent (key : string) (keep : TajneedMember -> bool)
    (l : list TajneedMember) :
  (forall x, In x l -> id x <> key) ->
  find_member key (List.filter keep l) = None.
Proof.
  intros H. apply find_member_none.
  intros x Hx. apply filter_In in Hx as [Hx _]. now apply H.
Qed.

Lemma try_save_run (q m : string) (x : TajneedMember) (w : World) :
  try_catch (saveQRCodeMapping q m ;; ret (Some x)) (fun _ => ret None) w
  = (if storage_ok w then Returned (Some x) else Returned None,
     snd (saveQRCodeMapping q m w)).
Proof.
  rewrite try_catch_bind.
  pose proof (saveQRCodeMapping_returns w q m) as R.
  destruct (saveQRCodeMapping q m w) as [out w']. cbn [fst snd] in *.
  subst out. now destruct (storage_ok w).
Qed.

Lemma saveQRCodeMapping_refused (q m : string) (w : World) :
  storage_ok w = false ->
  db_qr_mappings (snd (saveQRCodeMapping q m w)) = db_qr_mappings w.
Proof.
  intros E.
  destruct (sp_db _ _ _ _ (saveQRCodeMapping_post q m w)) as [H | (_ & H & _)];
    [exact H | congruence].
Qed.

(** The insert under the submitted id refused, by the backend's answer or
    by the primary key, and the insert without id served. *)
Lemma fallback_insert_run (o : Oracle) (member : WithId.t) (w1 : World) :
  (exists e, responses w1 = [RespError e])
  \/ (responses w1 = []
      /\ existsb (fun m => String.eqb (id m) (WithId.id member))
           (db_tajneed_members w1) = true) ->
  (forall x, In x (db_tajneed_members w1) -> id x <> db_uuid o) ->
  let new := stored_member member (db_uuid o) (db_now o) in
  try_catch
    (answer <- supabase_insert_member
                 (stored_member member (WithId.id member) (db_now o)) ;;
     match answer with
     | inl _ =>
         answer <- supabase_insert_member new ;;
         match answer with
         | inl _ => ret None
         | inr newData =>
             saveQRCodeMapping (WithId.id member) (id newData) ;;
             ret (Some newData)
         end
     | inr data =>
         saveQRCodeMapping (WithId.id member) (id data) ;; ret (Some data)
     end) (fun _ => ret None) w1
  = (if storage_ok w1 then Returned (Some new) else Returned None,
     snd (saveQRCodeMapping (WithId.id member) (db_uuid o)
            (member_inserted new (answered w1)))).
Proof.
  intros Hrs Hfresh new.
  assert (Hr : responses (answered w1) = [])
    by (cbn; destruct Hrs as [[e ->] | [-> _]]; reflexivity).
  rewrite try_catch_bind, supabase_insert_member_run.
  destruct Hrs as [[e ->] | [-> Hdup]].
  2: change (id (stored_member member (WithId.id member) (db_now o)))
       with (WithId.id member); rewrite Hdup.
  all: rewrite try_catch_bind, supabase_insert_member_run, Hr;
    change (db_tajneed_members (answered w1)) with (db_tajneed_members w1);
    rewrite (existsb_id_false (id new) _ Hfresh);
    rewrite try_save_run; reflexivity.
Qed.

Lemma after_resolve_responses (w : World) (token : string) :
  responses w = [] -> responses (after_resolve w token) = [].
Proof.
  intros H. unfold after_resolve.
  assert (H1 : responses (if supabase w
                          then request_sent
                                 (EvSelectQr token (scope_filter (scope_of w)))
                                 (cache_scope w)
                          else w) = []).
  { destruct (supabase w); [|exact H].
    destruct (cache_scope_fields w) as (_ & _ & _ & _ & _ & _ & _ & Hr & _).
    unfold request_sent. cbn. now rewrite Hr, H. }
  destruct (remote_match w token); [exact H1|].
  now destruct (has_window w).
Qed.

(** A registration whose insert under the submitted id is refused, on a
    backend that serves the requests after it. *)
Lemma refused_id_registered (w : World) (o : Oracle) (member : WithId.t)
    (c : Response) (e : PostgrestError) :
  supabase w = true ->
  responses w = [c; RespError e] ->
  c <> RespThrow ->
  (forall x, In x (db_tajneed_members w) ->
     id x <> WithId.id member /\ id x <> db_uuid o) ->
  let new := stored_member member (db_uuid o) (db_now o) in
  let w' := snd (saveTajneedMemberWithId o member w) in
  fst (saveTajneedMemberWithId o member w)
  = (if storage_ok w then Returned (Some new) else Returned None)
  /\ supabase w' = true
  /\ responses w' = []
  /\ scope_of w' = scope_of w
  /\ db_tajneed_members w' = new :: db_tajneed_members w
  /\ db_qr_mappings w'
     = if storage_ok w
       then upsert_row (payload_of (WithId.id member) (db_uuid o)
                          (Some (scope_of w))) (db_qr_mappings w)
       else db_qr_mappings w.
Proof.
  intros Hsb Hrs Hc Hdb new w'. subst w'.
  assert (Hrun : saveTajneedMemberWithId o member w
                 = (if storage_ok w then Returned (Some new)
                    else Returned None,
                    snd (saveQRCodeMapping (WithId.id member) (db_uuid o)
                           (member_inserted new (answered (answered w)))))).
  { unfold saveTajneedMemberWithId. rewrite bind_gets, Hsb. cbn [negb].
    rewrite try_catch_bind, supabase_select_member_by_id_run, Hrs.
    rewrite (filter_id_nil _ _ (fun x Hx => proj1 (Hdb x Hx))).
    assert (Hr1 : responses (answered w) = [RespError e])
      by (cbn; now rewrite Hrs).
    destruct c as [|e0|]; [| |contradiction]; cbn [maybeSingle_of];
      (apply (fallback_insert_run o member (answered w));
       [left; eauto | intros x Hx; now apply Hdb]). }
  rewrite Hrun. cbn [fst snd]. split; [reflexivity|].
  set (w3 := member_inserted new (answered (answered w))).
  assert (H3 : supabase w3 = true /\ responses w3 = []
               /\ scope_of w3 = scope_of w
               /\ db_qr_mappings w3 = db_qr_mappings w
               /\ db_tajneed_members w3 = new :: db_tajneed_members w
               /\ storage_ok w3 = storage_ok w).
  { subst w3. destruct w as [win sb cur lsc lsq lst dbq dbm rs tr].
    cbn in Hrs, Hsb. subst rs sb. repeat split. }
  destruct H3 as (Hsb3 & Hrs3 & Hs3 & Hq3 & Hm3 & Hok3).
  pose proof (saveQRCodeMapping_post (WithId.id member) (db_uuid o) w3) as P.
  rewrite (sp_supabase _ _ _ _ P), (sp_scope _ _ _ _ P),
    (sp_db_tajneed _ _ _ _ P).
  split; [exact Hsb3|].
  split; [now apply saveQRCodeMapping_script_nil|].
  split; [exact Hs3|]. split; [exact Hm3|].
  destruct (storage_ok w) eqn:E.
  - destruct (saveQRCodeMapping_healthy (WithId.id member) (db_uuid o) w3
                Hok3 Hsb3 Hrs3) as [Hq4 _].
    now rewrite Hq4, Hs3, Hq3.
  - now rewrite saveQRCodeMapping_refused.
Qed.

(** The scan of a token whose only mapping row names the newest member of
    the table, on a backend that serves every request and with the event
    of the mapping selected. *)
Lemma scan_through_mapping (w : World) (token entity : string)
    (new : TajneedMember) (dbm : list TajneedMember) (dbq : list QrRow) :
  supabase w = true ->
  responses w = [] ->
  scope_of w <> "" ->
  qr_primary_key dbq ->
  db_qr_mappings w
  = upsert_row (payload_of token entity (Some (scope_of w))) dbq ->
  db_tajneed_members w = new :: dbm ->
  id new = entity ->
  eventId new = scope_of w ->
  entity <> "" ->
  entity <> token ->
  (forall x, In x dbm -> id x <> token) ->
  fst (findMemberByQRCodeId token w) = Returned (Some new)
  /\ responses (snd (findMemberByQRCodeId token w)) = [].
Proof.
  intros Hsb Hrs Hs Hpk Hq Hm Hid He Hu Hne Hdb.
  set (row := payload_of token entity (Some (scope_of w))).
  assert (Hts : JS.truthy (scope_of w) = true) by now apply truthy_true.
  assert (Hrows : remote_rows w token = [row]).
  { rewrite remote_rows_by_key, Hq. fold row.
    assert (Hkey : List.filter
                     (fun r => String.eqb (qr_code_id r) token)
                     (upsert_row row dbq) = [row])
      by exact (upsert_row_single row _ Hpk).
    rewrite Hkey.
    unfold scope_filter. rewrite Hts. cbn. rewrite Hts. cbn.
    now rewrite String.eqb_refl. }
  destruct (scan_mapped_reads w token row) as [Hvis Hres]; auto.
  { unfold next_served. now rewrite Hrs. }
  assert (Hrun : findMemberByQRCodeId token w
                 = (Returned (Some new),
                    after_resolve (after_members w) token)).
  { rewrite findMemberByQRCodeId_step. cbv zeta.
    rewrite Hvis, Hres, Hm. cbn [List.filter].
    rewrite He, String.eqb_refl.
    unfold find_member at 1. cbn [List.find].
    rewrite Hid, (proj2 (String.eqb_neq _ _) Hne).
    fold (find_member token
            (List.filter (fun y => String.eqb (eventId y) (scope_of w)) dbm)).
    rewrite find_member_absent by exact Hdb.
    change (member_id row) with entity.
    rewrite find_mapped_str. unfold find_member. cbn [List.find].
    now rewrite Hid, String.eqb_refl. }
  rewrite Hrun. cbn [fst snd]. split; [reflexivity|].
  apply after_resolve_responses.
  rewrite (after_members_responses w Hsb Hts). now rewrite Hrs.
Qed.



(** X13: with a Supabase client, when the check for an existing member
    fails while a member of the selected event has the submitted id, and
    the requests after it are served, [saveTajneedMemberWithId] does not
    update that member: the primary key refuses the insert under the
    submitted id, the submitted data are stored as one more member under a
    generated id, and a scan of the submitted id still answers with the
    old member. Where localStorage takes the write of the mapping (or
    there is no window), the answer is the new member and the mapping
    table maps the submitted id to it; where localStorage refuses it, the
    answer is null. *)
Theorem failed_check_duplicates_member (w : World) (o : Oracle)
    (member : WithId.t) (e : PostgrestError) (old : TajneedMember) :
  supabase w = true ->
  responses w = [RespError e] ->
  scope_of w <> "" ->
  find_member (WithId.id member)
    (List.filter (fun y => String.eqb (eventId y) (scope_of w))
       (db_tajneed_members w)) = Some old ->
  (forall x, In x (db_tajneed_members w) -> id x <> db_uuid o) ->
  let new := stored_member member (db_uuid o) (db_now o) in
  let r := saveTajneedMemberWithId o member w in
  fst r = (if storage_ok w then Returned (Some new) else Returned None)
  /\ db_tajneed_members (snd r) = new :: db_tajneed_members w
  /\ (storage_ok w = true ->
      In (payload_of (WithId.id member) (db_uuid o) (Some (scope_of w)))
         (db_qr_mappings (snd r)))
  /\ fst (findMemberByQRCodeId (WithId.id member)
            (second_browser (snd r) (scope_of w)))
     = Returned (Some old).
Proof.
  intros Hsb Hrs Hs Hold Hfresh new r.
  assert (Hdup : existsb (fun m => String.eqb (id m) (WithId.id member))
                   (db_tajneed_members w) = true).
  { apply find_member_some in Hold as [Hin Hid].
    apply filter_In in Hin as [Hin _].
    apply existsb_exists. exists old. split; [exact Hin|].
    now apply String.eqb_eq. }
  assert (Hne : db_uuid o <> WithId.id member).
  { apply find_member_some in Hold as [Hin Hid].
    apply filter_In in Hin as [Hin _].
    intros E. apply (Hfresh old Hin). congruence. }
  assert (Hrun : saveTajneedMemberWithId o member w
                 = (if storage_ok w then Returned (Some new)
                    else Returned None,
                    snd (saveQRCodeMapping (WithId.id member) (db_uuid o)
                           (member_inserted new (answered (answered w)))))).
  { unfold saveTajneedMemberWithId. rewrite bind_gets, Hsb. cbn [negb].
    rewrite try_catch_bind, supabase_select_member_by_id_run, Hrs.
    apply (fallback_insert_run o member (answered w)).
    - right. split; [cbn; now rewrite Hrs | exact Hdup].
    - exact Hfresh. }
  subst r. rewrite Hrun. cbn [fst snd]. split; [reflexivity|].
  set (w3 := member_inserted new (answered (answered w))).
  assert (H3 : supabase w3 = true /\ responses w3 = []
               /\ scope_of w3 = scope_of w
               /\ db_tajneed_members w3 = new :: db_tajneed_members w
               /\ storage_ok w3 = storage_ok w).
  { subst w3. destruct w as [win sb cur lsc lsq lst dbq dbm rs tr].
    cbn in Hrs, Hsb. subst rs sb. repeat split. }
  destruct H3 as (Hsb3 & Hrs3 & Hs3 & Hm3 & Hok3).
  pose proof (saveQRCodeMapping_script_nil (WithId.id member) (db_uuid o) w3
                Hrs3) as Hrs4.
  pose proof (saveQRCodeMapping_post (WithId.id member) (db_uuid o) w3) as P.
  assert (Hq4 : storage_ok w = true ->
                In (payload_of (WithId.id member) (db_uuid o)
                      (Some (scope_of w)))
                   (db_qr_mappings
                      (snd (saveQRCodeMapping (WithId.id member) (db_uuid o)
                              w3)))).
  { intros Hok. rewrite Hok in Hok3.
    destruct (saveQRCodeMapping_healthy (WithId.id member) (db_uuid o) w3
                Hok3 Hsb3 Hrs3) as [-> _].
    rewrite Hs3. apply upsert_row_In. }
  set (w4 := snd (saveQRCodeMapping (WithId.id member) (db_uuid o) w3)) in *.
  assert (Hm4 : db_tajneed_members w4 = new :: db_tajneed_members w)
    by now rewrite (sp_db_tajneed _ _ _ _ P).
  split; [exact Hm4|]. split; [exact Hq4|].
  set (w5 := second_browser w4 (scope_of w)).
  assert (Hs5 : scope_of w5 = scope_of w) by apply scope_of_second_browser.
  assert (Hvis : visible_members w5
                 = List.filter (fun y => String.eqb (eventId y) (scope_of w))
                     (new :: db_tajneed_members w)).
  { unfold visible_members. rewrite Hs5.
    rewrite (proj2 (truthy_true _) Hs).
    change (supabase w5) with (supabase w4).
    rewrite (sp_supabase _ _ _ _ P), Hsb3.
    rewrite served_nil by exact Hrs4.
    change (db_tajneed_members w5) with (db_tajneed_members w4).
    now rewrite Hm4. }
  rewrite findMemberByQRCodeId_step. cbv zeta. rewrite Hvis.
  cbn [List.filter].
  replace (find_member (WithId.id member)
             (if String.eqb (eventId new) (scope_of w)
              then new :: List.filter
                            (fun y => String.eqb (eventId y) (scope_of w))
                            (db_tajneed_members w)
              else List.filter (fun y => String.eqb (eventId y) (scope_of w))
                     (db_tajneed_members w)))
    with (Some old); [reflexivity|].
  destruct (String.eqb (eventId new) (scope_of w)); [|now rewrite Hold].
  unfold find_member. cbn [List.find].
  change (id new) with (db_uuid o).
  rewrite (proj2 (String.eqb_neq _ _) Hne). symmetry. exact Hold.
Qed.

Lemma failed_check_duplicates_member_witness :
  db_tajneed_members
    (snd (saveTajneedMemberWithId sample_oracle card_holder
            (registered_device [RespError request_timeout])))
  = [stored_member card_holder "3f2b8c1e-5d4a-4e6f-9a7b-2c1d0e9f8a7b"
       "2025-06-01T09:00:00.120Z";
     stored_member card_holder "SURPLUS-001" "2025-05-30T10:00:00.000Z"].
Proof.
  refine (proj1 (proj2
    (failed_check_duplicates_member
       (registered_device [RespError request_timeout])
       sample_oracle card_holder request_timeout
       (stored_member card_holder "SURPLUS-001" "2025-05-30T10:00:00.000Z")
       _ _ _ _ _))).
  - reflexivity.
  - reflexivity.
  - discriminate.
  - reflexivity.
  - intros x [<-|[]]. discriminate.
Defined.

(** ** Updating and deleting members *)

Lemma updateTajneedMember_remote (key : string) (updates : Updates.t)
    (w : World) :
  supabase w = true ->
  updateTajneedMember key updates w
  = match responses w with
    | [] | RespOk :: _ =>
        (Returned true,
         set_db_tajneed_members
           (updated_remotely key updates (db_tajneed_members w))
           (answered w))
    | RespError e :: _ => (Returned false, answered w)
    | RespThrow :: _ => (Threw TransportError, answered w)
    end.
Proof.
  intros Hsb. unfold updateTajneedMember. rewrite bind_gets, Hsb. cbn [negb].
  destruct w as [win sb cur lsc lsq lst dbq dbm [|[|e|] rs] tr]; reflexivity.
Qed.

Lemma updated_locally_cons (key : string) (updates : Updates.t)
    (x : TajneedMember) (l : list TajneedMember) :
  updated_locally key updates (x :: l)
  = if String.eqb (id x) key then apply_updates updates x :: l
    else x :: updated_locally key updates l.
Proof.
  unfold updated_locally. cbn.
  destruct (String.eqb (id x) key); [reflexivity|].
  destruct (findIndex _ l) as [i|]; cbn; [|reflexivity].
  now destruct (l !! i).
Qed.

Lemma findIndex_id_None (key : string) (l : list TajneedMember) :
  (forall x, In x l -> id x <> key) ->
  findIndex (fun m => String.eqb (id m) key) l = None.
Proof.
  induction l as [|x l IH]; intros H; [reflexivity|]. cbn.
  rewrite (proj2 (String.eqb_neq _ _) (H x (or_introl eq_refl))).
  rewrite IH; [reflexivity|]. intros y Hy. apply H. now right.
Qed.

Lemma findIndex_id_Some (key : string) (l : list TajneedMember)
    (x : TajneedMember) :
  In x l -> id x = key ->
  exists i, findIndex (fun m => String.eqb (id m) key) l = Some i.
Proof.
  intros Hin Hid. induction l as [|y l IH]; [destruct Hin|]. cbn.
  destruct (String.eqb (id y) key) eqn:E; [eauto|].
  destruct Hin as [->|Hin].
  - apply String.eqb_neq in E. contradiction.
  - destruct (IH Hin) as [i ->]. cbn. eauto.
Qed.

(** What both kinds of update do to a list of members, [g] being the
    rewriting of one member. *)
Lemma updated_locally_spec (key : string) (updates : Updates.t)
    (l : list TajneedMember) :
  List.map id (updated_locally key updates l) = List.map id l
  /\ List.map eventId (updated_locally key updates l) = List.map eventId l
  /\ List.map createdAt (updated_locally key updates l) = List.map createdAt l
  /\ (forall x, id x <> key ->
        In x (updated_locally key updates l) <-> In x l)
  /\ ((forall x, In x l -> id x <> key) -> updated_locally key updates l = l)
  /\ (forall old, NoDup (List.map id l) -> In old l -> id old = key ->
        In (apply_updates updates old) (updated_locally key updates l)
        /\ forall x, In x (updated_locally key updates l) -> id x = key ->
             x = apply_updates updates old).
Proof.
  induction l as [|y l (I1 & I2 & I3 & I4 & I5 & I6)].
  - unfold updated_locally. cbn.
    split; [|split; [|split; [|split; [|split]]]]; try reflexivity.
    intros old _ [].
  - rewrite updated_locally_cons.
    destruct (String.eqb_spec (id y) key) as [E|N]; cbn.
    + split; [|split; [|split; [|split; [|split]]]]; try reflexivity.
      * intros x Hx. split; (intros [<-|H]; [|now right]).
        -- now cbn in Hx.
        -- congruence.
      * intros H. now destruct (H y (or_introl eq_refl)).
      * intros old Hnd Hin Hid. apply NoDup_cons in Hnd as [Hy _].
        assert (Hold : old = y).
        { destruct Hin as [->|Hin]; [reflexivity|]. exfalso. apply Hy.
          rewrite E, <- Hid. apply list_elem_of_In. now apply in_map. }
        subst old. split; [now left|].
        intros x [<-|Hx] Hk; [reflexivity|].
        exfalso. apply Hy. rewrite E, <- Hk.
        apply list_elem_of_In. now apply in_map.
    + rewrite I1, I2, I3.
      split; [|split; [|split; [|split; [|split]]]]; try reflexivity.
      * intros x Hx. split; (intros [<-|H]; [now left | right; now apply I4]).
      * intros H. rewrite I5; [reflexivity|].
        intros x Hx. apply H. now right.
      * intros old Hnd Hin Hid. apply NoDup_cons in Hnd as [_ Hl].
        destruct Hin as [->|Hin]; [contradiction|].
        destruct (I6 old Hl Hin Hid) as [J1 J2].
        split; [now right|].
        intros x [<-|Hx] Hk; [contradiction | now apply J2].
Qed.

Lemma updated_remotely_spec (key : string) (updates : Updates.t)
    (l : list TajneedMember) :
  List.map id (updated_remotely key updates l) = List.map id l
  /\ List.map eventId (updated_remotely key updates l) = List.map eventId l
  /\ List.map createdAt (updated_remotely key updates l)
     = List.map createdAt l
  /\ (forall x, id x <> key ->
        In x (updated_remotely key updates l) <-> In x l)
  /\ ((forall x, In x l -> id x <> key) -> updated_remotely key updates l = l)
  /\ (forall old, NoDup (List.map id l) -> In old l -> id old = key ->
        In (apply_updates (updateData_of updates) old)
          (updated_remotely key updates l)
        /\ forall x, In x (updated_remotely key updates l) -> id x = key ->
             x = apply_updates (updateData_of updates) old).
Proof.
  unfold updated_remotely.
  split; [|split; [|split; [|split; [|split]]]].
  1-3: rewrite map_map; apply map_ext; intros m;
    now destruct (String.eqb (id m) key).
  - intros x Hx. now apply In_map_other.
  - intros H. rewrite <- (map_id l) at 2. apply map_ext_in.
    intros m Hm. now rewrite (proj2 (String.eqb_neq _ _) (H m Hm)).
  - intros old Hnd Hin Hid. split.
    + apply in_map_iff. exists old. split; [|exact Hin].
      now rewrite (proj2 (String.eqb_eq _ _) Hid).
    + intros x Hx Hk. apply in_map_iff in Hx as (m & <- & Hm).
      destruct (String.eqb_spec (id m) key) as [E|N]; [|contradiction].
      f_equal.
      clear Hk. induction l as [|y l IH]; [destruct Hin|].
      apply NoDup_cons in Hnd as [Hy Hl].
      destruct Hin as [->|Hin], Hm as [->|Hm]; auto.
      * exfalso. apply Hy. rewrite Hid, <- E.
        apply list_elem_of_In. now apply in_map.
      * exfalso. apply Hy. rewrite E, <- Hid.
        apply list_elem_of_In. now apply in_map.
Qed.

(** One call of [updateTajneedMember], on either backend. Without a
    Supabase client the list is read, which fails when localStorage cannot
    be read, and written back when a member has the id, which fails when
    localStorage refuses the write. *)
Lemma updateTajneedMember_summary (key : string) (updates : Updates.t)
    (w : World) :
  let r := updateTajneedMember key updates w in
  stored_members (snd r)
  = (if supabase w
     then if served w
          then updated_remotely key updates (db_tajneed_members w)
          else db_tajneed_members w
     else if storage_ok w
          then updated_locally key updates (local_members w)
          else local_members w)
  /\ fst r
     = (if supabase w
        then match responses w with
             | [] | RespOk :: _ => Returned true
             | RespError _ :: _ => Returned false
             | RespThrow :: _ => Threw TransportError
             end
        else if has_window w && negb (can_read w) then Threw StorageError
             else match findIndex (fun m => String.eqb (id m) key)
                          (local_members w) with
                  | Some _ =>
                      if storage_ok w then Returned true
                      else Threw StorageError
                  | None => Returned false
                  end)
  /\ db_qr_mappings (snd r) = db_qr_mappings w
  /\ local_cache (snd r) = local_cache w.
Proof.
  intros r. subst r. destruct (supabase w) eqn:Hsb.
  - rewrite (updateTajneedMember_remote key updates w Hsb).
    unfold stored_members, served.
    destruct w as [win sb cur lsc lsq lst dbq dbm [|[|e|] rs] tr];
      cbn in Hsb; subst sb; repeat split.
  - unfold updateTajneedMember. rewrite bind_gets, Hsb. cbn [negb].
    unfold bind at 1. rewrite getFromLocalStorage_tajneed_run.
    unfold stored_members, updated_locally.
    destruct w as [[] sb cur lsc lsq lst dbq dbm rs tr []];
      cbn in Hsb; subst sb; cbn; try (repeat split; reflexivity).
    all: unfold local_members; cbn;
      destruct (findIndex _ (default [] lst)) as [i|] eqn:E;
      [unfold bind; rewrite saveToLocalStorage_tajneed_run|];
      cbn; unfold local_members; cbn; rewrite ?E; repeat split.
Qed.

(** X14: [updateTajneedMember] for an id no stored member has changes
    nothing, and its answer depends on the backend: true with a Supabase
    client that serves the request; without one false, or the error of
    localStorage thrown when the stored list cannot be read. *)
Theorem update_of_missing_member (w : World) (key : string)
    (updates : Updates.t) :
  supabase w = false \/ served w = true ->
  (forall x, In x (stored_members w) -> id x <> key) ->
  let r := updateTajneedMember key updates w in
  fst r = (if negb (supabase w) && has_window w && negb (can_read w)
           then Threw StorageError
           else Returned (supabase w))
  /\ stored_members (snd r) = stored_members w.
Proof.
  intros Hb Hno r.
  destruct (updateTajneedMember_summary key updates w) as (S1 & S2 & _).
  fold r in S1, S2. rewrite S1, S2. unfold stored_members in *.
  destruct (supabase w); cbn [negb andb].
  - destruct Hb as [Hb|Hb]; [discriminate|]. rewrite Hb. split.
    + unfold served in Hb. now destruct (responses w) as [|[| |] rs].
    + now apply updated_remotely_spec.
  - rewrite (findIndex_id_None _ _ Hno). split; [reflexivity|].
    destruct (storage_ok w); [|reflexivity].
    now apply updated_locally_spec.
Qed.

Lemma update_of_missing_member_witness :
  fst (updateTajneedMember "SURPLUS-404"
         {| Updates.fullName := Some "New Name"; Updates.tanzeem := None;
            Updates.region := None; Updates.jamaat := None |}
         (registered_device []))
  = Returned true.
Proof.
  refine (proj1
    (update_of_missing_member (registered_device []) "SURPLUS-404" _ _ _)).
  - now right.
  - intros x [<-|[]]. discriminate.
Defined.

(** X15: whatever the backend answers, [updateTajneedMember] changes no
    member's id, event or creation time, adds and removes no member,
    leaves the members with other ids as they are, and does not touch the
    QR mappings. *)
Theorem update_keeps_identity (w : World) (key : string)
    (updates : Updates.t) :
  let w' := snd (updateTajneedMember key updates w) in
  List.map id (stored_members w') = List.map id (stored_members w)
  /\ List.map eventId (stored_members w') = List.map eventId (stored_members w)
  /\ List.map createdAt (stored_members w')
     = List.map createdAt (stored_members w)
  /\ (forall x, id x <> key ->
        In x (stored_members w') <-> In x (stored_members w))
  /\ db_qr_mappings w' = db_qr_mappings w
  /\ local_cache w' = local_cache w.
Proof.
  intros w'.
  destruct (updateTajneedMember_summary key updates w) as (S1 & _ & S3 & S4).
  fold w' in S1, S3, S4. rewrite S1, S3, S4. unfold stored_members.
  destruct (updated_remotely_spec key updates (db_tajneed_members w))
    as (R1 & R2 & R3 & R4 & _).
  destruct (updated_locally_spec key updates (local_members w))
    as (L1 & L2 & L3 & L4 & _).
  destruct (supabase w); [destruct (served w)|destruct (storage_ok w)];
    repeat split; auto; try apply R4; try apply L4; auto.
Qed.

(** X16: when the ids of the stored members are distinct and the backend
    in use serves the request, [updateTajneedMember] for the id of a
    stored member answers true, and afterwards the only member with the
    id is the old one with the fields written over: without a Supabase
    client every field present in the update, with one only the fields
    that are not empty. Without a Supabase client this needs a
    localStorage that takes the write: when it does not, the error is
    thrown and the stored members are as before. *)
Theorem update_writes_fields (w : World) (key : string)
    (updates : Updates.t) (old : TajneedMember) :
  supabase w = false \/ served w = true ->
  NoDup (List.map id (stored_members w)) ->
  In old (stored_members w) ->
  id old = key ->
  let r := updateTajneedMember key updates w in
  let new := apply_updates
               (if supabase w then updateData_of updates else updates) old in
  (supabase w = false -> storage_ok w = false ->
   fst r = Threw StorageError
   /\ stored_members (snd r) = stored_members w)
  /\ (supabase w = true \/ storage_ok w = true ->
      fst r = Returned true
      /\ In new (stored_members (snd r))
      /\ (forall x, In x (stored_members (snd r)) -> id x = key -> x = new)).
Proof.
  intros Hb Hnd Hin Hid r new.
  destruct (updateTajneedMember_summary key updates w) as (S1 & S2 & _).
  fold r in S1, S2. rewrite S1, S2. subst new. unfold stored_members in *.
  destruct (supabase w).
  - split; [discriminate|]. intros _.
    destruct Hb as [Hb|Hb]; [discriminate|]. rewrite Hb.
    destruct (updated_remotely_spec key updates (db_tajneed_members w))
      as (_ & _ & _ & _ & _ & R6).
    destruct (R6 old Hnd Hin Hid) as [J1 J2].
    split; [|split; assumption].
    unfold served in Hb. now destruct (responses w) as [|[| |] rs].
  - destruct (findIndex_id_Some key _ old Hin Hid) as [i ->].
    split.
    + intros _ Hok. rewrite Hok. split; [|reflexivity].
      now destruct (has_window w && negb (can_read w)).
    + intros [Hok|Hok]; [discriminate|].
      rewrite Hok, (storage_ok_read w Hok).
      destruct (updated_locally_spec key updates (local_members w))
        as (_ & _ & _ & _ & _ & L6).
      destruct (L6 old Hnd Hin Hid) as [J1 J2].
      split; [reflexivity|split; assumption].
Qed.

Lemma update_writes_fields_witness :
  In {| id := "SURPLUS-001"; eventId := "evt-1";
        fullName := "Card Holder Senior"; tanzeem := Ansar;
        region := "Coast"; jamaat := "Mombasa";
        createdAt := "2025-05-30T10:00:00.000Z" |}
    (stored_members
       (snd (updateTajneedMember "SURPLUS-001"
               {| Updates.fullName := Some "Card Holder Senior";
                  Updates.tanzeem := None;
                  Updates.region := Some ""; Updates.jamaat := None |}
               (registered_device [])))).
Proof.
  refine (proj1 (proj2 (proj2
    (update_writes_fields (registered_device []) "SURPLUS-001"
       {| Updates.fullName := Some "Card Holder Senior";
          Updates.tanzeem := None;
          Updates.region := Some ""; Updates.jamaat := None |}
       (stored_member card_holder "SURPLUS-001" "2025-05-30T10:00:00.000Z")
       _ _ _ _) (or_introl eq_refl)))).
  - now right.
  - repeat constructor. intros H. inversion H.
  - now left.
  - reflexivity.
Defined.

(** One call of [deleteTajneedMember], on either backend. *)
Lemma deleteTajneedMember_summary (key : string) (w : World) :
  let r := deleteTajneedMember key w in
  let others := List.filter (fun m => negb (String.eqb (id m) key)) in
  stored_members (snd r)
  = (if supabase w
     then if served w then others (db_tajneed_members w)
          else db_tajneed_members w
     else if storage_ok w then others (local_members w)
          else local_members w)
  /\ fst r
     = (if supabase w
        then match responses w with
             | [] | RespOk :: _ => Returned true
             | RespError _ :: _ => Returned false
             | RespThrow :: _ => Threw TransportError
             end
        else if storage_ok w then Returned true else Threw StorageError)
  /\ db_qr_mappings (snd r) = db_qr_mappings w
  /\ local_cache (snd r) = local_cache w.
Proof.
  intros r others. subst r others.
  unfold deleteTajneedMember. rewrite bind_gets.
  destruct (supabase w) eqn:Hsb; cbn [negb].
  - unfold stored_members, served.
    destruct w as [win sb cur lsc lsq lst dbq dbm [|[|e|] rs] tr];
      cbn in Hsb; subst sb; repeat split.
  - unfold stored_members.
    destruct w as [[] sb cur lsc lsq lst dbq dbm rs tr []];
      cbn in Hsb; subst sb; repeat split.
Qed.

(** X17: when [deleteTajneedMember] answers true, every stored member with
    the id is gone and the others are kept; when it does not, the members
    are as before. In no case does it touch the QR mappings: a token
    mapped to the deleted member is still mapped to its id, in the table
    and in the local cache. *)
Theorem delete_leaves_mappings (w : World) (key : string) :
  let r := deleteTajneedMember key w in
  (fst r = Returned true ->
   forall x, In x (stored_members (snd r))
             <-> In x (stored_members w) /\ id x <> key)
  /\ (fst r <> Returned true -> stored_members (snd r) = stored_members w)
  /\ (forall token entity,
        maps_to (snd r) token entity <-> maps_to w token entity).
Proof.
  intros r.
  destruct (deleteTajneedMember_summary key w) as (S1 & S2 & S3 & S4).
  fold r in S1, S2, S3, S4. cbv zeta in S1.
  assert (Hf : forall l x,
            In x (List.filter (fun m => negb (String.eqb (id m) key)) l)
            <-> In x l /\ id x <> key).
  { intros l x. rewrite filter_In, negb_true_iff, String.eqb_neq. tauto. }
  split; [|split].
  - rewrite S1, S2. unfold stored_members, served.
    destruct (supabase w);
      [|destruct (storage_ok w); [intros _ x; apply Hf | discriminate]].
    destruct (responses w) as [|[| |] rs]; try discriminate;
      intros _ x; apply Hf.
  - rewrite S1, S2. unfold stored_members, served.
    destruct (supabase w); [|destruct (storage_ok w); congruence].
    destruct (responses w) as [|[| |] rs]; congruence.
  - intros token entity. unfold maps_to. now rewrite S3, S4.
Qed.

(** ** Registering a member without a card *)

(** X18: [saveTajneedMember] stores the member under a generated id and
    never writes a QR mapping. Without a Supabase client the member is
    added at the end of the list under the clock's reading, whatever ids
    the list holds, unless localStorage fails: then its error is thrown to
    the caller and the list is as before. With a client, the answer is
    null exactly when the backend answers with an error, the table then
    being unchanged, and a failure of the transport is thrown to the
    caller. *)
Theorem saveTajneedMember_outcome (w : World) (o : Oracle)
    (member : NewMember.t) :
  let r := saveTajneedMember o member w in
  let row key created :=
    {| id := key; eventId := NewMember.eventId member;
       fullName := NewMember.fullName member;
       tanzeem := NewMember.tanzeem member;
       region := NewMember.region member;
       jamaat := NewMember.jamaat member; createdAt := created |} in
  db_qr_mappings (snd r) = db_qr_mappings w
  /\ local_cache (snd r) = local_cache w
  /\ (supabase w = false ->
      fst r = (if storage_ok w
               then Returned (Some (row (date_now o) (date_iso o)))
               else Threw StorageError)
      /\ (has_window w = true ->
          local_members (snd r)
          = if can_write w
            then local_members w ++ [row (date_now o) (date_iso o)]
            else local_members w))
  /\ (supabase w = true ->
      (fst r = Returned (Some (row (db_uuid o) (db_now o)))
       /\ db_tajneed_members (snd r)
          = row (db_uuid o) (db_now o) :: db_tajneed_members w
       /\ served w = true
       /\ forall x, In x (db_tajneed_members w) -> id x <> db_uuid o)
      \/ ((fst r = Returned None \/ fst r = Threw TransportError)
          /\ db_tajneed_members (snd r) = db_tajneed_members w)).
Proof.
  intros r row. subst r.
  unfold saveTajneedMember. rewrite bind_gets.
  destruct (supabase w) eqn:Hsb; cbn [negb].
  - fold (row (db_uuid o) (db_now o)).
    assert (Hfresh : existsb (fun m => String.eqb (id m) (db_uuid o))
                       (db_tajneed_members w) = false ->
                     forall x, In x (db_tajneed_members w) ->
                               id x <> db_uuid o).
    { intros Ex x Hx E. apply not_true_iff_false in Ex. apply Ex.
      apply existsb_exists. exists x. split; [exact Hx|].
      now apply String.eqb_eq. }
    destruct w as [win sb cur lsc lsq lst dbq dbm [|[|e|] rs] tr];
      unfold supabase_insert_member, next_response, bind, gets, modify, ret,
        throw; cbn in *.
    1-2: destruct (existsb _ dbm) eqn:Ex; cbn.
    all: (split; [reflexivity|]); (split; [reflexivity|]);
      (split; [discriminate|]); intros _; auto 10.
  - fold (row (date_now o) (date_iso o)).
    destruct w as [[] sb cur lsc lsq lst dbq dbm rs tr []];
      cbn in Hsb; subst sb; cbn; (split; [reflexivity|]);
      (split; [reflexivity|]); (split; [|discriminate]); intros _;
      (split; [reflexivity|]); try discriminate.
    all: intros _; reflexivity.
Qed.

(** ** Switching events *)

Lemma scope_of_switched (event : string) (w : World) :
  event <> "" \/ storage w <> QuotaExceeded ->
  scope_of (switched event w) = event.
Proof.
  intros H. destruct (String.eqb_spec event "") as [->|N].
  - destruct H as [H|H]; [contradiction|].
    destruct w as [[] sb cur lsc lsq lst dbq dbm rs tr []];
      try reflexivity; contradiction.
  - now apply switched_fields.
Qed.

(** X19: after [switchEvent], [getTajneedMembers] answers with stored
    members only, all of the event switched to, and with none for the
    empty event id; when the backend in use answers (without a Supabase
    client: when localStorage can be read), every stored member of the
    event is in the answer. Switching to the empty event id is the one
    case that depends on localStorage taking the write: where it can be
    read but refuses writes, the event stored before is the one read, as
    on the offline device with the card holder registered for evt-1. *)
Theorem switchEvent_scopes_members (w : World) (event : string) :
  let r := (switchEvent event ;; getTajneedMembers) w in
  (exists l,
     fst r = Returned l
     /\ (forall x, In x l ->
           In x (members_store w)
           /\ (event <> "" \/ storage w <> QuotaExceeded -> eventId x = event))
     /\ (event = "" -> storage w <> QuotaExceeded -> l = [])
     /\ (event <> "" ->
         (supabase w = false /\ can_read w = true)
         \/ (supabase w = true /\ served w = true) ->
         forall x, In x (stored_members w) -> eventId x = event -> In x l))
  /\ fst ((switchEvent "" ;; getTajneedMembers)
            (set_storage QuotaExceeded registered_offline))
     = Returned
         [stored_member card_holder "SURPLUS-001" "2025-05-30T10:00:00.000Z"].
Proof.
  intros r. split; [|vm_compute; reflexivity].
  subst r. unfold switchEvent.
  rewrite bind_switch, getTajneedMembers_run. cbn [fst].
  exists (visible_members (switched event w)).
  pose proof (scope_of_switched event w) as Hs.
  assert (Hf : has_window (switched event w) = has_window w
               /\ supabase (switched event w) = supabase w
               /\ served (switched event w) = served w
               /\ ls_tajneed_members (switched event w) = ls_tajneed_members w
               /\ db_tajneed_members (switched event w)
                  = db_tajneed_members w
               /\ can_read (switched event w) = can_read w).
  { destruct w as [[] sb cur lsc lsq lst dbq dbm rs tr []]; repeat split. }
  destruct Hf as (f1 & f2 & f3 & f4 & f5 & f6).
  split; [reflexivity|]. split; [|split].
  - intros x Hx. apply visible_members_scoped in Hx as [Hin He].
    split.
    + unfold members_store in *. now rewrite f4, f5 in Hin.
    + intros H. now rewrite (Hs H) in He.
  - intros -> H. apply visible_members_no_scope. apply Hs. now right.
  - intros He Hb x Hx Hev. unfold visible_members.
    rewrite (Hs (or_introl He)), (proj2 (truthy_true _) He),
      f1, f2, f3, f4, f5, f6.
    unfold stored_members, local_members in Hx.
    destruct (supabase w).
    + destruct Hb as [[Hb _]|[_ Hb]]; [discriminate|]. rewrite Hb.
      apply filter_In. split; [exact Hx | now apply String.eqb_eq].
    + destruct Hb as [[_ Hb]|[Hb _]]; [|discriminate]. rewrite Hb.
      destruct (has_window w); [|destruct Hx]. cbn [andb].
      apply filter_In. split; [exact Hx | now apply String.eqb_eq].
Qed.

(** * Properties of the attendance functions *)

Local Open Scope desk_scope.

Lemma lift_run {A B} (c : M A) (k : A -> D B) (d : Desk) (a : A)
    (w' : World) :
  c (world d) = (Returned a, w') ->
  bind_d (lift c) k d = k a (set_world w' d).
Proof. intros H. unfold bind_d, lift. now rewrite H. Qed.

Lemma bind_d_returned {A B} (c : D A) (k : A -> D B) (d d' : Desk) (a : A) :
  c d = (Returned a, d') -> bind_d c k d = k a d'.
Proof. intros H. unfold bind_d. now rewrite H. Qed.

Lemma set_world_id (d : Desk) : set_world (world d) d = d.
Proof. now destruct d. Qed.

Lemma bind_d_outcome {A B} (c : D A) (k : A -> D B) (d d' : Desk)
    (out : Outcome A) :
  c d = (out, d') ->
  bind_d c k d
  = match out with
    | Returned a => k a d'
    | Threw e => (Threw e, d')
    | OutOfFuel => (OutOfFuel, d')
    end.
Proof. intros H. unfold bind_d. rewrite H. now destruct out. Qed.

Lemma lift_outcome {A B} (c : M A) (k : A -> D B) (d : Desk)
    (out : Outcome A) (w' : World) :
  c (world d) = (out, w') ->
  bind_d (lift c) k d
  = match out with
    | Returned a => k a (set_world w' d)
    | Threw e => (Threw e, set_world w' d)
    | OutOfFuel => (OutOfFuel, set_world w' d)
    end.
Proof. intros H. unfold bind_d, lift. rewrite H. now destruct out. Qed.

Lemma getFromLocalStorage_attendance_run (d : Desk) :
  getFromLocalStorage_attendance d
  = (if has_window (world d) && negb (can_read (world d))
     then Threw StorageError
     else Returned (local_attendance d),
     if has_window (world d)
     then set_world
            (set_trace (trace (world d) ++ [EvLocalGet LOCAL_ATTENDANCE_KEY])
               (world d)) d
     else d).
Proof.
  destruct d as [[[] sb cur lsc lsq lst dbq dbm rs tr []] lsa dba lse lsr];
    reflexivity.
Qed.

Lemma saveToLocalStorage_attendance_run (l : list AttendanceRecord.t)
    (d : Desk) :
  saveToLocalStorage_attendance l d
  = (if storage_ok (world d) then Returned tt else Threw StorageError,
     if has_window (world d)
     then if can_write (world d)
          then set_ls_attendance_records (Some l)
                 (set_world
                    (set_trace
                       (trace (world d) ++ [EvLocalSet LOCAL_ATTENDANCE_KEY])
                       (world d)) d)
          else set_world
                 (set_trace
                    (trace (world d) ++ [EvLocalSet LOCAL_ATTENDANCE_KEY])
                    (world d)) d
     else d).
Proof.
  destruct d as [[[] sb cur lsc lsq lst dbq dbm rs tr []] lsa dba lse lsr];
    reflexivity.
Qed.

Lemma unreadable_not_ok (w : World) :
  has_window w && negb (can_read w) = true -> storage_ok w = false.
Proof.
  unfold storage_ok, can_read, can_write.
  now destruct (has_window w), (storage w).
Qed.

Lemma lift_gets {A B} (f : World -> A) (k : A -> D B) (d : Desk) :
  bind_d (lift (gets f)) k d = k (f (world d)) d.
Proof. unfold bind_d, lift, gets. cbn. now rewrite set_world_id. Qed.

Lemma desk_read_refl (d : Desk) : desk_read d d.
Proof. split; [apply same_data_refl | reflexivity ..]. Qed.

Lemma desk_read_trans (d1 d2 d3 : Desk) :
  desk_read d1 d2 -> desk_read d2 d3 -> desk_read d1 d3.
Proof.
  intros [a1 a2 a3 a4 a5] [b1 b2 b3 b4 b5].
  split; [eapply same_data_trans; eassumption | congruence ..].
Qed.

Lemma desk_read_set_world (d : Desk) (w' : World) :
  same_data (world d) w' -> desk_read d (set_world w' d).
Proof. intros S. now split. Qed.

Lemma desk_read_local (d d' : Desk) :
  desk_read d d' ->
  local_attendance d' = local_attendance d
  /\ local_members (world d') = local_members (world d)
  /\ scope_of (world d') = scope_of (world d)
  /\ supabase (world d') = supabase (world d)
  /\ has_window (world d') = has_window (world d)
  /\ db_tajneed_members (world d') = db_tajneed_members (world d).
Proof.
  intros [S L B E G]. unfold local_attendance, local_members.
  rewrite (sd_window _ _ S), (sd_ls_tajneed _ _ S), L.
  repeat split; apply S.
Qed.

Lemma desk_read_storage (d d' : Desk) :
  desk_read d d' ->
  storage_ok (world d') = storage_ok (world d)
  /\ can_read (world d') = can_read (world d)
  /\ can_write (world d') = can_write (world d).
Proof.
  intros [S _ _ _ _]. unfold storage_ok, can_read, can_write.
  now rewrite (sd_window _ _ S), (sd_storage _ _ S).
Qed.


(** The local branch of [addAttendanceRecord]: the error of localStorage
    is thrown with nothing stored, or the call goes as on a storage that
    works. *)
Lemma addAttendanceRecord_local (o : Oracle) (memberId : string) (d : Desk) :
  supabase (world d) = false ->
  let s := scope_of (world d) in
  let r := addAttendanceRecord o memberId d in
  let taken :=
    existsb (fun record =>
               String.eqb (AttendanceRecord.eventId record) s
               && String.eqb (AttendanceRecord.memberId record) memberId)
      (local_attendance d) in
  same_data (world d) (world (snd r))
  /\ db_attendance_records (snd r) = db_attendance_records d
  /\ ((fst r = Threw StorageError
       /\ storage_ok (world d) = false
       /\ ls_attendance_records (snd r) = ls_attendance_records d)
      \/ match find_member memberId (local_members (world d)) with
         | Some x =>
             if JS.truthy s && negb taken
             then fst r = Returned (Some (attendance_record (date_now o) s
                                            memberId (date_iso o) x))
                  /\ has_window (world d) = true
                  /\ storage_ok (world d) = true
                  /\ ls_attendance_records (snd r)
                     = Some (local_attendance d
                             ++ [attendance_record (date_now o) s memberId
                                   (date_iso o) x])
             else fst r = Returned None
                  /\ ls_attendance_records (snd r) = ls_attendance_records d
         | None => fst r = Returned None
                   /\ ls_attendance_records (snd r) = ls_attendance_records d
         end).
Proof.
  intros Hsb s r taken. subst r.
  unfold addAttendanceRecord.
  rewrite (lift_run _ _ _ _ _ (getCurrentEventId_run (world d))).
  fold s.
  set (d0 := set_world (cache_scope (world d)) d).
  assert (R0 : desk_read d d0)
    by apply desk_read_set_world, same_data_cache_scope.
  assert (Hnone : forall d', desk_read d d' ->
            same_data (world d) (world d')
            /\ db_attendance_records d' = db_attendance_records d
            /\ @Returned (option AttendanceRecord.t) None = Returned None
            /\ ls_attendance_records d' = ls_attendance_records d).
  { intros d' R. repeat split; apply R. }
  destruct (JS.truthy s) eqn:Hs; cbn [negb andb].
  2: { destruct (Hnone d0 R0) as (n1 & n2 & n3 & n4).
       split; [exact n1|]. split; [exact n2|]. right.
       destruct (find_member _ _); auto. }
  rewrite lift_gets.
  destruct (desk_read_local _ _ R0) as (L0 & M0 & _ & Sb0 & W0 & _).
  destruct (desk_read_storage _ _ R0) as (_ & Cr0 & _).
  rewrite Sb0, Hsb. cbn [negb].
  rewrite (bind_d_outcome _ _ _ _ _ (getFromLocalStorage_attendance_run d0)).
  set (d1 := if has_window (world d0) then _ else d0).
  assert (R1 : desk_read d d1).
  { eapply desk_read_trans; [exact R0|]. subst d1.
    destruct (has_window (world d0)); [|apply desk_read_refl].
    apply desk_read_set_world, same_data_set_trace. }
  clearbody d1. rewrite W0, Cr0.
  destruct (has_window (world d) && negb (can_read (world d))) eqn:Hrd.
  { cbn [fst snd]. split; [apply R1|]. split; [apply R1|]. left.
    split; [reflexivity|]. split; [now apply unreadable_not_ok | apply R1]. }
  rewrite (lift_outcome _ _ _ _ _ (getFromLocalStorage_tajneed_run (world d1))).
  destruct (desk_read_local _ _ R1) as (_ & M1 & _ & _ & W1 & _).
  destruct (desk_read_storage _ _ R1) as (_ & Cr1 & _).
  rewrite W1, Cr1, Hrd.
  set (d2 := set_world _ d1).
  assert (R2 : desk_read d d2).
  { eapply desk_read_trans; [exact R1|]. subst d2.
    apply desk_read_set_world.
    destruct (has_window (world d));
      [apply same_data_set_trace | apply same_data_refl]. }
  destruct (desk_read_local _ _ R2) as (L2 & _ & _ & _ & W2 & _).
  destruct (desk_read_storage _ _ R2) as (Ok2 & _ & Cw2).
  rewrite L0, M1. fold taken. clearbody d2.
  destruct taken; cbn [negb].
  { destruct (Hnone d2 R2) as (n1 & n2 & n3 & n4).
    split; [exact n1|]. split; [exact n2|]. right.
    destruct (find_member _ _); auto. }
  destruct (find_member memberId (local_members (world d))) as [x|] eqn:Ex.
  2: { destruct (Hnone d2 R2) as (n1 & n2 & n3 & n4). auto. }
  rewrite (bind_d_outcome _ _ _ _ _ (saveToLocalStorage_attendance_run _ d2)).
  assert (Hw : has_window (world d) = true).
  { unfold local_members in Ex. destruct (has_window (world d)); [reflexivity|].
    discriminate. }
  rewrite Ok2, W2, Cw2, Hw.
  destruct (storage_ok (world d)) eqn:Hok.
  - rewrite (storage_ok_write _ Hok Hw). cbn [fst snd ret_d].
    split; [|split; [|right; split; [|split; [|split]]]]; try reflexivity.
    + eapply same_data_trans; [apply R2|]. apply same_data_set_trace.
    + apply R2.
  - assert (Cw : can_write (world d) = false).
    { unfold storage_ok in Hok. rewrite Hw in Hok. exact Hok. }
    rewrite Cw. cbn [fst snd].
    split; [|split; [|left; split; [|split]]]; try reflexivity.
    + eapply same_data_trans; [apply R2|]. apply same_data_set_trace.
    + apply R2.
    + apply R2.
Qed.

Lemma same_data_answered (w : World) : same_data w (answered w).
Proof. destruct w. now split. Qed.

Lemma desk_read_answered (d : Desk) : desk_read d (answered_d d).
Proof. apply desk_read_set_world, same_data_answered. Qed.

Lemma supabase_select_attendance_of_run (event memberId : string) (d : Desk) :
  supabase_select_attendance_of event memberId d
  = (match responses (world d) with
     | [] | RespOk :: _ =>
         Returned (maybeSingle_of
                     (List.filter
                        (fun row =>
                           String.eqb (AttendanceRow.event_id row) event
                           && String.eqb (AttendanceRow.member_id row) memberId)
                        (db_attendance_records d)))
     | RespError e :: _ => Returned (inl e)
     | RespThrow :: _ => Threw TransportError
     end, answered_d d).
Proof.
  destruct d as [[win sb cur lsc lsq lst dbq dbm [|[|e|] rs] tr] lsa dba lse lsr];
    reflexivity.
Qed.

Lemma supabase_insert_attendance_run (o : Oracle) (event memberId : string)
    (d : Desk) :
  supabase_insert_attendance o event memberId d
  = match responses (world d) with
    | [] | RespOk :: _ =>
        if existsb
             (fun row =>
                String.eqb (AttendanceRow.id row) (db_uuid o)
                || (String.eqb (AttendanceRow.event_id row) event
                    && String.eqb (AttendanceRow.member_id row) memberId))
             (db_attendance_records d)
        then (Returned (inl duplicate_attendance), answered_d d)
        else if negb (existsb (fun m => String.eqb (id m) memberId)
                        (db_tajneed_members (world d)))
        then (Returned (inl unknown_member), answered_d d)
        else (Returned (inr (joined (db_tajneed_members (world d))
                               (attendance_row o event memberId))),
              set_db_attendance_records
                (attendance_row o event memberId :: db_attendance_records d)
                (answered_d d))
    | RespError e :: _ => (Returned (inl e), answered_d d)
    | RespThrow :: _ => (Threw TransportError, answered_d d)
    end.
Proof.
  destruct d as [[win sb cur lsc lsq lst dbq dbm [|[|e|] rs] tr] lsa dba lse lsr];
    unfold supabase_insert_attendance, bind_d, lift, gets_d, modify_d, ret_d,
      next_response, gets; cbn; try reflexivity.
  all: destruct (existsb _ dba); [reflexivity|];
    destruct (existsb _ dbm); reflexivity.
Qed.

Lemma lift_select_member_run {B} (key : string)
    (k : PostgrestError + option TajneedMember -> D B) (d : Desk) :
  bind_d (lift (supabase_select_member_by_id key)) k d
  = match responses (world d) with
    | [] | RespOk :: _ =>
        k (maybeSingle_of
             (List.filter (fun m => String.eqb (id m) key)
                (db_tajneed_members (world d)))) (answered_d d)
    | RespError e :: _ => k (inl e) (answered_d d)
    | RespThrow :: _ => (Threw TransportError, answered_d d)
    end.
Proof.
  unfold bind_d, lift. rewrite supabase_select_member_by_id_run. cbn [fst snd].
  now destruct (responses (world d)) as [|[|e|] rs].
Qed.

Lemma existsb_find_member (key : string) (l : list TajneedMember) :
  existsb (fun m => String.eqb (id m) key) l = true ->
  exists x, find_member key l = Some x /\ In x l /\ id x = key.
Proof.
  intros H. unfold find_member.
  destruct (List.find _ l) as [x|] eqn:E.
  - exists x. apply find_some in E as [Hin Hid].
    apply String.eqb_eq in Hid. auto.
  - apply existsb_exists in H as (x & Hin & Hx).
    now rewrite (find_none _ _ E x Hin) in Hx.
Qed.

(** The remote branch of [addAttendanceRecord]. *)
Lemma addAttendanceRecord_remote (o : Oracle) (memberId : string) (d : Desk) :
  supabase (world d) = true ->
  let s := scope_of (world d) in
  let r := addAttendanceRecord o memberId d in
  same_data (world d) (world (snd r))
  /\ ls_attendance_records (snd r) = ls_attendance_records d
  /\ ((exists x,
         fst r = Returned (Some (attendance_record (db_uuid o) s memberId
                                   (db_now o) x))
         /\ find_member memberId (db_tajneed_members (world d)) = Some x
         /\ s <> ""
         /\ existsb
              (fun row =>
                 String.eqb (AttendanceRow.id row) (db_uuid o)
                 || (String.eqb (AttendanceRow.event_id row) s
                     && String.eqb (AttendanceRow.member_id row) memberId))
              (db_attendance_records d) = false
         /\ db_attendance_records (snd r)
            = attendance_row o s memberId :: db_attendance_records d)
      \/ ((fst r = Returned None \/ fst r = Threw TransportError)
          /\ db_attendance_records (snd r) = db_attendance_records d)).
Proof.
  intros Hsb s r. subst r.
  unfold addAttendanceRecord.
  rewrite (lift_run _ _ _ _ _ (getCurrentEventId_run (world d))).
  fold s.
  set (d0 := set_world (cache_scope (world d)) d).
  assert (R0 : desk_read d d0)
    by apply desk_read_set_world, same_data_cache_scope.
  clearbody d0.
  assert (Hnone : forall (out : Outcome (option AttendanceRecord.t)) d',
            desk_read d d' ->
            out = Returned None \/ out = Threw TransportError ->
            same_data (world d) (world d')
            /\ ls_attendance_records d' = ls_attendance_records d
            /\ ((exists x,
                   out = Returned (Some (attendance_record (db_uuid o) s
                                           memberId (db_now o) x))
                   /\ find_member memberId (db_tajneed_members (world d))
                      = Some x
                   /\ s <> ""
                   /\ existsb
                        (fun row =>
                           String.eqb (AttendanceRow.id row) (db_uuid o)
                           || (String.eqb (AttendanceRow.event_id row) s
                               && String.eqb (AttendanceRow.member_id row)
                                    memberId))
                        (db_attendance_records d) = false
                   /\ db_attendance_records d'
                      = attendance_row o s memberId :: db_attendance_records d)
                \/ ((out = Returned None \/ out = Threw TransportError)
                    /\ db_attendance_records d' = db_attendance_records d))).
  { intros out d' R Hout. split; [apply R|]. split; [apply R|].
    right. split; [exact Hout | apply R]. }
  destruct (JS.truthy s) eqn:Hs; cbn [negb].
  2: { apply Hnone; auto. }
  rewrite lift_gets.
  destruct (desk_read_local _ _ R0) as (_ & _ & _ & Sb0 & _ & _).
  rewrite Sb0, Hsb. cbn [negb].
  rewrite lift_select_member_run.
  set (d1 := answered_d d0).
  assert (R1 : desk_read d d1).
  { eapply desk_read_trans; [exact R0 | apply desk_read_answered]. }
  assert (Hcont :
    forall a,
      (a = maybeSingle_of
             (List.filter (fun m => String.eqb (id m) memberId)
                (db_tajneed_members (world d)))
       \/ exists e, a = inl e) ->
      let out :=
        match a with
        | inr (Some _) =>
            existingRecord <- supabase_select_attendance_of s memberId ;;
            match existingRecord with
            | inr (Some _) => ret_d None
            | _ =>
                answer <- supabase_insert_attendance o s memberId ;;
                match answer with
                | inl _ => ret_d None
                | inr data => ret_d (Some data)
                end
            end
        | _ => ret_d None
        end d1 in
      same_data (world d) (world (snd out))
      /\ ls_attendance_records (snd out) = ls_attendance_records d
      /\ ((exists x,
             fst out = Returned (Some (attendance_record (db_uuid o) s
                                         memberId (db_now o) x))
             /\ find_member memberId (db_tajneed_members (world d)) = Some x
             /\ s <> ""
             /\ existsb
                  (fun row =>
                     String.eqb (AttendanceRow.id row) (db_uuid o)
                     || (String.eqb (AttendanceRow.event_id row) s
                         && String.eqb (AttendanceRow.member_id row) memberId))
                  (db_attendance_records d) = false
             /\ db_attendance_records (snd out)
                = attendance_row o s memberId :: db_attendance_records d)
          \/ ((fst out = Returned None \/ fst out = Threw TransportError)
              /\ db_attendance_records (snd out) = db_attendance_records d))).
  { intros a Ha out. subst out.
    destruct a as [e|[x0|]]; [apply Hnone; auto | | apply Hnone; auto].
    unfold bind_d. rewrite supabase_select_attendance_of_run.
    set (d2 := answered_d d1).
    assert (R2 : desk_read d d2).
    { eapply desk_read_trans; [exact R1 | apply desk_read_answered]. }
    assert (Hins :
      let out := (answer <- supabase_insert_attendance o s memberId ;;
                  match answer with
                  | inl _ => ret_d None
                  | inr data => ret_d (Some data)
                  end) d2 in
      same_data (world d) (world (snd out))
      /\ ls_attendance_records (snd out) = ls_attendance_records d
      /\ ((exists x,
             fst out = Returned (Some (attendance_record (db_uuid o) s
                                         memberId (db_now o) x))
             /\ find_member memberId (db_tajneed_members (world d)) = Some x
             /\ s <> ""
             /\ existsb
                  (fun row =>
                     String.eqb (AttendanceRow.id row) (db_uuid o)
                     || (String.eqb (AttendanceRow.event_id row) s
                         && String.eqb (AttendanceRow.member_id row) memberId))
                  (db_attendance_records d) = false
             /\ db_attendance_records (snd out)
                = attendance_row o s memberId :: db_attendance_records d)
          \/ ((fst out = Returned None \/ fst out = Threw TransportError)
              /\ db_attendance_records (snd out) = db_attendance_records d))).
    { intros out. subst out.
      unfold bind_d. rewrite supabase_insert_attendance_run.
      set (d3 := answered_d d2).
      assert (R3 : desk_read d d3).
      { eapply desk_read_trans; [exact R2 | apply desk_read_answered]. }
      destruct (desk_read_local _ _ R2) as (_ & _ & _ & _ & _ & M2).
      rewrite (dr_db _ _ R2), M2.
      clearbody d3.
      destruct (responses (world d2)) as [|[|e|] rs].
      3,4: apply Hnone; auto.
      all: destruct (existsb _ (db_attendance_records d)) eqn:Ex;
        [apply Hnone; auto|];
        destruct (existsb _ (db_tajneed_members (world d))) eqn:Em;
        cbn [negb]; [|apply Hnone; auto];
        destruct (existsb_find_member _ _ Em) as (x & Fx & _ & _);
        cbn [fst snd];
        (split; [apply R3|]); (split; [apply R3|]);
        left; exists x; unfold joined, attendance_record; cbn;
        rewrite Fx; apply truthy_true in Hs; auto. }
    clearbody d2.
    destruct (responses (world d1)) as [|[|e|] rs].
    4: apply Hnone; auto.
    3: exact Hins.
    all: clear Ha;
      destruct (maybeSingle_of (List.filter _ (db_attendance_records d1)))
        as [e|[row|]];
      [exact Hins | apply Hnone; auto | exact Hins]. }
  clearbody d1.
  destruct (desk_read_local _ _ R0) as (_ & _ & _ & _ & _ & M0).
  rewrite M0.
  destruct (responses (world d0)) as [|[|e|] rs].
  4: apply Hnone; auto.
  3: apply (Hcont (inl e)); eauto.
  all: apply (Hcont (maybeSingle_of
                       (List.filter (fun m => String.eqb (id m) memberId)
                          (db_tajneed_members (world d))))); auto.
Qed.

Lemma keys_not_taken {A} (ev mem : A -> string) (s m : string) (l : list A) :
  existsb (fun r => String.eqb (ev r) s && String.eqb (mem r) m) l = false ->
  ~ In (s, m) (List.map (fun r => (ev r, mem r)) l).
Proof.
  intros H Hin. apply in_map_iff in Hin as (r & E & Hr).
  apply not_true_iff_false in H. apply H.
  apply existsb_exists. exists r. split; [exact Hr|].
  injection E as -> ->. now rewrite !String.eqb_refl.
Qed.

Lemma keys_taken {A} (ev mem : A -> string) (s m : string) (l : list A) :
  existsb (fun r => String.eqb (ev r) s && String.eqb (mem r) m) l = true ->
  In (s, m) (List.map (fun r => (ev r, mem r)) l).
Proof.
  intros H. apply existsb_exists in H as (r & Hr & E).
  apply andb_true_iff in E as [E1 E2].
  apply String.eqb_eq in E1, E2. subst.
  apply in_map_iff. now exists r.
Qed.

Lemma existsb_orb_false {A} (f g : A -> bool) (l : list A) :
  existsb (fun x => f x || g x) l = false -> existsb g l = false.
Proof.
  induction l as [|x l IH]; [reflexivity|]. cbn.
  intros H. apply orb_false_elim in H as [H1 H2].
  apply orb_false_elim in H1 as [_ H1]. now rewrite H1, IH.
Qed.

(** One call of [addAttendanceRecord], on either backend: a record is
    added for the pair of the current event and the member, which was
    free, or nothing is stored. *)
Lemma addAttendanceRecord_post (o : Oracle) (memberId : string) (d : Desk) :
  let s := scope_of (world d) in
  let r := addAttendanceRecord o memberId d in
  same_data (world d) (world (snd r))
  /\ ((exists x key at_,
         fst r = Returned (Some (attendance_record key s memberId at_ x))
         /\ s <> ""
         /\ find_member memberId (stored_members (world d)) = Some x
         /\ ~ In (s, memberId) (attendance_keys d)
         /\ attendance_keys (snd r) ≡ₚ (s, memberId) :: attendance_keys d
         /\ attendance_ids (snd r) ≡ₚ key :: attendance_ids d
         /\ (supabase (world d) = false -> storage_ok (world d) = true))
      \/ ((fst r = Returned None \/ fst r = Threw TransportError
           \/ (fst r = Threw StorageError
               /\ supabase (world d) = false
               /\ storage_ok (world d) = false))
          /\ ls_attendance_records (snd r) = ls_attendance_records d
          /\ db_attendance_records (snd r) = db_attendance_records d)).
Proof.
  intros s r. destruct (supabase (world d)) eqn:Hsb.
  - destruct (addAttendanceRecord_remote o memberId d Hsb)
      as (S & L & [(x & Hr & Fx & Hs & Ex & Db) | [Hr Db]]).
    + fold s r in S, L, Hr, Db. fold s in Hs, Ex. split; [exact S|].
      left. exists x, (db_uuid o), (db_now o).
      unfold attendance_keys, attendance_ids, stored_members.
      rewrite (sd_supabase _ _ S), Hsb, Db.
      repeat split; try assumption; try reflexivity; try discriminate.
      apply existsb_orb_false in Ex.
      exact (keys_not_taken AttendanceRow.event_id AttendanceRow.member_id
               s memberId _ Ex).
    + fold s r in S, L, Hr, Db. split; [exact S|]. right.
      split; [tauto | auto].
  - destruct (addAttendanceRecord_local o memberId d Hsb) as (S & Db & C).
    fold s r in S, Db, C. cbv zeta in C. fold s in C.
    split; [exact S|].
    destruct C as [(Hr & Hok & Ls) | C]; [right; auto 10|].
    destruct (find_member memberId (local_members (world d))) as [x|] eqn:Fx;
      [|right; destruct C; auto].
    destruct (JS.truthy s) eqn:Hs; [|right; destruct C; auto].
    destruct (existsb _ (local_attendance d)) eqn:Ex;
      [right; destruct C; auto|].
    cbn [andb negb] in C. destruct C as (Hr & Hw & Hok & Ls).
    left. exists x, (date_now o), (date_iso o).
    assert (La : local_attendance (snd r)
                 = local_attendance d
                   ++ [attendance_record (date_now o) s memberId
                         (date_iso o) x]).
    { unfold local_attendance at 1.
      now rewrite (sd_window _ _ S), Hw, Ls. }
    unfold attendance_keys, attendance_ids, stored_members.
    rewrite (sd_supabase _ _ S), Hsb, La, !map_app. cbn [List.map].
    split; [exact Hr|]. split; [now apply truthy_true|].
    split; [exact Fx|]. split.
    { exact (keys_not_taken AttendanceRecord.eventId AttendanceRecord.memberId
               s memberId _ Ex). }
    split; [symmetry; apply Permutation_cons_append|].
    split; [symmetry; apply Permutation_cons_append|].
    intros _. exact Hok.
Qed.

Lemma supabase_select_attendance_run (event : string) (d : Desk) :
  supabase_select_attendance event d
  = (match responses (world d) with
     | [] | RespOk :: _ =>
         Returned (inr (List.map (joined (db_tajneed_members (world d)))
                          (List.filter
                             (fun row =>
                                String.eqb (AttendanceRow.event_id row) event)
                             (db_attendance_records d))))
     | RespError e :: _ => Returned (inl e)
     | RespThrow :: _ => Threw TransportError
     end, answered_d d).
Proof.
  destruct d as [[win sb cur lsc lsq lst dbq dbm [|[|e|] rs] tr] lsa dba lse lsr];
    reflexivity.
Qed.

(** One call of [getAttendanceRecords]: it only reads, and throws only
    when the transport fails or when localStorage, the store in use,
    cannot be read. *)
Lemma getAttendanceRecords_post (d : Desk) :
  let r := getAttendanceRecords d in
  desk_read d (snd r)
  /\ (fst r = Returned (visible_attendance d)
      \/ (fst r = Threw TransportError
          /\ supabase (world d) = true
          /\ exists rs, responses (world d) = RespThrow :: rs)
      \/ (fst r = Threw StorageError
          /\ supabase (world d) = false
          /\ has_window (world d) = true
          /\ can_read (world d) = false)).
Proof.
  intros r. subst r. unfold getAttendanceRecords, visible_attendance.
  rewrite (lift_run _ _ _ _ _ (getCurrentEventId_run (world d))).
  set (d0 := set_world (cache_scope (world d)) d).
  assert (R0 : desk_read d d0)
    by apply desk_read_set_world, same_data_cache_scope.
  assert (Hrs : responses (world d0) = responses (world d))
    by apply cache_scope_fields.
  clearbody d0.
  destruct (JS.truthy (scope_of (world d))) eqn:Hs; cbn [negb];
    [|split; [exact R0 | now left]].
  rewrite lift_gets.
  destruct (desk_read_local _ _ R0) as (L0 & M0 & _ & Sb0 & W0 & Db0).
  destruct (desk_read_storage _ _ R0) as (_ & Cr0 & _).
  rewrite Sb0.
  destruct (supabase (world d)) eqn:Hsb; cbn [negb].
  - unfold bind_d. rewrite supabase_select_attendance_run, Hrs.
    assert (R1 : desk_read d (answered_d d0)).
    { eapply desk_read_trans; [exact R0 | apply desk_read_answered]. }
    unfold served. rewrite (dr_db _ _ R0), Db0.
    destruct (responses (world d)) as [|[|e|] rs] eqn:Hr; cbn [fst snd];
      (split; [exact R1|]); eauto 6.
  - rewrite (bind_d_outcome _ _ _ _ _ (getFromLocalStorage_attendance_run d0)).
    set (d1 := if has_window (world d0) then _ else d0).
    assert (R1 : desk_read d d1).
    { eapply desk_read_trans; [exact R0|]. subst d1.
      destruct (has_window (world d0)); [|apply desk_read_refl].
      apply desk_read_set_world, same_data_set_trace. }
    clearbody d1. rewrite W0, Cr0.
    destruct (has_window (world d) && negb (can_read (world d))) eqn:Hrd.
    { cbn [fst snd]. split; [exact R1|]. right. right.
      apply andb_true_iff in Hrd as [Hw Hc].
      apply negb_true_iff in Hc. auto. }
    rewrite (lift_outcome _ _ _ _ _
               (getFromLocalStorage_tajneed_run (world d1))).
    destruct (desk_read_local _ _ R1) as (_ & M1 & _ & _ & W1 & _).
    destruct (desk_read_storage _ _ R1) as (_ & Cr1 & _).
    rewrite W1, Cr1, Hrd.
    rewrite L0, M1. cbn [fst snd ret_d]. split; [|now left].
    eapply desk_read_trans; [exact R1|]. apply desk_read_set_world.
    destruct (has_window (world d));
      [apply same_data_set_trace | apply same_data_refl].
Qed.

(** ** Recording attendance *)

(** X20: [addAttendanceRecord] records a member at most once per event,
    on either backend and whatever the backend and localStorage answer.
    If the pairs (event, member) of the stored records were distinct they
    stay so; if the pair of the current event and the member is already
    stored, no record is returned (null, or the failure of the transport
    or of localStorage) and the pairs are as before; a record that is
    returned carries the current event (not empty), the member id and the
    stored member with that id, and its pair and id are stored
    afterwards; the pairs of other members and events are never touched,
    nor are the members, the QR mappings and the current event. *)
Theorem attendance_once_per_member (d : Desk) (o : Oracle)
    (memberId : string) :
  let s := scope_of (world d) in
  let r := addAttendanceRecord o memberId d in
  (NoDup (attendance_keys d) -> NoDup (attendance_keys (snd r)))
  /\ (In (s, memberId) (attendance_keys d) ->
      (fst r = Returned None \/ fst r = Threw TransportError
       \/ fst r = Threw StorageError)
      /\ attendance_keys (snd r) = attendance_keys d)
  /\ (forall record, fst r = Returned (Some record) ->
        AttendanceRecord.eventId record = s
        /\ AttendanceRecord.memberId record = memberId
        /\ s <> ""
        /\ (exists x, AttendanceRecord.member record = Some x
                      /\ id x = memberId
                      /\ In x (stored_members (world d)))
        /\ In (s, memberId) (attendance_keys (snd r))
        /\ In (AttendanceRecord.id record) (attendance_ids (snd r)))
  /\ (forall k, k <> (s, memberId) ->
        In k (attendance_keys (snd r)) <-> In k (attendance_keys d))
  /\ same_data (world d) (world (snd r)).
Proof.
  intros s r.
  destruct (addAttendanceRecord_post o memberId d) as [S C].
  fold s r in S, C.
  assert (Hsame : ls_attendance_records (snd r) = ls_attendance_records d ->
                  db_attendance_records (snd r) = db_attendance_records d ->
                  attendance_keys (snd r) = attendance_keys d).
  { intros L B. unfold attendance_keys, local_attendance.
    now rewrite (sd_supabase _ _ S), (sd_window _ _ S), L, B. }
  destruct C as [(x & key & at_ & Hr & Hs & Fx & Hfree & Pk & Pi & _)
                | (Hr & L & B)].
  - split; [|split; [|split; [|split]]]; try exact S.
    + intros Hnd. rewrite Pk. apply NoDup_cons. split; [|exact Hnd].
      now rewrite list_elem_of_In.
    + intros Hin. contradiction.
    + intros record Hrec. rewrite Hr in Hrec. injection Hrec as <-.
      apply find_member_some in Fx as [Hin Hid].
      repeat split; try assumption; try reflexivity.
      * exists x. auto.
      * apply list_elem_of_In. rewrite Pk. now left.
      * apply list_elem_of_In. rewrite Pi. now left.
    + intros k Hk. rewrite <- !list_elem_of_In, Pk, elem_of_cons.
      split; [intros [->|H]; [contradiction | exact H] | now right].
  - rewrite (Hsame L B).
    split; [|split; [|split; [|split]]]; try exact S; auto.
    + intros _. split; [tauto | reflexivity].
    + intros record Hrec. rewrite Hrec in Hr.
      destruct Hr as [Hr|[Hr|[Hr _]]]; discriminate.
Qed.

(** X21: a member recorded once is not recorded again. After an
    [addAttendanceRecord] that returned a record, another one for the
    same member, at any later time of the clock, returns no record (null,
    or the transport failure) and leaves the attendance stores as they
    are. *)
Theorem attendance_not_recorded_twice (d : Desk) (o o' : Oracle)
    (memberId : string) (record : AttendanceRecord.t) :
  fst (addAttendanceRecord o memberId d) = Returned (Some record) ->
  let d1 := snd (addAttendanceRecord o memberId d) in
  let r := addAttendanceRecord o' memberId d1 in
  (fst r = Returned None \/ fst r = Threw TransportError)
  /\ ls_attendance_records (snd r) = ls_attendance_records d1
  /\ db_attendance_records (snd r) = db_attendance_records d1.
Proof.
  intros Hrec d1 r.
  destruct (addAttendanceRecord_post o memberId d) as [S C].
  fold d1 in S, C.
  destruct C as [(x & key & at_ & _ & _ & _ & _ & Pk & _ & Hok)
                | ([Hr|[Hr|[Hr _]]] & _)];
    [|rewrite Hrec in Hr; discriminate ..].
  destruct (addAttendanceRecord_post o' memberId d1) as [_ C].
  fold r in C. rewrite (sd_scope _ _ S) in C.
  destruct C as [(_ & _ & _ & _ & _ & _ & Hfree & _)
                | ([Hr|[Hr|(_ & Hsb & Hno)]] & L & B)]; auto.
  - exfalso. apply Hfree. apply list_elem_of_In. rewrite Pk. now left.
  - exfalso. rewrite (sd_supabase _ _ S) in Hsb.
    rewrite (storage_ok_eq _ _ (sd_window _ _ S) (sd_storage _ _ S)) in Hno.
    rewrite (Hok Hsb) in Hno. discriminate.
Qed.

Lemma attendance_not_recorded_twice_witness :
  let d1 := snd (addAttendanceRecord sample_oracle "SURPLUS-001"
                   (desk_of registered_offline)) in
  let r := addAttendanceRecord sample_oracle "SURPLUS-001" d1 in
  (fst r = Returned None \/ fst r = Threw TransportError)
  /\ ls_attendance_records (snd r) = ls_attendance_records d1
  /\ db_attendance_records (snd r) = db_attendance_records d1.
Proof.
  exact (attendance_not_recorded_twice (desk_of registered_offline)
           sample_oracle sample_oracle "SURPLUS-001"
           (attendance_record "1748768400000" "evt-1" "SURPLUS-001"
              "2025-06-01T09:00:00.000Z"
              (stored_member card_holder "SURPLUS-001"
                 "2025-05-30T10:00:00.000Z"))
           eq_refl).
Defined.

Lemma find_member_registered (new : TajneedMember) (l : list TajneedMember) :
  find_member (id new) (registered new l) = Some new.
Proof.
  unfold find_member. induction l as [|x l IH].
  - unfold registered. cbn. now rewrite String.eqb_refl.
  - rewrite registered_cons.
    destruct (String.eqb (id x) (id new)) eqn:E; cbn.
    + now rewrite String.eqb_refl.
    + now rewrite E.
Qed.

Lemma run_of_fst {S A} (r : Outcome A * S) (a : A) :
  fst r = Returned a -> r = (Returned a, snd r).
Proof. destruct r as [out st]. cbn. now intros ->. Qed.

Lemma scan_direct_hit (token : string) (w : World) (x : TajneedMember) :
  find_member token (visible_members w) = Some x ->
  findMemberByQRCodeId token w = (Returned (Some x), after_members w).
Proof.
  intros H. rewrite findMemberByQRCodeId_step. cbv zeta. now rewrite H.
Qed.

Lemma same_data_local_members (w w' : World) :
  same_data w w' -> local_members w' = local_members w.
Proof.
  intros S. unfold local_members.
  now rewrite (sd_window _ _ S), (sd_ls_tajneed _ _ S).
Qed.

(** The first record of a member among the records of an event, when the
    last record is the only one of the pair. *)
Lemma find_last_record (s m : string) (members : list TajneedMember)
    (l : list AttendanceRecord.t) (record : AttendanceRecord.t) :
  ~ In (s, m) (List.map (fun r => (AttendanceRecord.eventId r,
                                   AttendanceRecord.memberId r)) l) ->
  AttendanceRecord.eventId record = s ->
  AttendanceRecord.memberId record = m ->
  List.find (fun r => String.eqb (AttendanceRecord.memberId r) m)
    (List.map (with_member members)
       (List.filter (fun r => String.eqb (AttendanceRecord.eventId r) s)
          (l ++ [record])))
  = Some (with_member members record).
Proof.
  intros Hfree He Hm. induction l as [|x l IH]; cbn.
  - rewrite He, String.eqb_refl. cbn. now rewrite Hm, String.eqb_refl.
  - cbn in Hfree.
    destruct (String.eqb_spec (AttendanceRecord.eventId x) s) as [E|N]; cbn.
    + destruct (String.eqb_spec (AttendanceRecord.memberId x) m) as [E'|N'].
      * exfalso. apply Hfree. left. now rewrite E, E'.
      * apply IH. tauto.
    + apply IH. tauto.
Qed.

(** ** From registration to the scan of a recorded member *)

(** X22: without a Supabase client, in the browser with a working
    localStorage, with an event selected: a member registered for the
    selected event with
    [saveTajneedMemberWithId], then recorded with [addAttendanceRecord]
    under the registered id (the pair not being recorded yet), is found
    by [findAttendanceRecordByQRCodeId] of that id: the answer is the new
    record, with the clock's readings, the selected event and the
    registered member attached. *)
Theorem registered_recorded_found (d : Desk) (o o' : Oracle)
    (member : WithId.t) :
  supabase (world d) = false ->
  has_window (world d) = true ->
  storage (world d) = Available ->
  scope_of (world d) <> "" ->
  WithId.eventId member = scope_of (world d) ->
  ~ In (scope_of (world d), WithId.id member) (attendance_keys d) ->
  fst ((lift (saveTajneedMemberWithId o member) ;;
        addAttendanceRecord o' (WithId.id member) ;;
        findAttendanceRecordByQRCodeId (WithId.id member)) d)
  = Returned
      (Some (attendance_record (date_now o') (scope_of (world d))
               (WithId.id member) (date_iso o')
               (stored_member member (WithId.id member) (date_iso o)))).
Proof.
  intros Hsb Hw Hst Hs He Hfree.
  set (w := world d) in *. set (token := WithId.id member) in *.
  set (new := stored_member member token (date_iso o)).
  set (s := scope_of w) in *.
  destruct (local_members_after_register o member w Hsb Hw Hst)
    as (Hr & W1 & Sb1 & S1 & M1 & St1).
  fold new in Hr, M1.
  assert (E1 : saveTajneedMemberWithId o member (world d)
               = (Returned (Some new),
                  snd (saveTajneedMemberWithId o member w))).
  { exact (run_of_fst _ _ Hr). }
  rewrite (lift_run _ _ _ _ _ E1).
  set (w1 := snd (saveTajneedMemberWithId o member w)) in *.
  set (d1 := set_world w1 d).
  assert (La1 : local_attendance d1 = local_attendance d).
  { unfold local_attendance, d1. cbn. fold w. now rewrite W1, Hw. }
  destruct (addAttendanceRecord_local o' token d1 Sb1) as (S2 & _ & C).
  cbv zeta in C.
  change (world d1) with w1 in C, S2.
  destruct C as [(_ & Hno & _) | C];
    [rewrite (storage_ok_available w1 St1) in Hno; discriminate|].
  rewrite M1, S1 in C. fold s in C.
  change token with (id new) in C at 1.
  rewrite find_member_registered in C.
  rewrite (proj2 (truthy_true _) Hs), La1 in C.
  assert (Ex : existsb
                 (fun record =>
                    String.eqb (AttendanceRecord.eventId record) s
                    && String.eqb (AttendanceRecord.memberId record) token)
                 (local_attendance d) = false).
  { apply not_true_iff_false. intros Ex. apply Hfree.
    unfold attendance_keys. fold w. rewrite Hsb.
    exact (keys_taken AttendanceRecord.eventId AttendanceRecord.memberId
             s token _ Ex). }
  rewrite Ex in C. cbn [andb negb] in C. destruct C as (Hr2 & _ & _ & Ls2).
  set (record := attendance_record (date_now o') s token (date_iso o') new)
    in *.
  assert (E2 : addAttendanceRecord o' token d1
               = (Returned (Some record),
                  snd (addAttendanceRecord o' token d1))).
  { exact (run_of_fst _ _ Hr2). }
  rewrite (bind_d_returned _ _ _ _ _ E2).
  set (d2 := snd (addAttendanceRecord o' token d1)) in *.
  assert (F2 : has_window (world d2) = true /\ supabase (world d2) = false
               /\ scope_of (world d2) = s
               /\ local_members (world d2) = registered new (local_members w)
               /\ storage (world d2) = Available).
  { rewrite (sd_window _ _ S2), (sd_supabase _ _ S2), (sd_scope _ _ S2),
      (same_data_local_members _ _ S2), (sd_storage _ _ S2). auto. }
  destruct F2 as (W2 & Sb2 & Sc2 & M2 & St2).
  unfold findAttendanceRecordByQRCodeId.
  assert (Hvis : find_member token (visible_members (world d2)) = Some new).
  { unfold visible_members, can_read.
    rewrite Sc2, (proj2 (truthy_true _) Hs), Sb2, St2.
    unfold local_members in M2. rewrite W2 in M2 |- *. rewrite M2.
    cbn [andb].
    change token with (id new). apply find_registered.
    cbn. fold s. rewrite He. apply String.eqb_refl. }
  rewrite (lift_run _ _ _ _ _ (scan_direct_hit _ _ _ Hvis)).
  set (d3 := set_world (after_members (world d2)) d2).
  assert (R3 : desk_read d2 d3)
    by apply desk_read_set_world, same_data_after_members.
  destruct (desk_read_local _ _ R3) as (L3 & M3 & Sc3 & Sb3 & W3 & _).
  destruct (desk_read_storage _ _ R3) as (_ & Cr3 & _).
  destruct (getAttendanceRecords_post d3)
    as [_ [Hg | [(_ & Hsb3 & _) | (_ & _ & _ & Hcr)]]];
    [|congruence|].
  2: { rewrite Cr3 in Hcr. unfold can_read in Hcr. rewrite St2 in Hcr.
       discriminate. }
  assert (E3 : getAttendanceRecords d3
               = (Returned (visible_attendance d3),
                  snd (getAttendanceRecords d3))).
  { exact (run_of_fst _ _ Hg). }
  rewrite (bind_d_returned _ _ _ _ _ E3). cbn [fst ret_d]. f_equal.
  unfold visible_attendance.
  rewrite Sc3, Sc2, (proj2 (truthy_true _) Hs), Sb3, Sb2, M3, M2, L3.
  unfold local_attendance at 1. rewrite W2, Ls2. cbn [default].
  change (id new) with token.
  rewrite (find_last_record s token _ (local_attendance d) record).
  - f_equal. unfold with_member, record, attendance_record. cbn.
    change token with (id new). now rewrite find_member_registered.
  - unfold attendance_keys in Hfree. fold w in Hfree.
    now rewrite Hsb in Hfree.
  - reflexivity.
  - reflexivity.
Qed.

Lemma registered_recorded_found_witness :
  fst ((lift (saveTajneedMemberWithId sample_oracle card_holder) ;;
        addAttendanceRecord sample_oracle "SURPLUS-001" ;;
        findAttendanceRecordByQRCodeId "SURPLUS-001") (desk_of offline_device))
  = Returned
      (Some (attendance_record "1748768400000" "evt-1" "SURPLUS-001"
               "2025-06-01T09:00:00.000Z"
               (stored_member card_holder "SURPLUS-001"
                  "2025-06-01T09:00:00.000Z"))).
Proof.
  refine (registered_recorded_found (desk_of offline_device) sample_oracle
            sample_oracle card_holder _ _ _ _ _ _).
  - reflexivity.
  - reflexivity.
  - reflexivity.
  - discriminate.
  - reflexivity.
  - intros [].
Defined.

(** ** Scanning a recorded member *)



(** ** Removing a record *)

Lemma removeAttendanceRecord_summary (recordId : string) (d : Desk) :
  let r := removeAttendanceRecord recordId d in
  same_data (world d) (world (snd r))
  /\ fst r
     = (if supabase (world d)
        then match responses (world d) with
             | [] | RespOk :: _ => Returned true
             | RespError _ :: _ => Returned false
             | RespThrow :: _ => Threw TransportError
             end
        else if storage_ok (world d) then Returned true
             else Threw StorageError)
  /\ (if supabase (world d)
      then ls_attendance_records (snd r) = ls_attendance_records d
           /\ db_attendance_records (snd r)
              = (if served (world d)
                 then List.filter
                        (fun row =>
                           negb (String.eqb (AttendanceRow.id row) recordId))
                        (db_attendance_records d)
                 else db_attendance_records d)
      else db_attendance_records (snd r) = db_attendance_records d
           /\ local_attendance (snd r)
              = if storage_ok (world d)
                then List.filter
                       (fun record =>
                          negb (String.eqb (AttendanceRecord.id record)
                                  recordId))
                       (local_attendance d)
                else local_attendance d).
Proof.
  intros r. subst r. unfold removeAttendanceRecord. rewrite lift_gets.
  destruct (supabase (world d)) eqn:Hsb; cbn [negb].
  - unfold served.
    destruct d as [[win sb cur lsc lsq lst dbq dbm [|[|e|] rs] tr] lsa dba lse lsr];
      cbn in Hsb; subst sb; repeat split.
  - destruct d as [[[] sb cur lsc lsq lst dbq dbm rs tr []] lsa dba lse lsr];
      cbn in Hsb; subst sb; repeat split.
Qed.

(** X24: when [removeAttendanceRecord] answers true, the stored records of
    the backend in use are the former ones with another id, in the same
    order; when it answers false or throws they are as before. It never
    adds a record or a pair (event, member), and never touches the
    members, the QR mappings or the current event. *)
Theorem removeAttendanceRecord_removes (d : Desk) (recordId : string) :
  let r := removeAttendanceRecord recordId d in
  (fst r = Returned true ->
   attendance_ids (snd r)
   = List.filter (fun i => negb (String.eqb i recordId)) (attendance_ids d))
  /\ (fst r <> Returned true ->
      attendance_ids (snd r) = attendance_ids d
      /\ attendance_keys (snd r) = attendance_keys d)
  /\ (forall k, In k (attendance_keys (snd r)) -> In k (attendance_keys d))
  /\ same_data (world d) (world (snd r)).
Proof.
  intros r.
  destruct (removeAttendanceRecord_summary recordId d) as (S & Hf & C).
  fold r in S, Hf, C.
  assert (Fi : forall {A} (f : A -> string) (l : list A),
            List.map f (List.filter (fun x => negb (String.eqb (f x) recordId)) l)
            = List.filter (fun i => negb (String.eqb i recordId)) (List.map f l)).
  { intros A f l. induction l as [|x l IH]; [reflexivity|]. cbn.
    destruct (String.eqb (f x) recordId); cbn; now rewrite IH. }
  unfold attendance_ids, attendance_keys.
  rewrite (sd_supabase _ _ S), Hf.
  destruct (supabase (world d)).
  - destruct C as [_ ->]. unfold served.
    destruct (responses (world d)) as [|[|e|] rs];
      (split; [|split; [|split; [|exact S]]]);
      try (intros _; apply Fi); try discriminate; try congruence; auto;
      intros k Hk; apply in_map_iff in Hk as (row & <- & Hrow);
      apply filter_In in Hrow as [Hin _]; apply in_map_iff; now exists row.
  - destruct C as [_ ->].
    destruct (storage_ok (world d)).
    + split; [|split; [|split; [|exact S]]].
      * intros _. apply Fi.
      * congruence.
      * intros k Hk. apply in_map_iff in Hk as (r0 & <- & Hr0).
        apply filter_In in Hr0 as [Hin _]. apply in_map_iff. now exists r0.
    + split; [|split; [|split; [|exact S]]];
        [discriminate | auto | auto].
Qed.

(** ** From registration to the scan at another desk *)

Lemma answered_responses_nil (w : World) :
  responses w = [] -> responses (answered w) = [].
Proof. intros H. cbn. now rewrite H. Qed.

Lemma find_member_filter (key : string) (l : list TajneedMember)
    (x : TajneedMember) :
  List.filter (fun m => String.eqb (id m) key) l = [x] ->
  find_member key l = Some x.
Proof.
  unfold find_member. induction l as [|y l IH]; [discriminate|]. cbn.
  destruct (String.eqb (id y) key); [|exact IH].
  now intros [= ->].
Qed.

(** [addAttendanceRecord] on a backend that serves every request, for a
    member the table holds once and a pair that is free. *)
Lemma addAttendanceRecord_served (o : Oracle) (memberId : string) (d : Desk)
    (x : TajneedMember) :
  supabase (world d) = true ->
  responses (world d) = [] ->
  scope_of (world d) <> "" ->
  List.filter (fun m => String.eqb (id m) memberId)
    (db_tajneed_members (world d)) = [x] ->
  (forall row, In row (db_attendance_records d) ->
     AttendanceRow.id row <> db_uuid o
     /\ AttendanceRow.member_id row <> memberId) ->
  let s := scope_of (world d) in
  let r := addAttendanceRecord o memberId d in
  fst r = Returned (Some (attendance_record (db_uuid o) s memberId
                            (db_now o) x))
  /\ db_attendance_records (snd r)
     = attendance_row o s memberId :: db_attendance_records d
  /\ same_data (world d) (world (snd r))
  /\ responses (world (snd r)) = [].
Proof.
  intros Hsb Hrs Hs Hx Hrows s r.
  assert (Hts : JS.truthy s = true) by now apply truthy_true.
  assert (Hrun : addAttendanceRecord o memberId d
                 = (Returned (Some (attendance_record (db_uuid o) s memberId
                                      (db_now o) x)),
                    set_db_attendance_records
                      (attendance_row o s memberId :: db_attendance_records d)
                      (answered_d
                         (answered_d
                            (answered_d
                               (set_world (cache_scope (world d)) d)))))).
  { unfold addAttendanceRecord.
    rewrite (lift_run _ _ _ _ _ (getCurrentEventId_run (world d))).
    fold s. rewrite Hts. cbn [negb].
    set (d0 := set_world (cache_scope (world d)) d).
    assert (R0 : desk_read d d0)
      by apply desk_read_set_world, same_data_cache_scope.
    assert (Hr0 : responses (world d0) = []).
    { subst d0. cbn. now rewrite (proj1 (proj2 (proj2 (proj2 (proj2 (proj2
        (proj2 (proj2 (cache_scope_fields (world d)))))))))). }
    clearbody d0.
    destruct (desk_read_local _ _ R0) as (_ & _ & _ & Sb0 & _ & M0).
    rewrite lift_gets, Sb0, Hsb. cbn [negb].
    rewrite lift_select_member_run, Hr0, M0, Hx. cbn [maybeSingle_of].
    set (d1 := answered_d d0).
    assert (R1 : desk_read d d1).
    { eapply desk_read_trans; [exact R0 | apply desk_read_answered]. }
    assert (Hr1 : responses (world d1) = [])
      by now apply answered_responses_nil.
    clearbody d1.
    unfold bind_d.
    rewrite supabase_select_attendance_of_run, Hr1, (dr_db _ _ R1).
    rewrite (filter_none _ (db_attendance_records d)).
    2: { intros row Hrow. destruct (Hrows row Hrow) as [_ Hm].
         apply andb_false_iff. right. now apply String.eqb_neq. }
    cbn [maybeSingle_of].
    set (d2 := answered_d d1).
    assert (R2 : desk_read d d2).
    { eapply desk_read_trans; [exact R1 | apply desk_read_answered]. }
    assert (Hr2 : responses (world d2) = [])
      by now apply answered_responses_nil.
    clearbody d2.
    destruct (desk_read_local _ _ R2) as (_ & _ & _ & _ & _ & M2).
    rewrite supabase_insert_attendance_run, Hr2, (dr_db _ _ R2), M2.
    assert (Ef : existsb
                   (fun row =>
                      String.eqb (AttendanceRow.id row) (db_uuid o)
                      || (String.eqb (AttendanceRow.event_id row) s
                          && String.eqb (AttendanceRow.member_id row) memberId))
                   (db_attendance_records d) = false).
    { apply not_true_iff_false. intros E.
      apply existsb_exists in E as (row & Hrow & E).
      destruct (Hrows row Hrow) as [H1 H2].
      apply orb_true_iff in E as [E|E].
      - now apply String.eqb_eq in E.
      - apply andb_true_iff in E as [_ E]. now apply String.eqb_eq in E. }
    rewrite Ef.
    destruct (filter_single _ _ _ Hx) as [Hin Hid].
    assert (Em : existsb (fun m => String.eqb (id m) memberId)
                   (db_tajneed_members (world d)) = true).
    { apply existsb_exists. eauto. }
    rewrite Em. cbn [negb].
    pose proof (find_member_filter _ _ _ Hx) as Fx.
    unfold joined, attendance_row, attendance_record. cbn. now rewrite Fx. }
  subst r. rewrite Hrun. cbn [fst snd]. split; [reflexivity|].
  split; [reflexivity|]. split.
  - change (same_data (world d)
              (world (answered_d
                        (answered_d
                           (answered_d
                              (set_world (cache_scope (world d)) d)))))).
    apply dr_world.
    eapply desk_read_trans; [|apply desk_read_answered].
    eapply desk_read_trans; [|apply desk_read_answered].
    eapply desk_read_trans; [|apply desk_read_answered].
    apply desk_read_set_world, same_data_cache_scope.
  - cbn. rewrite (proj1 (proj2 (proj2 (proj2 (proj2 (proj2
      (proj2 (proj2 (cache_scope_fields (world d)))))))))), Hrs.
    reflexivity.
Qed.

(** X25: with a Supabase client, an event selected and the primary key of
    the mapping table holding: when the insert under the submitted id is
    refused and the backend serves the requests after it, the member is
    registered under the generated id; recorded with
    [addAttendanceRecord] under that id, it gets a record with the
    database's id and time; and, localStorage having taken the write of
    the mapping (or there being no window),
    [findAttendanceRecordByQRCodeId] of the submitted id at another desk
    (another browser, empty localStorage, same event selected) answers
    with that record and the member attached, through the mapping
    table. *)
Theorem registered_recorded_scanned_elsewhere (d : Desk) (o o' : Oracle)
    (member : WithId.t) (c : Response) (e : PostgrestError) :
  supabase (world d) = true ->
  responses (world d) = [c; RespError e] ->
  c <> RespThrow ->
  qr_primary_key (db_qr_mappings (world d)) ->
  scope_of (world d) <> "" ->
  WithId.eventId member = scope_of (world d) ->
  db_uuid o <> "" ->
  db_uuid o <> WithId.id member ->
  (forall x, In x (db_tajneed_members (world d)) ->
     id x <> WithId.id member /\ id x <> db_uuid o) ->
  (forall row, In row (db_attendance_records d) ->
     AttendanceRow.id row <> db_uuid o'
     /\ AttendanceRow.member_id row <> db_uuid o) ->
  let new := stored_member member (db_uuid o) (db_now o) in
  let record :=
    attendance_record (db_uuid o') (scope_of (world d)) (db_uuid o)
      (db_now o') new in
  let r := (lift (saveTajneedMemberWithId o member) ;;
            addAttendanceRecord o' (db_uuid o)) d in
  fst r = Returned (Some record)
  /\ (storage_ok (world d) = true ->
      fst (findAttendanceRecordByQRCodeId (WithId.id member)
             (second_desk (snd r) (scope_of (world d))))
      = Returned (Some record)).
Proof.
  intros Hsb Hrs Hc Hpk Hs He Hu Hne Hdb Hrows new record r.
  set (w := world d) in *. set (s := scope_of w) in *.
  destruct (refused_id_registered w o member c e Hsb Hrs Hc Hdb)
    as (Hr & Sb & Rs & Sc & Dm & Dq).
  fold new s in Hr, Dm, Dq. fold s in Sc.
  set (w4 := snd (saveTajneedMemberWithId o member w)) in *.
  assert (Er : r = addAttendanceRecord o' (db_uuid o) (set_world w4 d)).
  { subst r.
    assert (Hret : exists answer,
              fst (saveTajneedMemberWithId o member w) = Returned answer)
      by (rewrite Hr; destruct (storage_ok w); eauto).
    destruct Hret as [answer Hret].
    exact (lift_run _ (fun _ => addAttendanceRecord o' (db_uuid o)) _ _ _
             (run_of_fst _ _ Hret)). }
  set (d1 := set_world w4 d) in *.
  assert (Hone : List.filter (fun m => String.eqb (id m) (db_uuid o))
                   (db_tajneed_members (world d1)) = [new]).
  { change (world d1) with w4. rewrite Dm. cbn.
    rewrite String.eqb_refl. f_equal.
    apply filter_id_nil. intros x Hx. now apply Hdb. }
  destruct (addAttendanceRecord_served o' (db_uuid o) d1 new)
    as (Ha & Da & Sa & Ra); try assumption.
  { change (scope_of (world d1)) with (scope_of w4). now rewrite Sc. }
  change (scope_of (world d1)) with (scope_of w4) in Ha, Da.
  rewrite Sc in Ha, Da. rewrite <- Er in Ha, Da, Sa, Ra.
  fold record in Ha.
  split; [exact Ha|]. intros Hok. rewrite Hok in Dq.
  change (world d1) with w4 in Sa.
  set (d3 := second_desk (snd r) s).
  assert (F3 : supabase (world d3) = true
               /\ responses (world d3) = []
               /\ scope_of (world d3) = s
               /\ db_qr_mappings (world d3)
                  = upsert_row (payload_of (WithId.id member) (db_uuid o)
                                  (Some s)) (db_qr_mappings w)
               /\ db_tajneed_members (world d3) = new :: db_tajneed_members w
               /\ db_attendance_records d3
                  = attendance_row o' s (db_uuid o) :: db_attendance_records d).
  { subst d3. unfold second_desk. cbn [world db_attendance_records].
    rewrite scope_of_second_browser.
    change (supabase (second_browser (world (snd r)) s))
      with (supabase (world (snd r))).
    change (responses (second_browser (world (snd r)) s))
      with (responses (world (snd r))).
    change (db_qr_mappings (second_browser (world (snd r)) s))
      with (db_qr_mappings (world (snd r))).
    change (db_tajneed_members (second_browser (world (snd r)) s))
      with (db_tajneed_members (world (snd r))).
    rewrite (sd_supabase _ _ Sa), (sd_db_qr _ _ Sa), (sd_db_tajneed _ _ Sa).
    auto 10. }
  destruct F3 as (Sb3 & Rs3 & Sc3 & Dq3 & Dm3 & Da3).
  destruct (scan_through_mapping (world d3) (WithId.id member) (db_uuid o)
              new (db_tajneed_members w) (db_qr_mappings w))
    as [Hf Rf]; try assumption; try reflexivity.
  { now rewrite Sc3. }
  { now rewrite Sc3. }
  { now rewrite Sc3. }
  { intros x Hx. now apply Hdb. }
  destruct (findMemberByQRCodeId_reads (world d3) (WithId.id member))
    as [Sf _].
  unfold findAttendanceRecordByQRCodeId.
  rewrite (lift_run _ _ _ _ _ (run_of_fst _ _ Hf)).
  set (d4 := set_world _ d3).
  assert (R4 : desk_read d3 d4) by now apply desk_read_set_world.
  assert (Rs4 : responses (world d4) = []) by exact Rf.
  clearbody d4.
  destruct (desk_read_local _ _ R4) as (_ & _ & Sc4 & Sb4 & _ & Dm4).
  destruct (getAttendanceRecords_post d4)
    as [_ [Hg | [(_ & _ & rs & Hrs4) | (_ & Hsb4 & _)]]];
    [|congruence ..].
  rewrite (bind_d_returned _ _ _ _ _ (run_of_fst _ _ Hg)).
  cbn [fst ret_d]. f_equal.
  unfold visible_attendance.
  rewrite Sc4, Sc3, (proj2 (truthy_true _) Hs), Sb4, Sb3.
  rewrite (served_nil _ Rs4), (dr_db _ _ R4), Da3, Dm4, Dm3.
  cbn. rewrite !String.eqb_refl. cbn. rewrite String.eqb_refl.
  f_equal. unfold joined, record, attendance_record, attendance_row,
    find_member. cbn. now rewrite String.eqb_refl.
Qed.

Lemma registered_recorded_scanned_elsewhere_witness :
  let r := (lift (saveTajneedMemberWithId sample_oracle card_holder) ;;
            addAttendanceRecord later_oracle
              "3f2b8c1e-5d4a-4e6f-9a7b-2c1d0e9f8a7b")
             (desk_of
                (device [RespError invalid_uuid; RespError invalid_uuid])) in
  fst (findAttendanceRecordByQRCodeId "SURPLUS-001" (second_desk (snd r) "evt-1"))
  = Returned
      (Some (attendance_record "0b9d3c52-6f1e-4c7a-8e2d-5a4b3c2d1e0f" "evt-1"
               "3f2b8c1e-5d4a-4e6f-9a7b-2c1d0e9f8a7b"
               "2025-06-01T09:05:00.480Z"
               (stored_member card_holder
                  "3f2b8c1e-5d4a-4e6f-9a7b-2c1d0e9f8a7b"
                  "2025-06-01T09:00:00.120Z"))).
Proof.
  refine (proj2
    (registered_recorded_scanned_elsewhere
       (desk_of (device [RespError invalid_uuid; RespError invalid_uuid]))
       sample_oracle later_oracle card_holder (RespError invalid_uuid)
       invalid_uuid _ _ _ _ _ _ _ _ _ _) eq_refl).
  - reflexivity.
  - reflexivity.
  - discriminate.
  - constructor.
  - discriminate.
  - reflexivity.
  - discriminate.
  - discriminate.
  - intros x [].
  - intros row [].
Defined.

(** ** Listing the attendance *)


(** ** Deleting an event *)

(** One call of [deleteEvent], on either backend. *)
Lemma deleteEvent_summary (event : string) (d : Desk) :
  let r := deleteEvent event d in
  let kept := fun m : TajneedMember => negb (String.eqb (eventId m) event) in
  fst r
  = (if supabase (world d)
     then match responses (world d) with
          | [] | RespOk :: _ => Returned true
          | RespError _ :: _ => Returned false
          | RespThrow :: _ => Threw TransportError
          end
     else if storage_ok (world d) then Returned true
          else Threw StorageError)
  /\ scope_of (world (snd r)) = scope_of (world d)
  /\ db_qr_mappings (world (snd r)) = db_qr_mappings (world d)
  /\ local_cache (world (snd r)) = local_cache (world d)
  /\ supabase (world (snd r)) = supabase (world d)
  /\ (if supabase (world d)
      then if served (world d)
           then db_tajneed_members (world (snd r))
                = List.filter kept (db_tajneed_members (world d))
                /\ db_attendance_records (snd r)
                   = List.filter
                       (fun row =>
                          negb (String.eqb (AttendanceRow.event_id row) event)
                          && negb (existsb
                                     (fun m =>
                                        String.eqb (eventId m) event
                                        && String.eqb (id m)
                                             (AttendanceRow.member_id row))
                                     (db_tajneed_members (world d))))
                       (db_attendance_records d)
           else db_tajneed_members (world (snd r))
                = db_tajneed_members (world d)
                /\ db_attendance_records (snd r) = db_attendance_records d
      else if storage_ok (world d)
      then local_members (world (snd r))
           = List.filter kept (local_members (world d))
           /\ local_attendance (snd r)
              = List.filter
                  (fun record =>
                     negb (String.eqb (AttendanceRecord.eventId record) event))
                  (local_attendance d)
           /\ (has_window (world d) = true ->
               ls_events_list (snd r)
               = Some (List.filter
                         (fun e => negb (String.eqb (EventSettings.id e) event))
                         (default [] (ls_events_list d)))
               /\ ls_regions (snd r)
                  = Some (List.filter
                            (fun x => negb (String.eqb (Region.eventId x) event))
                            (default [] (ls_regions d))))
      else local_members (world (snd r)) = local_members (world d)
           /\ local_attendance (snd r) = local_attendance d
           /\ ls_events_list (snd r) = ls_events_list d
           /\ ls_regions (snd r) = ls_regions d).
Proof.
  intros r kept. subst r kept.
  destruct d as [[win sb cur lsc lsq lst dbq dbm rs tr sto] lsa dba lse lsr].
  destruct sb.
  - unfold served. destruct rs as [|[|e|] rs]; cbn; repeat split.
  - destruct win, sto; cbn; repeat split; discriminate.
Qed.

(** X27: when [deleteEvent] answers true, no stored member and no stored
    attendance pair of the event is left on the backend in use, and the
    members of the other events are all kept (without a Supabase client
    their attendance pairs too). When it answers false or throws, members
    and attendance are as before. In no case does it touch the QR
    mappings, in the table or in the local cache, or the selected event:
    a deleted event stays selected, and the tokens of its members stay
    mapped. *)
Theorem deleteEvent_clears_event (d : Desk) (event : string) :
  let r := deleteEvent event d in
  (fst r = Returned true ->
   (forall x, In x (stored_members (world (snd r)))
              <-> In x (stored_members (world d)) /\ eventId x <> event)
   /\ (forall k, In k (attendance_keys (snd r)) ->
                 In k (attendance_keys d) /\ fst k <> event)
   /\ (supabase (world d) = false ->
       forall k, In k (attendance_keys d) -> fst k <> event ->
                 In k (attendance_keys (snd r))))
  /\ (fst r <> Returned true ->
      stored_members (world (snd r)) = stored_members (world d)
      /\ attendance_keys (snd r) = attendance_keys d)
  /\ (forall token entity,
        maps_to (world (snd r)) token entity
        <-> maps_to (world d) token entity)
  /\ scope_of (world (snd r)) = scope_of (world d).
Proof.
  intros r.
  destruct (deleteEvent_summary event d) as (Hf & Sc & Dq & Lc & Sb & C).
  fold r in Hf, Sc, Dq, Lc, Sb, C. cbv zeta in C.
  assert (Hk : forall l x,
            In x (List.filter
                    (fun m => negb (String.eqb (eventId m) event)) l)
            <-> In x l /\ eventId x <> event).
  { intros l x. rewrite filter_In, negb_true_iff, String.eqb_neq. tauto. }
  split; [|split; [|split; [|exact Sc]]].
  - intros Ht. rewrite Hf in Ht.
    unfold stored_members, attendance_keys. rewrite Sb.
    destruct (supabase (world d)).
    + unfold served in C.
      destruct (responses (world d)) as [|[| |] rs]; try discriminate;
        destruct C as [-> ->];
        (split; [intros x; apply Hk|]);
        (split; [|discriminate]);
        intros k Hin; apply in_map_iff in Hin as (row & <- & Hrow);
        apply filter_In in Hrow as [Hin Hc];
        apply andb_true_iff in Hc as [Hc _];
        apply negb_true_iff, String.eqb_neq in Hc;
        (split; [apply in_map_iff; now exists row | exact Hc]).
    + destruct (storage_ok (world d)); [|discriminate].
      destruct C as (-> & -> & _).
      split; [intros x; apply Hk|]. split.
      * intros k Hin. apply in_map_iff in Hin as (r0 & <- & Hr0).
        apply filter_In in Hr0 as [Hin Hc].
        apply negb_true_iff, String.eqb_neq in Hc.
        split; [apply in_map_iff; now exists r0 | exact Hc].
      * intros _ k Hin Hne. apply in_map_iff in Hin as (r0 & <- & Hr0).
        apply in_map_iff. exists r0. split; [reflexivity|].
        apply filter_In. split; [exact Hr0|].
        now apply negb_true_iff, String.eqb_neq.
  - intros Ht. rewrite Hf in Ht.
    unfold stored_members, attendance_keys. rewrite Sb.
    destruct (supabase (world d)).
    2: { destruct (storage_ok (world d)); [congruence|].
         destruct C as (-> & -> & _). auto. }
    unfold served in C.
    destruct (responses (world d)) as [|[| |] rs]; try congruence;
      destruct C as [-> ->]; auto.
  - intros token entity. unfold maps_to. now rewrite Dq, Lc.
Qed.
